(** * StringService: a go-kit string service, its endpoints and its HTTP/JSON binding

    The development embeds [main.go] (and the earlier revisions of the same
    program kept beside it) function by function.  Go [string]s are byte
    sequences, so they are modelled by [string] (a list of 8-bit [ascii]
    characters); [len(s)] is [String.length].  Go's [int] and [rune] are
    modelled by [Z].

    The parts of the Go standard library the program calls
    ([strings.ToUpper], [unicode/utf8], [encoding/json]) are modelled from
    the library's behaviour; the only piece left abstract in the string
    layer is the table [unicode.CaseRanges], which depends on the Unicode
    version of the host. *)

From Stdlib Require Import ZArith Lia List String Ascii Bool DecimalString.
Import ListNotations.

Local Open Scope string_scope.
Local Open Scope Z_scope.

(** ** Bytes *)

Definition rune := Z.

(** The numeric value of a byte of a string, [int(s[i])]. *)
Definition b2z (c : ascii) : Z := Z.of_N (N_of_ascii c).

(** Go's conversion [byte(x)]: truncation to the low eight bits. *)
Definition byte_of (x : Z) : Z := x mod 256.

Definition z2b (x : Z) : ascii := ascii_of_N (Z.to_N (byte_of x)).

(** [s[i]] for an index the caller has checked to be in range. *)
Definition at_ (s : string) (i : nat) : Z :=
  match String.get i s with
  | Some c => b2z c
  | None => 0
  end.

(** ** Package [unicode/utf8] *)

Module utf8.

Definition RuneError : rune := 0xFFFD.
Definition RuneSelf : Z := 0x80.
Definition MaxRune : rune := 0x10FFFF.
Definition UTFMax : Z := 4.

Definition surrogateMin : Z := 0xD800.
Definition surrogateMax : Z := 0xDFFF.

Definition t1 : Z := 0x00.
Definition tx : Z := 0x80.
Definition t2 : Z := 0xC0.
Definition t3 : Z := 0xE0.
Definition t4 : Z := 0xF0.
Definition t5 : Z := 0xF8.

Definition maskx : Z := 0x3F.
Definition mask2 : Z := 0x1F.
Definition mask3 : Z := 0x0F.
Definition mask4 : Z := 0x07.

Definition rune1Max : Z := 0x7F.
Definition rune2Max : Z := 0x7FF.
Definition rune3Max : Z := 0xFFFF.

Definition locb : Z := 0x80.
Definition hicb : Z := 0xBF.

(** Entries of the table [first]: the low three bits are the length of the
    sequence, the high four bits index [acceptRanges]. *)
Definition xx : Z := 0xF1.
Definition as_ : Z := 0xF0.
Definition s1 : Z := 0x02.
Definition s2 : Z := 0x13.
Definition s3 : Z := 0x03.
Definition s4 : Z := 0x23.
Definition s5 : Z := 0x34.
Definition s6 : Z := 0x04.
Definition s7 : Z := 0x44.

(** [first[b]]: information about the first byte of a sequence. *)
Definition first (b : Z) : Z :=
  if b <? 0x80 then as_
  else if b <? 0xC2 then xx
  else if b <? 0xE0 then s1
  else if b =? 0xE0 then s2
  else if b <? 0xED then s3
  else if b =? 0xED then s4
  else if b <? 0xF0 then s3
  else if b =? 0xF0 then s5
  else if b <? 0xF4 then s6
  else if b =? 0xF4 then s7
  else xx.

Record acceptRange := { lo : Z; hi : Z }.

(** [acceptRanges[i]]: the range of valid second bytes. *)
Definition acceptRanges (i : Z) : acceptRange :=
  if i =? 0 then {| lo := locb; hi := hicb |}
  else if i =? 1 then {| lo := 0xA0; hi := hicb |}
  else if i =? 2 then {| lo := locb; hi := 0x9F |}
  else if i =? 3 then {| lo := 0x90; hi := hicb |}
  else if i =? 4 then {| lo := locb; hi := 0x8F |}
  else {| lo := 0; hi := 0 |}.

(** [utf8.DecodeRuneInString(s)]: the first rune of [s] and its width in
    bytes; [(RuneError, 0)] on the empty string and [(RuneError, 1)] on an
    invalid encoding. *)
Definition DecodeRuneInString (s : string) : rune * nat :=
  let n := Z.of_nat (String.length s) in
  if n <? 1 then (RuneError, 0%nat)
  else
    let s0 := at_ s 0 in
    let x := first s0 in
    if x >=? as_ then
      ((if x =? xx then RuneError else s0), 1%nat)
    else
      let sz := Z.land x 7 in
      let accept := acceptRanges (Z.shiftr x 4) in
      if n <? sz then (RuneError, 1%nat)
      else
        let s1 := at_ s 1 in
        if (s1 <? lo accept) || (hi accept <? s1) then (RuneError, 1%nat)
        else if sz <=? 2 then
          (Z.lor (Z.shiftl (Z.land s0 mask2) 6) (Z.land s1 maskx), 2%nat)
        else
          let s2 := at_ s 2 in
          if (s2 <? locb) || (hicb <? s2) then (RuneError, 1%nat)
          else if sz <=? 3 then
            (Z.lor (Z.lor (Z.shiftl (Z.land s0 mask3) 12)
                          (Z.shiftl (Z.land s1 maskx) 6))
                   (Z.land s2 maskx), 3%nat)
          else
            let s3 := at_ s 3 in
            if (s3 <? locb) || (hicb <? s3) then (RuneError, 1%nat)
            else
              (Z.lor (Z.lor (Z.lor (Z.shiftl (Z.land s0 mask4) 18)
                                   (Z.shiftl (Z.land s1 maskx) 12))
                            (Z.shiftl (Z.land s2 maskx) 6))
                     (Z.land s3 maskx), 4%nat).

(** Go's conversion [uint32(r)] of a 32-bit signed rune. *)
Definition uint32 (r : rune) : Z := r mod 2 ^ 32.

(** The bytes [utf8.AppendRune(nil, r)]: the UTF-8 encoding of [r], and the
    encoding of [RuneError] when [r] is not a valid rune. *)
Definition AppendRune (r : rune) : list Z :=
  let i := uint32 r in
  if i <=? rune1Max then [byte_of r]
  else if i <=? rune2Max then
    [Z.lor t2 (byte_of (Z.shiftr r 6));
     Z.lor tx (Z.land (byte_of r) maskx)]
  else
    let r := if (MaxRune <? i) || ((surrogateMin <=? i) && (i <=? surrogateMax))
             then RuneError else r in
    if (MaxRune <? i) || ((surrogateMin <=? i) && (i <=? surrogateMax))
       || (i <=? rune3Max) then
      [Z.lor t3 (byte_of (Z.shiftr r 12));
       Z.lor tx (Z.land (byte_of (Z.shiftr r 6)) maskx);
       Z.lor tx (Z.land (byte_of r) maskx)]
    else
      [Z.lor t4 (byte_of (Z.shiftr r 18));
       Z.lor tx (Z.land (byte_of (Z.shiftr r 12)) maskx);
       Z.lor tx (Z.land (byte_of (Z.shiftr r 6)) maskx);
       Z.lor tx (Z.land (byte_of r) maskx)].

(** [utf8.ValidRune(r)]: [r] can be encoded, that is, it is in range and
    not a surrogate half. *)
Definition ValidRune (r : rune) : bool :=
  ((0 <=? r) && (r <? surrogateMin))
  || ((surrogateMax <? r) && (r <=? MaxRune)).

End utf8.

(** A byte slice as a Go string. *)
Fixpoint string_of_bytes (l : list Z) : string :=
  match l with
  | [] => EmptyString
  | b :: l' => String (z2b b) (string_of_bytes l')
  end.

(** The runes a [for _, c := range s] loop visits: each step decodes one rune
    and advances by its width, an invalid byte giving [RuneError] and an
    advance of one byte.  [skip] counts the bytes of the current rune that
    are still to be passed over. *)
Fixpoint range_from (skip : nat) (s : string) : list rune :=
  match s with
  | EmptyString => []
  | String _ s' =>
      match skip with
      | S k => range_from k s'
      | O =>
          let (r, w) := utf8.DecodeRuneInString s in
          r :: range_from (Nat.pred w) s'
      end
  end.

Definition range_string (s : string) : list rune := range_from 0 s.


(** ** Package [unicode] *)

Module unicode.

Definition MaxASCII : rune := 0x7F.

(** The case table of the host: [To_UpperCase r] is
    [unicode.To(unicode.UpperCase, r)], the lookup of [r] in
    [unicode.CaseRanges].  The table is generated from the Unicode database
    of the Go release, so it is an interface here. *)
Class CaseRanges := { To_UpperCase : rune -> rune }.

(** [unicode.ToUpper(r)]. *)
Definition ToUpper `{CaseRanges} (r : rune) : rune :=
  if r <=? MaxASCII then
    if (97 <=? r) && (r <=? 122) then r - (97 - 65) else r
  else To_UpperCase r.

End unicode.

(** ** Package [strings] *)

Module strings.

(** The body of the loop of [strings.Map]: the mapped rune is written to the
    builder, and dropped when the mapping returns a negative value. *)
Fixpoint Map_runes (mapping : rune -> rune) (cs : list rune) : string :=
  match cs with
  | [] => EmptyString
  | c :: cs' =>
      let r := mapping c in
      (if 0 <=? r then string_of_bytes (utf8.AppendRune r) else EmptyString)
        ++ Map_runes mapping cs'
  end.

(** [strings.Map(mapping, s)]: a copy of [s] with every rune replaced by its
    image. *)
Definition Map (mapping : rune -> rune) (s : string) : string :=
  Map_runes mapping (range_string s).

Definition isLower (c : Z) : bool := (97 <=? c) && (c <=? 122).

(** The first loop of [strings.ToUpper]: it stops at the first byte that is
    not ASCII, and records whether a lower-case ASCII letter was seen. *)
Fixpoint scan (s : string) (hasLower : bool) : bool * bool :=
  match s with
  | EmptyString => (true, hasLower)
  | String c s' =>
      if utf8.RuneSelf <=? b2z c then (false, hasLower)
      else scan s' (hasLower || isLower (b2z c))
  end.

(** The second loop of [strings.ToUpper], on an ASCII string: lower-case
    letters are shifted by ['a' - 'A'], the other bytes are copied. *)
Fixpoint upperASCII (s : string) : string :=
  match s with
  | EmptyString => EmptyString
  | String c s' =>
      String (if isLower (b2z c) then z2b (b2z c - (97 - 65)) else c)
             (upperASCII s')
  end.

(** [strings.ToUpper(s)]. *)
Definition ToUpper `{unicode.CaseRanges} (s : string) : string :=
  let (isASCII, hasLower) := scan s false in
  if isASCII then
    if negb hasLower then s else upperASCII s
  else Map unicode.ToUpper s.

End strings.

(** ** Package [context] and the [error] interface *)

Module context.

(** What a [context.Context] carries: a deadline, the cancellation state and
    request-scoped values. *)
Record Context := {
  Deadline : option Z;
  Err : option string;
  Values : list (string * string)
}.

Definition Background : Context :=
  {| Deadline := None; Err := None; Values := [] |}.

End context.

(** The dynamic values of the interface [error] that the program meets. *)
Inductive errorValue :=
| errorString (text : string)            (* errors.New(text) *)
| DecodeError (text : string).           (* an error of encoding/json *)

(** The method [Error()]. *)
Definition Error (e : errorValue) : string :=
  match e with
  | errorString text => text
  | DecodeError text => text
  end.

(** A value of interface type [error]; [None] is [nil]. *)
Definition error := option errorValue.

(** * main.go *)

(** [var ErrEmpty = errors.New("empty string")] *)
Definition ErrEmpty : errorValue := errorString "empty string".

Module stringService.

(** [type stringService struct{}]; [new] is the literal [stringService{}]. *)
Record t : Set := new {}.

(** [func (stringService) Uppercase(_ context.Context, s string) (string, error)] *)
Definition Uppercase `{unicode.CaseRanges}
    (_ : t) (_ : context.Context) (s : string) : string * error :=
  if String.eqb s "" then ("", Some ErrEmpty)
  else (strings.ToUpper s, None).

(** [func (stringService) Count(_ context.Context, s string) int] *)
Definition Count (_ : t) (_ : context.Context) (s : string) : Z :=
  Z.of_nat (String.length s).

End stringService.

(** [type StringService interface].  An implementation may have effects (the
    middlewares log and record metrics), so the methods of the interface run
    in the monad [M] of the process state. *)

(** One [logger.Log] record: its key/value pairs, values in string form. *)
Definition keyvals := list (string * string).

(** One update of a metric of the Prometheus registry. *)
Inductive sample :=
| CounterAdd (name : string) (labelValues : list string) (delta : Z)
| SummaryObserve (name : string) (labelValues : list string) (value : Z).

(** The state of the process that the service layer can observe or change:
    the clock ([clock n] is what the [n]-th reading of [time.Now] returns),
    the lines written to [os.Stderr] by the logger (and whether a write to it
    succeeds), and the updates the metrics registry has received. *)
Record World := {
  clock : nat -> Z;
  clock_reads : nat;
  stderr_ok : bool;
  stderr : list keyvals;
  registry : list sample
}.

Definition M (A : Type) : Type := World -> A * World.

Definition ret {A} (a : A) : M A := fun w => (a, w).

Definition bind {A B} (m : M A) (k : A -> M B) : M B :=
  fun w => let (a, w') := m w in k a w'.

Declare Scope go_scope.
Delimit Scope go_scope with go.
Notation "x <- m ;; k" := (bind m (fun x => k))
  (at level 61, m at next level, right associativity) : go_scope.
Notation "' p <- m ;; k" := (bind m (fun x => let 'p := x in k))
  (at level 61, p pattern, m at next level, right associativity) : go_scope.
Local Open Scope go_scope.

Record StringService := {
  Uppercase : context.Context -> string -> M (string * error);
  Count : context.Context -> string -> M Z
}.

(** A [stringService] as a value of the interface: its methods are pure. *)
Definition StringService_of_stringService `{unicode.CaseRanges}
    (x : stringService.t) : StringService := {|
  Uppercase ctx s := ret (stringService.Uppercase x ctx s);
  Count ctx s := ret (stringService.Count x ctx s)
|}.

(** ** Requests and responses *)

Record uppercaseRequest := { uppercaseRequest_S : string }.

Record uppercaseResponse := {
  uppercaseResponse_V : string;
  uppercaseResponse_Err : string
}.

Record countRequest := { countRequest_S : string }.

Record countResponse := { countResponse_V : Z }.

(** A value of type [interface{}]: [nil], or a value tagged with its dynamic
    type. *)
Inductive any :=
| any_nil
| any_string (s : string)
| any_int (n : Z)
| any_uppercaseRequest (r : uppercaseRequest)
| any_uppercaseResponse (r : uppercaseResponse)
| any_countRequest (r : countRequest)
| any_countResponse (r : countResponse).

(** The name of the dynamic type, as a failed type assertion prints it. *)
Definition typeName (x : any) : string :=
  match x with
  | any_nil => "nil"
  | any_string _ => "string"
  | any_int _ => "int"
  | any_uppercaseRequest _ => "main.uppercaseRequest"
  | any_uppercaseResponse _ => "main.uppercaseResponse"
  | any_countRequest _ => "main.countRequest"
  | any_countResponse _ => "main.countResponse"
  end.

(** ** Endpoints *)

(** How a call ends: it returns, or it panics (a failed type assertion
    [x.(T)] of the single-value form). *)
Inductive outcome (A : Type) :=
| Returned (a : A)
| Panicked (msg : string).
Arguments Returned {A} a.
Arguments Panicked {A} msg.

(** [endpoint.Endpoint]:
    [func(ctx context.Context, request interface{}) (interface{}, error)] *)
Definition Endpoint := context.Context -> any -> M (outcome (any * error)).

Definition conversionPanic (x : any) (want : string) : string :=
  "interface conversion: interface {} is " ++ typeName x ++ ", not " ++ want.

(** [func makeUppercaseEndpoint(svc StringService) endpoint.Endpoint] *)
Definition makeUppercaseEndpoint (svc : StringService) : Endpoint :=
  fun ctx request =>
    match request with
    | any_uppercaseRequest req =>
        '(v, err) <- Uppercase svc ctx (uppercaseRequest_S req) ;;
        match err with
        | Some e =>
            ret (Returned
                   (any_uppercaseResponse
                      {| uppercaseResponse_V := v;
                         uppercaseResponse_Err := Error e |}, None))
        | None =>
            ret (Returned
                   (any_uppercaseResponse
                      {| uppercaseResponse_V := v;
                         uppercaseResponse_Err := "" |}, None))
        end
    | _ => ret (Panicked (conversionPanic request "main.uppercaseRequest"))
    end.

(** [func makeCountEndpoint(svc StringService) endpoint.Endpoint] *)
Definition makeCountEndpoint (svc : StringService) : Endpoint :=
  fun ctx request =>
    match request with
    | any_countRequest req =>
        v <- Count svc ctx (countRequest_S req) ;;
        ret (Returned (any_countResponse {| countResponse_V := v |}, None))
    | _ => ret (Panicked (conversionPanic request "main.countRequest"))
    end.

(** ** Package [encoding/json]: encoding *)

Module json.

Definition dquote : ascii := "034"%char.
Definition backslash : ascii := "\"%char.

(** [hex[d]], a digit of ["0123456789abcdef"]. *)
Definition hex (d : Z) : ascii :=
  match String.get (Z.to_nat d) "0123456789abcdef" with
  | Some c => c
  | None => "0"%char
  end.

(** [htmlSafeSet[b]]: the ASCII bytes the encoder copies as they are when it
    escapes HTML (the default of [Encoder] and of [Marshal]). *)
Definition htmlSafeSet (b : Z) : bool :=
  (0x20 <=? b) && (b <? 0x80)
  && negb ((b =? 34) || (b =? 92) || (b =? 60) || (b =? 62) || (b =? 38)).

(** The escape of an ASCII byte outside [htmlSafeSet]. *)
Definition escapeByte (b : Z) : string :=
  if (b =? 92) || (b =? 34) then String backslash (String (z2b b) "")
  else if b =? 8 then "\b"
  else if b =? 12 then "\f"
  else if b =? 10 then "\n"
  else if b =? 13 then "\r"
  else if b =? 9 then "\t"
  else "\u00" ++ String (hex (Z.shiftr b 4)) (String (hex (Z.land b 0xF)) "").

(** The loop of the encoder's [appendString].  [skip] counts the bytes of
    the current rune still to be passed over, which are copied when [keep]
    holds (a valid rune) and dropped otherwise (U+2028 and U+2029, which are
    written as escapes). *)
Fixpoint appendString_from (skip : nat) (keep : bool) (s : string) : string :=
  match s with
  | EmptyString => EmptyString
  | String c s' =>
      match skip with
      | S k =>
          (if keep then String c "" else "") ++ appendString_from k keep s'
      | O =>
          let b := b2z c in
          if b <? utf8.RuneSelf then
            (if htmlSafeSet b then String c "" else escapeByte b)
              ++ appendString_from 0 true s'
          else
            let (r, size) := utf8.DecodeRuneInString s in
            if (r =? utf8.RuneError) && (Nat.eqb size 1) then
              "\ufffd" ++ appendString_from 0 true s'
            else if (r =? 0x2028) || (r =? 0x2029) then
              "\u202" ++ String (hex (Z.land r 0xF)) ""
                ++ appendString_from (Nat.pred size) false s'
            else
              String c (appendString_from (Nat.pred size) true s')
      end
  end.

(** A Go string as a JSON string literal. *)
Definition appendString (s : string) : string :=
  String dquote (appendString_from 0 true s) ++ String dquote "".

(** [strconv.AppendInt(n, 10)] *)
Definition appendInt (n : Z) : string := NilZero.string_of_int (Z.to_int n).

(** The value of an encoded struct field. *)
Inductive fieldValue :=
| JString (s : string)
| JInt (n : Z).

Definition isEmptyValue (v : fieldValue) : bool :=
  match v with
  | JString s => String.eqb s ""
  | JInt n => n =? 0
  end.

(** A struct field with its tag: the key and the [omitempty] option. *)
Record field := {
  name : string;
  omitEmpty : bool;
  value : fieldValue
}.

(** The fields the encoder writes: an [omitempty] field with an empty value
    is left out. *)
Definition encodedFields (fs : list field) : list (string * fieldValue) :=
  map (fun f => (name f, value f))
      (filter (fun f => negb (omitEmpty f && isEmptyValue (value f))) fs).

Definition encodeValue (v : fieldValue) : string :=
  match v with
  | JString s => appendString s
  | JInt n => appendInt n
  end.

Fixpoint encodeMembers (first : bool) (kvs : list (string * fieldValue))
    : string :=
  match kvs with
  | [] => EmptyString
  | (k, v) :: kvs' =>
      (if first then "" else ",") ++ appendString k ++ ":" ++ encodeValue v
        ++ encodeMembers false kvs'
  end.

Definition encodeObject (kvs : list (string * fieldValue)) : string :=
  "{" ++ encodeMembers true kvs ++ "}".

(** The fields of the structs of the program, with their [json] tags. *)
Definition structFields (x : any) : option (list field) :=
  match x with
  | any_uppercaseRequest r =>
      Some [ {| name := "s"; omitEmpty := false;
                value := JString (uppercaseRequest_S r) |} ]
  | any_uppercaseResponse r =>
      Some [ {| name := "v"; omitEmpty := false;
                value := JString (uppercaseResponse_V r) |};
             {| name := "err"; omitEmpty := true;
                value := JString (uppercaseResponse_Err r) |} ]
  | any_countRequest r =>
      Some [ {| name := "s"; omitEmpty := false;
                value := JString (countRequest_S r) |} ]
  | any_countResponse r =>
      Some [ {| name := "V"; omitEmpty := false;
                value := JInt (countResponse_V r) |} ]
  | _ => None
  end.

(** The members of the JSON object a struct is encoded as. *)
Definition members (x : any) : list (string * fieldValue) :=
  match structFields x with
  | Some fs => encodedFields fs
  | None => []
  end.

(** [json.Marshal(x)]; it has no error case on the values of [any]. *)
Definition Marshal (x : any) : string :=
  match structFields x with
  | Some fs => encodeObject (encodedFields fs)
  | None =>
      match x with
      | any_string s => appendString s
      | any_int n => appendInt n
      | _ => "null"
      end
  end.

(** What the method [Encode(x)] of an [Encoder] writes: the encoding of [x] followed by a
    newline character. *)
Definition newline : string := String "010"%char "".

Definition Encode (x : any) : string := Marshal x ++ newline.

(** Decoding is the business of the JSON codec of the host:
    [Decode body v] is [json.NewDecoder(body).Decode(&v)], giving the value
    left in [v] and the error returned. *)
Class Decoder := {
  Decode_uppercaseRequest :
    string -> uppercaseRequest -> uppercaseRequest * error;
  Decode_countRequest :
    string -> countRequest -> countRequest * error
}.

End json.

(** ** Package [net/http] and go-kit's [transport/http] *)

Module http.

Definition StatusOK : Z := 200.
Definition StatusInternalServerError : Z := 500.

(** The parts of a [*http.Request] the handlers read. *)
Record Request := {
  Method : string;
  URL : string;
  Body : string;
  Context : context.Context
}.

(** The state of a [http.ResponseWriter]: the header map, the status code
    once the header is written, and the body written so far. *)
Record ResponseWriter := {
  Header : list (string * string);
  Status : option Z;
  Written : string
}.

Definition NewResponseWriter : ResponseWriter :=
  {| Header := []; Status := None; Written := "" |}.

(** A [POST] request with the given body. *)
Definition Post (url body : string) : Request :=
  {| Method := "POST"; URL := url; Body := body;
     Context := context.Background |}.

Definition SetHeader (k v : string) (w : ResponseWriter) : ResponseWriter :=
  {| Header := (k, v) :: Header w; Status := Status w; Written := Written w |}.

(** [w.WriteHeader(code)]: only the first call counts. *)
Definition WriteHeader (code : Z) (w : ResponseWriter) : ResponseWriter :=
  match Status w with
  | Some _ => w
  | None => {| Header := Header w; Status := Some code; Written := Written w |}
  end.

(** [w.Write(p)]: writes the header with [StatusOK] when it is not written
    yet, then the bytes. *)
Definition Write (p : string) (w : ResponseWriter) : ResponseWriter :=
  let w := WriteHeader StatusOK w in
  {| Header := Header w; Status := Status w; Written := Written w ++ p |}.

End http.

Module httptransport.

Definition DecodeRequestFunc :=
  context.Context -> http.Request -> any * error.

Definition EncodeResponseFunc :=
  context.Context -> http.ResponseWriter -> any -> http.ResponseWriter * error.

Record Server := {
  e : Endpoint;
  dec : DecodeRequestFunc;
  enc : EncodeResponseFunc
}.

Definition NewServer (e : Endpoint) (dec : DecodeRequestFunc)
    (enc : EncodeResponseFunc) : Server :=
  {| e := e; dec := dec; enc := enc |}.

(** [DefaultErrorEncoder]: the text of the error with the status
    [StatusInternalServerError] (the errors of the program carry no status
    code, header or JSON form of their own). *)
Definition DefaultErrorEncoder (_ : context.Context) (err : errorValue)
    (w : http.ResponseWriter) : http.ResponseWriter :=
  let w := http.SetHeader "Content-Type" "text/plain; charset=utf-8" w in
  let w := http.WriteHeader http.StatusInternalServerError w in
  http.Write (Error err) w.

(** [func (s Server) ServeHTTP(w http.ResponseWriter, r *http.Request)]:
    decode, call the endpoint, encode; an error at any step goes to the
    error encoder and ends the request. *)
Definition ServeHTTP (s : Server) (w : http.ResponseWriter)
    (r : http.Request) : M (outcome http.ResponseWriter) :=
  let ctx := http.Context r in
  let (request, err) := dec s ctx r in
  match err with
  | Some err => ret (Returned (DefaultErrorEncoder ctx err w))
  | None =>
      res <- e s ctx request ;;
      match res with
      | Panicked msg => ret (Panicked msg)
      | Returned (response, Some err) =>
          ret (Returned (DefaultErrorEncoder ctx err w))
      | Returned (response, None) =>
          let (w', err) := enc s ctx w response in
          match err with
          | Some err => ret (Returned (DefaultErrorEncoder ctx err w'))
          | None => ret (Returned w')
          end
      end
  end.

End httptransport.

(** ** The transport functions of the program *)

(** [func decodeUppercaseRequest(_ context.Context, r *http.Request) (interface{}, error)] *)
Definition decodeUppercaseRequest `{json.Decoder}
    (_ : context.Context) (r : http.Request) : any * error :=
  let request := {| uppercaseRequest_S := "" |} in
  let (request, err) := json.Decode_uppercaseRequest (http.Body r) request in
  match err with
  | Some err => (any_nil, Some err)
  | None => (any_uppercaseRequest request, None)
  end.

(** [func decodCountRequest(_ context.Context, r *http.Request) (interface{}, error)] *)
Definition decodCountRequest `{json.Decoder}
    (_ : context.Context) (r : http.Request) : any * error :=
  let req := {| countRequest_S := "" |} in
  let (req, err) := json.Decode_countRequest (http.Body r) req in
  match err with
  | Some err => (any_nil, Some err)
  | None => (any_countRequest req, None)
  end.

(** [func encodeResponse(_ context.Context, w http.ResponseWriter, response interface{}) error] *)
Definition encodeResponse (_ : context.Context) (w : http.ResponseWriter)
    (response : any) : http.ResponseWriter * error :=
  (http.Write (json.Encode response) w, None).

(** ** The collaborators of the middlewares: clock, logger, metrics *)

Module time.

(** [time.Now()]: the next reading of the clock. *)
Definition Now : M Z := fun w =>
  (clock w (clock_reads w),
   {| clock := clock w; clock_reads := S (clock_reads w);
      stderr_ok := stderr_ok w; stderr := stderr w;
      registry := registry w |}).

(** [time.Since(t)] *)
Definition Since (t : Z) : M Z :=
  now <- Now ;; ret (now - t).

End time.

Module log.

(** [log.Logger]: [Log(keyvals ...interface{}) error] *)
Record Logger := { Log : keyvals -> M error }.

(** [log.NewLogfmtLogger(os.Stderr)]: one line per record; the error of the
    write is the error of [Log]. *)
Definition NewLogfmtLogger : Logger := {|
  Log kv := fun w =>
    if stderr_ok w then
      (None,
       {| clock := clock w; clock_reads := clock_reads w;
          stderr_ok := stderr_ok w; stderr := stderr w ++ [kv];
          registry := registry w |})
    else (Some (errorString "write /dev/stderr: input/output error"), w)
|}.

End log.

Module kitprometheus.

Record Opts := {
  Namespace : string;
  Subsystem : string;
  Name : string;
  Help : string
}.

(** [prometheus.BuildFQName] *)
Definition BuildFQName (o : Opts) : string :=
  Namespace o ++ "_" ++ Subsystem o ++ "_" ++ Name o.

Record Counter := { counterName : string; counterKeys : list string }.
Record Summary := { summaryName : string; summaryKeys : list string }.

Definition NewCounterFrom (o : Opts) (labelNames : list string) : Counter :=
  {| counterName := BuildFQName o; counterKeys := labelNames |}.

Definition NewSummaryFrom (o : Opts) (labelNames : list string) : Summary :=
  {| summaryName := BuildFQName o; summaryKeys := labelNames |}.

Definition record (x : sample) : M unit := fun w =>
  (tt,
   {| clock := clock w; clock_reads := clock_reads w;
      stderr_ok := stderr_ok w; stderr := stderr w;
      registry := registry w ++ [x] |}).

(** [c.With(lvs...).Add(delta)] *)
Definition Add (c : Counter) (lvs : list string) (delta : Z) : M unit :=
  record (CounterAdd (counterName c) lvs delta).

(** [s.With(lvs...).Observe(value)] *)
Definition Observe (s : Summary) (lvs : list string) (value : Z) : M unit :=
  record (SummaryObserve (summaryName s) lvs value).

End kitprometheus.

(** [fmt.Sprint(b)] *)
Definition Sprint_bool (b : bool) : string := if b then "true" else "false".

(** The string form of an error value in a log record. *)
Definition Sprint_error (err : error) : string :=
  match err with
  | Some e => Error e
  | None => "null"
  end.

Definition isSome {A} (o : option A) : bool :=
  match o with Some _ => true | None => false end.

(** ** The middlewares *)

Module loggingMiddleware.

(** The struct literal of [main] is [loggingMiddleware{logger, svc}]. *)
Record t := { logger : log.Logger; next : StringService }.

(** Modelled from the spec: the method [Uppercase] of [loggingMiddleware],
    whose file is not part of the sources.  It delegates to the wrapped
    service, then emits one log record (method, input, output, error,
    elapsed time); the error of the logger is dropped, and the value and the
    error of the wrapped service are returned as they are. *)
Definition Uppercase (mw : t) (ctx : context.Context) (s : string)
    : M (string * error) :=
  begin <- time.Now ;;
  '(output, err) <- Uppercase (next mw) ctx s ;;
  took <- time.Since begin ;;
  _ <- log.Log (logger mw)
         [("method", "uppercase"); ("input", s); ("output", output);
          ("err", Sprint_error err); ("took", json.appendInt took)] ;;
  ret (output, err).

(** Modelled from the spec: the method [Count] of [loggingMiddleware]. *)
Definition Count (mw : t) (ctx : context.Context) (s : string) : M Z :=
  begin <- time.Now ;;
  n <- Count (next mw) ctx s ;;
  took <- time.Since begin ;;
  _ <- log.Log (logger mw)
         [("method", "count"); ("input", s); ("n", json.appendInt n);
          ("took", json.appendInt took)] ;;
  ret n.

End loggingMiddleware.

Definition StringService_of_loggingMiddleware (mw : loggingMiddleware.t)
    : StringService := {|
  Uppercase := loggingMiddleware.Uppercase mw;
  Count := loggingMiddleware.Count mw
|}.

Module instrumentingMiddleware.

(** The struct literal of [main] is
    [instrumentingMiddleware{requestCount, requestLatency, countResult, svc}]. *)
Record t := {
  requestCount : kitprometheus.Counter;
  requestLatency : kitprometheus.Summary;
  countResult : kitprometheus.Summary;
  next : StringService
}.

(** Modelled from the spec: the method [Uppercase] of
    [instrumentingMiddleware], whose file is not part of the sources.  After
    the delegation it increments the request counter and records the
    latency, both labelled by the method and by the presence of an error;
    the value and the error of the wrapped service are returned as they
    are. *)
Definition Uppercase (mw : t) (ctx : context.Context) (s : string)
    : M (string * error) :=
  begin <- time.Now ;;
  '(output, err) <- Uppercase (next mw) ctx s ;;
  let lvs := ["method"; "uppercase"; "error"; Sprint_bool (isSome err)] in
  _ <- kitprometheus.Add (requestCount mw) lvs 1 ;;
  took <- time.Since begin ;;
  _ <- kitprometheus.Observe (requestLatency mw) lvs took ;;
  ret (output, err).

(** Modelled from the spec: the method [Count] of
    [instrumentingMiddleware]; it records the result in a further summary
    without labels. *)
Definition Count (mw : t) (ctx : context.Context) (s : string) : M Z :=
  begin <- time.Now ;;
  n <- Count (next mw) ctx s ;;
  let lvs := ["method"; "count"; "error"; "false"] in
  _ <- kitprometheus.Add (requestCount mw) lvs 1 ;;
  took <- time.Since begin ;;
  _ <- kitprometheus.Observe (requestLatency mw) lvs took ;;
  _ <- kitprometheus.Observe (countResult mw) [] n ;;
  ret n.

End instrumentingMiddleware.

Definition StringService_of_instrumentingMiddleware
    (mw : instrumentingMiddleware.t) : StringService := {|
  Uppercase := instrumentingMiddleware.Uppercase mw;
  Count := instrumentingMiddleware.Count mw
|}.

(** ** [func main()] *)

Module main.

Definition logger : log.Logger := log.NewLogfmtLogger.

Definition fieldKeys : list string := ["method"; "error"].

Definition requestCount : kitprometheus.Counter :=
  kitprometheus.NewCounterFrom
    {| kitprometheus.Namespace := "my_group";
       kitprometheus.Subsystem := "string_service";
       kitprometheus.Name := "request_count";
       kitprometheus.Help := "Number of requests received." |} fieldKeys.

Definition requestLatency : kitprometheus.Summary :=
  kitprometheus.NewSummaryFrom
    {| kitprometheus.Namespace := "my_group";
       kitprometheus.Subsystem := "string_service";
       kitprometheus.Name := "request_latency_microseconds";
       kitprometheus.Help := "Total duration of requests in microseconds." |}
    fieldKeys.

Definition countResult : kitprometheus.Summary :=
  kitprometheus.NewSummaryFrom
    {| kitprometheus.Namespace := "my_group";
       kitprometheus.Subsystem := "string_service";
       kitprometheus.Name := "count_result";
       kitprometheus.Help := "The result of each count method." |} [].

(** The service of [main.go]: the logging middleware around
    [stringService{}], and the instrumenting middleware around both. *)
Definition svc `{unicode.CaseRanges} : StringService :=
  let svc := StringService_of_stringService stringService.new in
  let svc :=
    StringService_of_loggingMiddleware
      {| loggingMiddleware.logger := logger; loggingMiddleware.next := svc |} in
  let svc :=
    StringService_of_instrumentingMiddleware
      {| instrumentingMiddleware.requestCount := requestCount;
         instrumentingMiddleware.requestLatency := requestLatency;
         instrumentingMiddleware.countResult := countResult;
         instrumentingMiddleware.next := svc |} in
  svc.

Definition uppercaseHandler `{unicode.CaseRanges} `{json.Decoder}
    : httptransport.Server :=
  httptransport.NewServer
    (makeUppercaseEndpoint svc) decodeUppercaseRequest encodeResponse.

Definition countHandler `{unicode.CaseRanges} `{json.Decoder}
    : httptransport.Server :=
  httptransport.NewServer
    (makeCountEndpoint svc) decodCountRequest encodeResponse.

End main.

(** The [func main()] of the first revision of the program, which serves
    [stringService{}] without middleware. *)
Module main0.

Definition svc `{unicode.CaseRanges} : StringService :=
  StringService_of_stringService stringService.new.

Definition uppercaseHandler `{unicode.CaseRanges} `{json.Decoder}
    : httptransport.Server :=
  httptransport.NewServer
    (makeUppercaseEndpoint svc) decodeUppercaseRequest encodeResponse.

Definition countHandler `{unicode.CaseRanges} `{json.Decoder}
    : httptransport.Server :=
  httptransport.NewServer
    (makeCountEndpoint svc) decodCountRequest encodeResponse.

End main0.

(** ** Package [encoding/json]: decoding

    A model of the decoder of [encoding/json] for the two request structs.
    [Decode] reads the next JSON value of the body (what follows it is left
    unread), checks its syntax, and stores it in the struct.  The texts of
    the errors are abbreviated. *)

Module jsondec.

(** A scanned JSON value.  The program has no numeric field to fill, so the
    digits of a number are not kept. *)
#[local] Set Warnings "-register-all".
Inductive value :=
| Null
| Bool (b : bool)
| Number
| Str (s : string)
| Array (items : list value)
| Object (members : list (string * value)).
#[local] Set Warnings "register-all".

Definition result (A : Type) : Type := (errorValue + A)%type.

Definition syntaxError (msg : string) : errorValue :=
  DecodeError ("invalid character " ++ msg).

Definition errUnexpectedEOF : errorValue := DecodeError "unexpected EOF".
Definition errEOF : errorValue := DecodeError "EOF".

Definition maxNestingDepth : Z := 10000.

(** [isSpace(c)] *)
Definition isSpace (c : ascii) : bool :=
  let b := b2z c in
  (b =? 32) || (b =? 9) || (b =? 13) || (b =? 10).

Fixpoint skipSpace (s : string) : string :=
  match s with
  | EmptyString => EmptyString
  | String c s' => if isSpace c then skipSpace s' else s
  end.

Definition isDigit (c : ascii) : bool :=
  let b := b2z c in (48 <=? b) && (b <=? 57).

(** The value of a hexadecimal digit. *)
Definition hexValue (c : ascii) : option Z :=
  let b := b2z c in
  if (48 <=? b) && (b <=? 57) then Some (b - 48)
  else if (97 <=? b) && (b <=? 102) then Some (b - 97 + 10)
  else if (65 <=? b) && (b <=? 70) then Some (b - 65 + 10)
  else None.

(** [getu4]: the rune of the four hexadecimal digits of a [\u] escape. *)
Definition getu4 (h1 h2 h3 h4 : ascii) : option rune :=
  match hexValue h1, hexValue h2, hexValue h3, hexValue h4 with
  | Some a, Some b, Some c, Some d => Some (((a * 16 + b) * 16 + c) * 16 + d)
  | _, _, _, _ => None
  end.

(** [utf16.IsSurrogate(r)] *)
Definition IsSurrogate (r : rune) : bool := (0xD800 <=? r) && (r <? 0xE000).

(** [utf16.DecodeRune(r1, r2)]: the rune of a surrogate pair, and
    [U+FFFD] when the pair is not valid. *)
Definition utf16_DecodeRune (r1 r2 : rune) : rune :=
  if (0xD800 <=? r1) && (r1 <? 0xDC00) && (0xDC00 <=? r2) && (r2 <? 0xE000)
  then Z.lor (Z.shiftl (r1 - 0xD800) 10) (r2 - 0xDC00) + 0x10000
  else utf8.RuneError.

(** The one-letter escapes of a string literal. *)
Definition simpleEscape (c : ascii) : option ascii :=
  let b := b2z c in
  if (b =? 34) || (b =? 92) || (b =? 47) then Some c
  else if b =? 98 then Some "008"%char
  else if b =? 102 then Some "012"%char
  else if b =? 110 then Some "010"%char
  else if b =? 114 then Some "013"%char
  else if b =? 116 then Some "009"%char
  else None.

Definition emit (bytes : string) (r : result (string * string))
    : result (string * string) :=
  match r with
  | inl err => inl err
  | inr (content, rest) => inr (bytes ++ content, rest)
  end.

Definition encodeRune (r : rune) : string :=
  string_of_bytes (utf8.AppendRune r).

(** The rest of a string literal, after its opening quote: the contents
    (escapes replaced, invalid UTF-8 replaced by [U+FFFD]) and the input
    after the closing quote.  [skip] counts the bytes of the current rune
    still to be passed over. *)
Fixpoint stringLiteral (skip : nat) (s : string) : result (string * string) :=
  match s with
  | EmptyString => inl errUnexpectedEOF
  | String c s1 =>
      match skip with
      | S k => stringLiteral k s1
      | O =>
          let b := b2z c in
          if b =? 34 then inr (EmptyString, s1)
          else if b =? 92 then
            match s1 with
            | EmptyString => inl errUnexpectedEOF
            | String e s2 =>
                match simpleEscape e with
                | Some x => emit (String x "") (stringLiteral 0 s2)
                | None =>
                    if b2z e =? 117 then
                      match s2 with
                      | String h1 (String h2 (String h3 (String h4 s3))) =>
                          match getu4 h1 h2 h3 h4 with
                          | None => inl (syntaxError "in \u hexadecimal character escape")
                          | Some rr =>
                              if IsSurrogate rr then
                                match s3 with
                                | String e1 (String e2 (String g1 (String g2
                                    (String g3 (String g4 s4))))) =>
                                    match (if (b2z e1 =? 92) && (b2z e2 =? 117)
                                           then getu4 g1 g2 g3 g4 else None) with
                                    | Some rr1 =>
                                        let dec := utf16_DecodeRune rr rr1 in
                                        if dec =? utf8.RuneError then
                                          emit (encodeRune utf8.RuneError)
                                               (stringLiteral 0 s3)
                                        else
                                          emit (encodeRune dec) (stringLiteral 0 s4)
                                    | None =>
                                        emit (encodeRune utf8.RuneError)
                                             (stringLiteral 0 s3)
                                    end
                                | _ =>
                                    emit (encodeRune utf8.RuneError)
                                         (stringLiteral 0 s3)
                                end
                              else emit (encodeRune rr) (stringLiteral 0 s3)
                          end
                      | _ => inl errUnexpectedEOF
                      end
                    else inl (syntaxError "in string escape code")
                end
            end
          else if b <? 0x20 then inl (syntaxError "in string literal")
          else if b <? utf8.RuneSelf then
            emit (String c "") (stringLiteral 0 s1)
          else
            let (rr, size) := utf8.DecodeRuneInString s in
            emit (encodeRune rr) (stringLiteral (Nat.pred size) s1)
      end
  end.

(** The states of the scanner inside a number. *)
Inductive numState :=
| numNeg | num0 | num1 | numDot | numDot0 | numE | numESign | numE0.

(** The scanner over the rest of a number: the input after the number, or
    an error. *)
Fixpoint number (st : numState) (s : string) : result string :=
  let stop :=
    match st with
    | num0 | num1 | numDot0 | numE0 => inr s
    | _ =>
        match s with
        | EmptyString => inl errUnexpectedEOF
        | _ => inl (syntaxError "in numeric literal")
        end
    end in
  match s with
  | EmptyString => stop
  | String c s' =>
      let b := b2z c in
      match st with
      | numNeg =>
          if b =? 48 then number num0 s'
          else if isDigit c then number num1 s' else stop
      | num0 =>
          if b =? 46 then number numDot s'
          else if (b =? 101) || (b =? 69) then number numE s' else stop
      | num1 =>
          if isDigit c then number num1 s'
          else if b =? 46 then number numDot s'
          else if (b =? 101) || (b =? 69) then number numE s' else stop
      | numDot => if isDigit c then number numDot0 s' else stop
      | numDot0 =>
          if isDigit c then number numDot0 s'
          else if (b =? 101) || (b =? 69) then number numE s' else stop
      | numE =>
          if (b =? 43) || (b =? 45) then number numESign s'
          else if isDigit c then number numE0 s' else stop
      | numESign => if isDigit c then number numE0 s' else stop
      | numE0 => if isDigit c then number numE0 s' else stop
      end
  end.

(** The rest of a literal [true], [false] or [null] after its first letter. *)
Fixpoint literal (expected : string) (s : string) : result string :=
  match expected with
  | EmptyString => inr s
  | String x expected' =>
      match s with
      | EmptyString => inl errUnexpectedEOF
      | String c s' =>
          if Ascii.eqb c x then literal expected' s'
          else inl (syntaxError "in literal")
      end
  end.

Definition withValue {A} (v : value) (r : result A) : result (value * A) :=
  match r with
  | inl err => inl err
  | inr rest => inr (v, rest)
  end.

(** The scanner over a value, the elements of an array and the members of
    an object.  [depth] is the number of arrays and objects that are open.
    The recursion is on [fuel], and [None] is the answer when it runs out;
    [parse_total] shows that it does not when the fuel is more than twice
    the length of the input. *)
Fixpoint parseValue (fuel : nat) (depth : Z) (s : string) {struct fuel}
    : option (result (value * string)) :=
  match fuel with
  | O => None
  | S fuel' =>
      match skipSpace s with
      | EmptyString => Some (inl errUnexpectedEOF)
      | String c s' =>
          let b := b2z c in
          if b =? 123 then
            if maxNestingDepth <=? depth then
              Some (inl (DecodeError "exceeded max depth"))
            else
              match skipSpace s' with
              | EmptyString => Some (inl errUnexpectedEOF)
              | String c1 s1 =>
                  if b2z c1 =? 125 then Some (inr (Object [], s1))
                  else
                    match parseMembers fuel' (depth + 1) s' [] with
                    | None => None
                    | Some (inl err) => Some (inl err)
                    | Some (inr (ms, rest)) => Some (inr (Object ms, rest))
                    end
              end
          else if b =? 91 then
            if maxNestingDepth <=? depth then
              Some (inl (DecodeError "exceeded max depth"))
            else
              match skipSpace s' with
              | EmptyString => Some (inl errUnexpectedEOF)
              | String c1 s1 =>
                  if b2z c1 =? 93 then Some (inr (Array [], s1))
                  else
                    match parseElements fuel' (depth + 1) s' [] with
                    | None => None
                    | Some (inl err) => Some (inl err)
                    | Some (inr (vs, rest)) => Some (inr (Array vs, rest))
                    end
              end
          else if b =? 34 then
            match stringLiteral 0 s' with
            | inl err => Some (inl err)
            | inr (str, rest) => Some (inr (Str str, rest))
            end
          else if b =? 45 then Some (withValue Number (number numNeg s'))
          else if b =? 48 then Some (withValue Number (number num0 s'))
          else if isDigit c then Some (withValue Number (number num1 s'))
          else if b =? 116 then Some (withValue (Bool true) (literal "rue" s'))
          else if b =? 102 then Some (withValue (Bool false) (literal "alse" s'))
          else if b =? 110 then Some (withValue Null (literal "ull" s'))
          else Some (inl (syntaxError "looking for beginning of value"))
      end
  end

with parseElements (fuel : nat) (depth : Z) (s : string) (acc : list value)
    {struct fuel} : option (result (list value * string)) :=
  match fuel with
  | O => None
  | S fuel' =>
      match parseValue fuel' depth s with
      | None => None
      | Some (inl err) => Some (inl err)
      | Some (inr (v, rest)) =>
          match skipSpace rest with
          | EmptyString => Some (inl errUnexpectedEOF)
          | String c rest' =>
              if b2z c =? 44 then parseElements fuel' depth rest' (v :: acc)
              else if b2z c =? 93 then Some (inr (rev (v :: acc), rest'))
              else Some (inl (syntaxError "after array element"))
          end
      end
  end

with parseMembers (fuel : nat) (depth : Z) (s : string)
    (acc : list (string * value)) {struct fuel}
    : option (result (list (string * value) * string)) :=
  match fuel with
  | O => None
  | S fuel' =>
      match skipSpace s with
      | EmptyString => Some (inl errUnexpectedEOF)
      | String c s1 =>
          if b2z c =? 34 then
            match stringLiteral 0 s1 with
            | inl err => Some (inl err)
            | inr (key, rest) =>
                match skipSpace rest with
                | EmptyString => Some (inl errUnexpectedEOF)
                | String c2 rest2 =>
                    if b2z c2 =? 58 then
                      match parseValue fuel' depth rest2 with
                      | None => None
                      | Some (inl err) => Some (inl err)
                      | Some (inr (v, rest3)) =>
                          match skipSpace rest3 with
                          | EmptyString => Some (inl errUnexpectedEOF)
                          | String c3 rest4 =>
                              if b2z c3 =? 44 then
                                parseMembers fuel' depth rest4 ((key, v) :: acc)
                              else if b2z c3 =? 125 then
                                Some (inr (rev ((key, v) :: acc), rest4))
                              else
                                Some (inl (syntaxError
                                             "after object key:value pair"))
                          end
                      end
                    else Some (inl (syntaxError "after object key"))
                end
            end
          else
            Some (inl (syntaxError "looking for beginning of object key string"))
      end
  end.

(** The next value of the body; [io.EOF] when the body holds no value. *)
Definition readValue (body : string) : result value :=
  match skipSpace body with
  | EmptyString => inl errEOF
  | s =>
      match parseValue (2 * String.length s + 1) 0 s with
      | None => inl errUnexpectedEOF
      | Some (inl err) => inl err
      | Some (inr (v, _)) => inr v
      end
  end.

Definition kindName (v : value) : string :=
  match v with
  | Null => "null"
  | Bool _ => "bool"
  | Number => "number"
  | Str _ => "string"
  | Array _ => "array"
  | Object _ => "object"
  end.

(** The keys that select the field tagged ["s"]: the name itself, and the
    names equal to it under simple case folding, which are ["S"] and the
    long s (U+017F). *)
Definition selects_s (key : string) : bool :=
  String.eqb key "s" || String.eqb key "S"
  || String.eqb key (string_of_bytes [0xC5; 0xBF]).

Definition firstError (err : error) (e : errorValue) : error :=
  match err with
  | Some _ => err
  | None => Some e
  end.

(** The members of an object stored into a struct whose one field is a
    string tagged ["s"]: a string value is stored, [null] changes nothing,
    a value of another kind is an error (the first one is kept, and the
    decoding goes on); the other keys are ignored. *)
Fixpoint storeMembers (typ : string) (ms : list (string * value))
    (S0 : string) (err : error) : string * error :=
  match ms with
  | [] => (S0, err)
  | (key, v) :: ms' =>
      if selects_s key then
        match v with
        | Str x => storeMembers typ ms' x err
        | Null => storeMembers typ ms' S0 err
        | _ =>
            storeMembers typ ms' S0
              (firstError err
                 (DecodeError
                    ("json: cannot unmarshal " ++ kindName v
                       ++ " into Go struct field " ++ typ
                       ++ ".s of type string")))
        end
      else storeMembers typ ms' S0 err
  end.

(** A scanned value stored into such a struct. *)
Definition store (typ : string) (v : value) (S0 : string) : string * error :=
  match v with
  | Null => (S0, None)
  | Object ms => storeMembers typ ms S0 None
  | _ =>
      (S0,
       Some (DecodeError
               ("json: cannot unmarshal " ++ kindName v
                  ++ " into Go value of type main." ++ typ)))
  end.

Definition Decode_struct (typ : string) (body : string) (S0 : string)
    : string * error :=
  match readValue body with
  | inl err => (S0, Some err)
  | inr v => store typ v S0
  end.

(** The decoder of [encoding/json] as an instance of the interface. *)
Definition decoder : json.Decoder := {|
  json.Decode_uppercaseRequest body v :=
    let (s, err) :=
      Decode_struct "uppercaseRequest" body (uppercaseRequest_S v) in
    ({| uppercaseRequest_S := s |}, err);
  json.Decode_countRequest body v :=
    let (s, err) := Decode_struct "countRequest" body (countRequest_S v) in
    ({| countRequest_S := s |}, err)
|}.

End jsondec.

(** ** Instances of the interfaces of the host *)

(** A case table that knows the letters of the Latin-1 supplement: the
    lower-case letters U+00E0 to U+00FE (U+00F7, the division sign, apart)
    are 32 above their upper-case forms; [y] with diaeresis (U+00FF) has
    its upper-case form at U+0178, the micro sign (U+00B5) at U+039C. *)
Definition latin1_To_UpperCase (r : rune) : rune :=
  if (0xE0 <=? r) && (r <=? 0xFE) && negb (r =? 0xF7) then r - 32
  else if r =? 0xFF then 0x178
  else if r =? 0xB5 then 0x39C
  else r.

Definition latin1 : unicode.CaseRanges :=
  {| unicode.To_UpperCase := latin1_To_UpperCase |}.

(** ** The case table of package [unicode] *)

(** The table behind [unicode.To] and the search over it, as
    [unicode/letter.go] and [unicode/tables.go] have them.  A Go release
    carries the table of its Unicode version; the one below holds the simple
    case mappings of the Unicode Character Database 14.0.0, laid out as the
    generator of [tables.go] lays them out: one entry per run of adjacent
    code points with the same deltas, and one entry per run alternating
    between upper and lower case. *)
Module unicode_letter.

Definition MaxRune : rune := 0x10FFFF.
Definition ReplacementChar : rune := 0xFFFD.

(** Indices into the [Delta] arrays inside [CaseRange]s. *)
Definition UpperCase : Z := 0.
Definition LowerCase : Z := 1.
Definition TitleCase : Z := 2.
Definition MaxCase : Z := 3.

(** [UpperLower]: a delta that cannot be a valid one, marking a run that
    alternates upper and lower case. *)
Definition UpperLower : rune := MaxRune + 1.

(** [type d [MaxCase]rune] *)
Record d := D { toUpper : rune; toLower : rune; toTitle : rune }.

(** [Delta[_case]], for an index within bounds. *)
Definition index (delta : d) (_case : Z) : rune :=
  if _case =? UpperCase then toUpper delta
  else if _case =? LowerCase then toLower delta
  else toTitle delta.

(** [type CaseRange struct { Lo uint32; Hi uint32; Delta d }] *)
Record CaseRange := CR { Lo : Z; Hi : Z; Delta : d }.

(** [var _CaseRanges = []CaseRange{...}] *)
Definition _CaseRanges : list CaseRange :=
  [
    CR 0x0041 0x005A (D 0 32 0);
    CR 0x0061 0x007A (D (-32) 0 (-32));
    CR 0x00B5 0x00B5 (D 743 0 743);
    CR 0x00C0 0x00D6 (D 0 32 0);
    CR 0x00D8 0x00DE (D 0 32 0);
    CR 0x00E0 0x00F6 (D (-32) 0 (-32));
    CR 0x00F8 0x00FE (D (-32) 0 (-32));
    CR 0x00FF 0x00FF (D 121 0 121);
    CR 0x0100 0x012F (D UpperLower UpperLower UpperLower);
    CR 0x0130 0x0130 (D 0 (-199) 0);
    CR 0x0131 0x0131 (D (-232) 0 (-232));
    CR 0x0132 0x0137 (D UpperLower UpperLower UpperLower);
    CR 0x0139 0x0148 (D UpperLower UpperLower UpperLower);
    CR 0x014A 0x0177 (D UpperLower UpperLower UpperLower);
    CR 0x0178 0x0178 (D 0 (-121) 0);
    CR 0x0179 0x017E (D UpperLower UpperLower UpperLower);
    CR 0x017F 0x017F (D (-300) 0 (-300));
    CR 0x0180 0x0180 (D 195 0 195);
    CR 0x0181 0x0181 (D 0 210 0);
    CR 0x0182 0x0185 (D UpperLower UpperLower UpperLower);
    CR 0x0186 0x0186 (D 0 206 0);
    CR 0x0187 0x0188 (D UpperLower UpperLower UpperLower);
    CR 0x0189 0x018A (D 0 205 0);
    CR 0x018B 0x018C (D UpperLower UpperLower UpperLower);
    CR 0x018E 0x018E (D 0 79 0);
    CR 0x018F 0x018F (D 0 202 0);
    CR 0x0190 0x0190 (D 0 203 0);
    CR 0x0191 0x0192 (D UpperLower UpperLower UpperLower);
    CR 0x0193 0x0193 (D 0 205 0);
    CR 0x0194 0x0194 (D 0 207 0);
    CR 0x0195 0x0195 (D 97 0 97);
    CR 0x0196 0x0196 (D 0 211 0);
    CR 0x0197 0x0197 (D 0 209 0);
    CR 0x0198 0x0199 (D UpperLower UpperLower UpperLower);
    CR 0x019A 0x019A (D 163 0 163);
    CR 0x019C 0x019C (D 0 211 0);
    CR 0x019D 0x019D (D 0 213 0);
    CR 0x019E 0x019E (D 130 0 130);
    CR 0x019F 0x019F (D 0 214 0);
    CR 0x01A0 0x01A5 (D UpperLower UpperLower UpperLower);
    CR 0x01A6 0x01A6 (D 0 218 0);
    CR 0x01A7 0x01A8 (D UpperLower UpperLower UpperLower);
    CR 0x01A9 0x01A9 (D 0 218 0);
    CR 0x01AC 0x01AD (D UpperLower UpperLower UpperLower);
    CR 0x01AE 0x01AE (D 0 218 0);
    CR 0x01AF 0x01B0 (D UpperLower UpperLower UpperLower);
    CR 0x01B1 0x01B2 (D 0 217 0);
    CR 0x01B3 0x01B6 (D UpperLower UpperLower UpperLower);
    CR 0x01B7 0x01B7 (D 0 219 0);
    CR 0x01B8 0x01B9 (D UpperLower UpperLower UpperLower);
    CR 0x01BC 0x01BD (D UpperLower UpperLower UpperLower);
    CR 0x01BF 0x01BF (D 56 0 56);
    CR 0x01C4 0x01C4 (D 0 2 1);
    CR 0x01C5 0x01C5 (D (-1) 1 0);
    CR 0x01C6 0x01C6 (D (-2) 0 (-1));
    CR 0x01C7 0x01C7 (D 0 2 1);
    CR 0x01C8 0x01C8 (D (-1) 1 0);
    CR 0x01C9 0x01C9 (D (-2) 0 (-1));
    CR 0x01CA 0x01CA (D 0 2 1);
    CR 0x01CB 0x01CB (D (-1) 1 0);
    CR 0x01CC 0x01CC (D (-2) 0 (-1));
    CR 0x01CD 0x01DC (D UpperLower UpperLower UpperLower);
    CR 0x01DD 0x01DD (D (-79) 0 (-79));
    CR 0x01DE 0x01EF (D UpperLower UpperLower UpperLower);
    CR 0x01F1 0x01F1 (D 0 2 1);
    CR 0x01F2 0x01F2 (D (-1) 1 0);
    CR 0x01F3 0x01F3 (D (-2) 0 (-1));
    CR 0x01F4 0x01F5 (D UpperLower UpperLower UpperLower);
    CR 0x01F6 0x01F6 (D 0 (-97) 0);
    CR 0x01F7 0x01F7 (D 0 (-56) 0);
    CR 0x01F8 0x021F (D UpperLower UpperLower UpperLower);
    CR 0x0220 0x0220 (D 0 (-130) 0);
    CR 0x0222 0x0233 (D UpperLower UpperLower UpperLower);
    CR 0x023A 0x023A (D 0 10795 0);
    CR 0x023B 0x023C (D UpperLower UpperLower UpperLower);
    CR 0x023D 0x023D (D 0 (-163) 0);
    CR 0x023E 0x023E (D 0 10792 0);
    CR 0x023F 0x0240 (D 10815 0 10815);
    CR 0x0241 0x0242 (D UpperLower UpperLower UpperLower);
    CR 0x0243 0x0243 (D 0 (-195) 0);
    CR 0x0244 0x0244 (D 0 69 0);
    CR 0x0245 0x0245 (D 0 71 0);
    CR 0x0246 0x024F (D UpperLower UpperLower UpperLower);
    CR 0x0250 0x0250 (D 10783 0 10783);
    CR 0x0251 0x0251 (D 10780 0 10780);
    CR 0x0252 0x0252 (D 10782 0 10782);
    CR 0x0253 0x0253 (D (-210) 0 (-210));
    CR 0x0254 0x0254 (D (-206) 0 (-206));
    CR 0x0256 0x0257 (D (-205) 0 (-205));
    CR 0x0259 0x0259 (D (-202) 0 (-202));
    CR 0x025B 0x025B (D (-203) 0 (-203));
    CR 0x025C 0x025C (D 42319 0 42319);
    CR 0x0260 0x0260 (D (-205) 0 (-205));
    CR 0x0261 0x0261 (D 42315 0 42315);
    CR 0x0263 0x0263 (D (-207) 0 (-207));
    CR 0x0265 0x0265 (D 42280 0 42280);
    CR 0x0266 0x0266 (D 42308 0 42308);
    CR 0x0268 0x0268 (D (-209) 0 (-209));
    CR 0x0269 0x0269 (D (-211) 0 (-211));
    CR 0x026A 0x026A (D 42308 0 42308);
    CR 0x026B 0x026B (D 10743 0 10743);
    CR 0x026C 0x026C (D 42305 0 42305);
    CR 0x026F 0x026F (D (-211) 0 (-211));
    CR 0x0271 0x0271 (D 10749 0 10749);
    CR 0x0272 0x0272 (D (-213) 0 (-213));
    CR 0x0275 0x0275 (D (-214) 0 (-214));
    CR 0x027D 0x027D (D 10727 0 10727);
    CR 0x0280 0x0280 (D (-218) 0 (-218));
    CR 0x0282 0x0282 (D 42307 0 42307);
    CR 0x0283 0x0283 (D (-218) 0 (-218));
    CR 0x0287 0x0287 (D 42282 0 42282);
    CR 0x0288 0x0288 (D (-218) 0 (-218));
    CR 0x0289 0x0289 (D (-69) 0 (-69));
    CR 0x028A 0x028B (D (-217) 0 (-217));
    CR 0x028C 0x028C (D (-71) 0 (-71));
    CR 0x0292 0x0292 (D (-219) 0 (-219));
    CR 0x029D 0x029D (D 42261 0 42261);
    CR 0x029E 0x029E (D 42258 0 42258);
    CR 0x0345 0x0345 (D 84 0 84);
    CR 0x0370 0x0373 (D UpperLower UpperLower UpperLower);
    CR 0x0376 0x0377 (D UpperLower UpperLower UpperLower);
    CR 0x037B 0x037D (D 130 0 130);
    CR 0x037F 0x037F (D 0 116 0);
    CR 0x0386 0x0386 (D 0 38 0);
    CR 0x0388 0x038A (D 0 37 0);
    CR 0x038C 0x038C (D 0 64 0);
    CR 0x038E 0x038F (D 0 63 0);
    CR 0x0391 0x03A1 (D 0 32 0);
    CR 0x03A3 0x03AB (D 0 32 0);
    CR 0x03AC 0x03AC (D (-38) 0 (-38));
    CR 0x03AD 0x03AF (D (-37) 0 (-37));
    CR 0x03B1 0x03C1 (D (-32) 0 (-32));
    CR 0x03C2 0x03C2 (D (-31) 0 (-31));
    CR 0x03C3 0x03CB (D (-32) 0 (-32));
    CR 0x03CC 0x03CC (D (-64) 0 (-64));
    CR 0x03CD 0x03CE (D (-63) 0 (-63));
    CR 0x03CF 0x03CF (D 0 8 0);
    CR 0x03D0 0x03D0 (D (-62) 0 (-62));
    CR 0x03D1 0x03D1 (D (-57) 0 (-57));
    CR 0x03D5 0x03D5 (D (-47) 0 (-47));
    CR 0x03D6 0x03D6 (D (-54) 0 (-54));
    CR 0x03D7 0x03D7 (D (-8) 0 (-8));
    CR 0x03D8 0x03EF (D UpperLower UpperLower UpperLower);
    CR 0x03F0 0x03F0 (D (-86) 0 (-86));
    CR 0x03F1 0x03F1 (D (-80) 0 (-80));
    CR 0x03F2 0x03F2 (D 7 0 7);
    CR 0x03F3 0x03F3 (D (-116) 0 (-116));
    CR 0x03F4 0x03F4 (D 0 (-60) 0);
    CR 0x03F5 0x03F5 (D (-96) 0 (-96));
    CR 0x03F7 0x03F8 (D UpperLower UpperLower UpperLower);
    CR 0x03F9 0x03F9 (D 0 (-7) 0);
    CR 0x03FA 0x03FB (D UpperLower UpperLower UpperLower);
    CR 0x03FD 0x03FF (D 0 (-130) 0);
    CR 0x0400 0x040F (D 0 80 0);
    CR 0x0410 0x042F (D 0 32 0);
    CR 0x0430 0x044F (D (-32) 0 (-32));
    CR 0x0450 0x045F (D (-80) 0 (-80));
    CR 0x0460 0x0481 (D UpperLower UpperLower UpperLower);
    CR 0x048A 0x04BF (D UpperLower UpperLower UpperLower);
    CR 0x04C0 0x04C0 (D 0 15 0);
    CR 0x04C1 0x04CE (D UpperLower UpperLower UpperLower);
    CR 0x04CF 0x04CF (D (-15) 0 (-15));
    CR 0x04D0 0x052F (D UpperLower UpperLower UpperLower);
    CR 0x0531 0x0556 (D 0 48 0);
    CR 0x0561 0x0586 (D (-48) 0 (-48));
    CR 0x10A0 0x10C5 (D 0 7264 0);
    CR 0x10C7 0x10C7 (D 0 7264 0);
    CR 0x10CD 0x10CD (D 0 7264 0);
    CR 0x10D0 0x10FA (D 3008 0 0);
    CR 0x10FD 0x10FF (D 3008 0 0);
    CR 0x13A0 0x13EF (D 0 38864 0);
    CR 0x13F0 0x13F5 (D 0 8 0);
    CR 0x13F8 0x13FD (D (-8) 0 (-8));
    CR 0x1C80 0x1C80 (D (-6254) 0 (-6254));
    CR 0x1C81 0x1C81 (D (-6253) 0 (-6253));
    CR 0x1C82 0x1C82 (D (-6244) 0 (-6244));
    CR 0x1C83 0x1C84 (D (-6242) 0 (-6242));
    CR 0x1C85 0x1C85 (D (-6243) 0 (-6243));
    CR 0x1C86 0x1C86 (D (-6236) 0 (-6236));
    CR 0x1C87 0x1C87 (D (-6181) 0 (-6181));
    CR 0x1C88 0x1C88 (D 35266 0 35266);
    CR 0x1C90 0x1CBA (D 0 (-3008) 0);
    CR 0x1CBD 0x1CBF (D 0 (-3008) 0);
    CR 0x1D79 0x1D79 (D 35332 0 35332);
    CR 0x1D7D 0x1D7D (D 3814 0 3814);
    CR 0x1D8E 0x1D8E (D 35384 0 35384);
    CR 0x1E00 0x1E95 (D UpperLower UpperLower UpperLower);
    CR 0x1E9B 0x1E9B (D (-59) 0 (-59));
    CR 0x1E9E 0x1E9E (D 0 (-7615) 0);
    CR 0x1EA0 0x1EFF (D UpperLower UpperLower UpperLower);
    CR 0x1F00 0x1F07 (D 8 0 8);
    CR 0x1F08 0x1F0F (D 0 (-8) 0);
    CR 0x1F10 0x1F15 (D 8 0 8);
    CR 0x1F18 0x1F1D (D 0 (-8) 0);
    CR 0x1F20 0x1F27 (D 8 0 8);
    CR 0x1F28 0x1F2F (D 0 (-8) 0);
    CR 0x1F30 0x1F37 (D 8 0 8);
    CR 0x1F38 0x1F3F (D 0 (-8) 0);
    CR 0x1F40 0x1F45 (D 8 0 8);
    CR 0x1F48 0x1F4D (D 0 (-8) 0);
    CR 0x1F51 0x1F51 (D 8 0 8);
    CR 0x1F53 0x1F53 (D 8 0 8);
    CR 0x1F55 0x1F55 (D 8 0 8);
    CR 0x1F57 0x1F57 (D 8 0 8);
    CR 0x1F59 0x1F59 (D 0 (-8) 0);
    CR 0x1F5B 0x1F5B (D 0 (-8) 0);
    CR 0x1F5D 0x1F5D (D 0 (-8) 0);
    CR 0x1F5F 0x1F5F (D 0 (-8) 0);
    CR 0x1F60 0x1F67 (D 8 0 8);
    CR 0x1F68 0x1F6F (D 0 (-8) 0);
    CR 0x1F70 0x1F71 (D 74 0 74);
    CR 0x1F72 0x1F75 (D 86 0 86);
    CR 0x1F76 0x1F77 (D 100 0 100);
    CR 0x1F78 0x1F79 (D 128 0 128);
    CR 0x1F7A 0x1F7B (D 112 0 112);
    CR 0x1F7C 0x1F7D (D 126 0 126);
    CR 0x1F80 0x1F87 (D 8 0 8);
    CR 0x1F88 0x1F8F (D 0 (-8) 0);
    CR 0x1F90 0x1F97 (D 8 0 8);
    CR 0x1F98 0x1F9F (D 0 (-8) 0);
    CR 0x1FA0 0x1FA7 (D 8 0 8);
    CR 0x1FA8 0x1FAF (D 0 (-8) 0);
    CR 0x1FB0 0x1FB1 (D 8 0 8);
    CR 0x1FB3 0x1FB3 (D 9 0 9);
    CR 0x1FB8 0x1FB9 (D 0 (-8) 0);
    CR 0x1FBA 0x1FBB (D 0 (-74) 0);
    CR 0x1FBC 0x1FBC (D 0 (-9) 0);
    CR 0x1FBE 0x1FBE (D (-7205) 0 (-7205));
    CR 0x1FC3 0x1FC3 (D 9 0 9);
    CR 0x1FC8 0x1FCB (D 0 (-86) 0);
    CR 0x1FCC 0x1FCC (D 0 (-9) 0);
    CR 0x1FD0 0x1FD1 (D 8 0 8);
    CR 0x1FD8 0x1FD9 (D 0 (-8) 0);
    CR 0x1FDA 0x1FDB (D 0 (-100) 0);
    CR 0x1FE0 0x1FE1 (D 8 0 8);
    CR 0x1FE5 0x1FE5 (D 7 0 7);
    CR 0x1FE8 0x1FE9 (D 0 (-8) 0);
    CR 0x1FEA 0x1FEB (D 0 (-112) 0);
    CR 0x1FEC 0x1FEC (D 0 (-7) 0);
    CR 0x1FF3 0x1FF3 (D 9 0 9);
    CR 0x1FF8 0x1FF9 (D 0 (-128) 0);
    CR 0x1FFA 0x1FFB (D 0 (-126) 0);
    CR 0x1FFC 0x1FFC (D 0 (-9) 0);
    CR 0x2126 0x2126 (D 0 (-7517) 0);
    CR 0x212A 0x212A (D 0 (-8383) 0);
    CR 0x212B 0x212B (D 0 (-8262) 0);
    CR 0x2132 0x2132 (D 0 28 0);
    CR 0x214E 0x214E (D (-28) 0 (-28));
    CR 0x2160 0x216F (D 0 16 0);
    CR 0x2170 0x217F (D (-16) 0 (-16));
    CR 0x2183 0x2184 (D UpperLower UpperLower UpperLower);
    CR 0x24B6 0x24CF (D 0 26 0);
    CR 0x24D0 0x24E9 (D (-26) 0 (-26));
    CR 0x2C00 0x2C2F (D 0 48 0);
    CR 0x2C30 0x2C5F (D (-48) 0 (-48));
    CR 0x2C60 0x2C61 (D UpperLower UpperLower UpperLower);
    CR 0x2C62 0x2C62 (D 0 (-10743) 0);
    CR 0x2C63 0x2C63 (D 0 (-3814) 0);
    CR 0x2C64 0x2C64 (D 0 (-10727) 0);
    CR 0x2C65 0x2C65 (D (-10795) 0 (-10795));
    CR 0x2C66 0x2C66 (D (-10792) 0 (-10792));
    CR 0x2C67 0x2C6C (D UpperLower UpperLower UpperLower);
    CR 0x2C6D 0x2C6D (D 0 (-10780) 0);
    CR 0x2C6E 0x2C6E (D 0 (-10749) 0);
    CR 0x2C6F 0x2C6F (D 0 (-10783) 0);
    CR 0x2C70 0x2C70 (D 0 (-10782) 0);
    CR 0x2C72 0x2C73 (D UpperLower UpperLower UpperLower);
    CR 0x2C75 0x2C76 (D UpperLower UpperLower UpperLower);
    CR 0x2C7E 0x2C7F (D 0 (-10815) 0);
    CR 0x2C80 0x2CE3 (D UpperLower UpperLower UpperLower);
    CR 0x2CEB 0x2CEE (D UpperLower UpperLower UpperLower);
    CR 0x2CF2 0x2CF3 (D UpperLower UpperLower UpperLower);
    CR 0x2D00 0x2D25 (D (-7264) 0 (-7264));
    CR 0x2D27 0x2D27 (D (-7264) 0 (-7264));
    CR 0x2D2D 0x2D2D (D (-7264) 0 (-7264));
    CR 0xA640 0xA66D (D UpperLower UpperLower UpperLower);
    CR 0xA680 0xA69B (D UpperLower UpperLower UpperLower);
    CR 0xA722 0xA72F (D UpperLower UpperLower UpperLower);
    CR 0xA732 0xA76F (D UpperLower UpperLower UpperLower);
    CR 0xA779 0xA77C (D UpperLower UpperLower UpperLower);
    CR 0xA77D 0xA77D (D 0 (-35332) 0);
    CR 0xA77E 0xA787 (D UpperLower UpperLower UpperLower);
    CR 0xA78B 0xA78C (D UpperLower UpperLower UpperLower);
    CR 0xA78D 0xA78D (D 0 (-42280) 0);
    CR 0xA790 0xA793 (D UpperLower UpperLower UpperLower);
    CR 0xA794 0xA794 (D 48 0 48);
    CR 0xA796 0xA7A9 (D UpperLower UpperLower UpperLower);
    CR 0xA7AA 0xA7AA (D 0 (-42308) 0);
    CR 0xA7AB 0xA7AB (D 0 (-42319) 0);
    CR 0xA7AC 0xA7AC (D 0 (-42315) 0);
    CR 0xA7AD 0xA7AD (D 0 (-42305) 0);
    CR 0xA7AE 0xA7AE (D 0 (-42308) 0);
    CR 0xA7B0 0xA7B0 (D 0 (-42258) 0);
    CR 0xA7B1 0xA7B1 (D 0 (-42282) 0);
    CR 0xA7B2 0xA7B2 (D 0 (-42261) 0);
    CR 0xA7B3 0xA7B3 (D 0 928 0);
    CR 0xA7B4 0xA7C3 (D UpperLower UpperLower UpperLower);
    CR 0xA7C4 0xA7C4 (D 0 (-48) 0);
    CR 0xA7C5 0xA7C5 (D 0 (-42307) 0);
    CR 0xA7C6 0xA7C6 (D 0 (-35384) 0);
    CR 0xA7C7 0xA7CA (D UpperLower UpperLower UpperLower);
    CR 0xA7D0 0xA7D1 (D UpperLower UpperLower UpperLower);
    CR 0xA7D6 0xA7D9 (D UpperLower UpperLower UpperLower);
    CR 0xA7F5 0xA7F6 (D UpperLower UpperLower UpperLower);
    CR 0xAB53 0xAB53 (D (-928) 0 (-928));
    CR 0xAB70 0xABBF (D (-38864) 0 (-38864));
    CR 0xFF21 0xFF3A (D 0 32 0);
    CR 0xFF41 0xFF5A (D (-32) 0 (-32));
    CR 0x10400 0x10427 (D 0 40 0);
    CR 0x10428 0x1044F (D (-40) 0 (-40));
    CR 0x104B0 0x104D3 (D 0 40 0);
    CR 0x104D8 0x104FB (D (-40) 0 (-40));
    CR 0x10570 0x1057A (D 0 39 0);
    CR 0x1057C 0x1058A (D 0 39 0);
    CR 0x1058C 0x10592 (D 0 39 0);
    CR 0x10594 0x10595 (D 0 39 0);
    CR 0x10597 0x105A1 (D (-39) 0 (-39));
    CR 0x105A3 0x105B1 (D (-39) 0 (-39));
    CR 0x105B3 0x105B9 (D (-39) 0 (-39));
    CR 0x105BB 0x105BC (D (-39) 0 (-39));
    CR 0x10C80 0x10CB2 (D 0 64 0);
    CR 0x10CC0 0x10CF2 (D (-64) 0 (-64));
    CR 0x118A0 0x118BF (D 0 32 0);
    CR 0x118C0 0x118DF (D (-32) 0 (-32));
    CR 0x16E40 0x16E5F (D 0 32 0);
    CR 0x16E60 0x16E7F (D (-32) 0 (-32));
    CR 0x1E900 0x1E921 (D 0 34 0);
    CR 0x1E922 0x1E943 (D (-34) 0 (-34))
  ].

(** The loop of [to]: a binary search over the ranges between [lo] and
    [hi].  [None] stands for a loop that has not ended within [fuel] rounds
    or an index outside the table; neither happens (lemma [to_returns]).
    The sum [r + delta] is taken only for [r] inside a range of the table,
    so it stays within [int32]. *)
Fixpoint to_loop (fuel : nat) (_case : Z) (r : rune)
    (caseRange : list CaseRange) (lo hi : nat) : option (rune * bool) :=
  match fuel with
  | O => None
  | S fuel =>
    if (lo <? hi)%nat then
      let m := Nat.div2 (lo + hi) in
      match nth_error caseRange m with
      | None => None
      | Some cr =>
        if (Lo cr <=? r) && (r <=? Hi cr) then
          let delta := index (Delta cr) _case in
          if MaxRune <? delta then
            (* an Upper-Lower sequence: clear or set the low bit of the
               offset in the sequence *)
            Some (Lo cr + Z.lor (Z.ldiff (r - Lo cr) 1) (Z.land _case 1), true)
          else Some (r + delta, true)
        else if r <? Lo cr then to_loop fuel _case r caseRange lo m
        else to_loop fuel _case r caseRange (S m) hi
      end
    else Some (r, false)
  end.

(** [to(_case, r, caseRange)] *)
Definition to (_case : Z) (r : rune) (caseRange : list CaseRange)
    : option (rune * bool) :=
  if (_case <? 0) || (MaxCase <=? _case) then Some (ReplacementChar, false)
  else to_loop (S (List.length caseRange)) _case r caseRange 0
               (List.length caseRange).

(** [unicode.To(_case, r)]: [r, _ = to(_case, r, CaseRanges)]. *)
Definition To (_case : Z) (r : rune) : rune :=
  match to _case r _CaseRanges with
  | Some (mappedRune, _) => mappedRune
  | None => r
  end.

(** The table as the case table of the host. *)
Definition CaseRanges : unicode.CaseRanges :=
  {| unicode.To_UpperCase := To UpperCase |}.

End unicode_letter.

(** The code points from [lo] on, [n] of them. *)
Fixpoint runes_from (lo : rune) (n : nat) : list rune :=
  match n with
  | O => []
  | S n => lo :: runes_from (lo + 1) n
  end.

(** The code points inside the ranges of a case table. *)
Definition covered (caseRange : list unicode_letter.CaseRange) : list rune :=
  flat_map (fun cr => runes_from (unicode_letter.Lo cr)
                        (Z.to_nat (unicode_letter.Hi cr
                                   - unicode_letter.Lo cr + 1)))
           caseRange.

(** Beyond ASCII, the upper-case form of [r] in the table is a rune and is
    its own upper-case form. *)
Definition upper_is_settled (r : rune) : bool :=
  (r <=? unicode.MaxASCII)
  || (utf8.ValidRune (unicode_letter.To unicode_letter.UpperCase r)
      && (@unicode.ToUpper unicode_letter.CaseRanges
            (unicode_letter.To unicode_letter.UpperCase r)
          =? unicode_letter.To unicode_letter.UpperCase r)).

(** ** Vocabulary of the statements *)

(** The string has ASCII bytes only. *)
Fixpoint allASCII (s : string) : bool :=
  match s with
  | EmptyString => true
  | String c s' => (b2z c <? utf8.RuneSelf) && allASCII s'
  end.

(** The string has a lower-case ASCII letter. *)
Fixpoint anyLower (s : string) : bool :=
  match s with
  | EmptyString => false
  | String c s' => strings.isLower (b2z c) || anyLower s'
  end.

(** The spec's "uppercase transform" of a string: every character replaced
    by its upper-case form under the case mapping of the host. *)
Definition uppercase_transform `{unicode.CaseRanges} (s : string) : string :=
  strings.Map unicode.ToUpper s.

(** The JSON string literal whose characters need no escape: the text
    between double quotes. *)
Definition jstr (text : string) : string :=
  String json.dquote (text ++ String json.dquote "").

(** The zero values of the request structs ([var request uppercaseRequest]). *)
Definition zero_uppercaseRequest : uppercaseRequest :=
  {| uppercaseRequest_S := "" |}.
Definition zero_countRequest : countRequest :=
  {| countRequest_S := "" |}.

(** The world at the start of the process: nothing logged, no metric
    recorded, a clock that counts its readings. *)
Definition world0 : World := {|
  clock := fun n => Z.of_nat n;
  clock_reads := 0;
  stderr_ok := true;
  stderr := [];
  registry := []
|}.

(** An endpoint that fails a type assertion whatever it is given. *)
Definition panickingEndpoint : Endpoint :=
  fun _ _ => ret (Panicked "not reached").

(** The text an endpoint puts in the field [Err] for the error of the
    service. *)
Definition businessError (err : error) : string :=
  match err with
  | Some e => Error e
  | None => ""
  end.

(** The bodies of the requests of the end-to-end scenarios. *)
Definition body_hello : string := "{" ++ jstr "s" ++ ":" ++ jstr "hello" ++ "}".
Definition body_empty : string := "{" ++ jstr "s" ++ ":" ++ jstr "" ++ "}".
Definition body_malformed : string := "{" ++ jstr "s" ++ ":" ++ "hello".

(** A response written with the status [200]. *)
Definition ok_response (body : string) : http.ResponseWriter :=
  {| http.Header := []; http.Status := Some http.StatusOK;
     http.Written := body |}.

(** A scanner step that answers (it does not run out of fuel) and, when it
    accepts, leaves less input than it was given. *)
Definition shrinks {A} (s : string)
    (r : option (jsondec.result (A * string))) : Prop :=
  match r with
  | None => False
  | Some (inl _) => True
  | Some (inr (_, rest)) => (String.length rest < String.length s)%nat
  end.

(** ** Further vocabulary *)

(** A case table that knows no letter beyond ASCII. *)
Definition asciiOnly : unicode.CaseRanges :=
  {| unicode.To_UpperCase := fun r => r |}.

(** The string is valid UTF-8: a [range] loop over it meets no byte that
    fails to decode (what [utf8.ValidString] answers). *)
Fixpoint validUTF8_from (skip : nat) (s : string) : bool :=
  match s with
  | EmptyString => true
  | String _ s' =>
      match skip with
      | S k => validUTF8_from k s'
      | O =>
          let (r, w) := utf8.DecodeRuneInString s in
          if (r =? utf8.RuneError) && Nat.eqb w 1 then false
          else validUTF8_from (Nat.pred w) s'
      end
  end.

Definition validUTF8 (s : string) : bool := validUTF8_from 0 s.

(** The string coerced to valid UTF-8: its runes written again, so that
    each byte that does not decode becomes the encoding of U+FFFD. *)
Definition coerceUTF8 (s : string) : string := strings.Map (fun r => r) s.

(** The JSON text of a request struct, whose one member is ["s"]. *)
Definition request_text (S0 : string) : string :=
  String "{"
    (String json.dquote (String "s" (String json.dquote (String ":"
       (String json.dquote
          (json.appendString_from 0 true S0 ++ String json.dquote "}")))))).

(** A service that fails with an error whose message is empty. *)
Definition silentService : StringService := {|
  Uppercase _ s := ret (s, Some (errorString ""));
  Count _ s := ret 0
|}.

(** * Properties *)

(** ** Bytes *)

Lemma b2z_range (c : ascii) : 0 <= b2z c < 256.
Proof.
  unfold b2z. pose proof (N_ascii_bounded c). lia.
Qed.

Lemma z2b_b2z (c : ascii) : z2b (b2z c) = c.
Proof.
  unfold z2b, byte_of, b2z.
  pose proof (N_ascii_bounded c).
  rewrite Z.mod_small by lia.
  rewrite N2Z.id. apply ascii_N_embedding.
Qed.

Lemma b2z_z2b (x : Z) : 0 <= x < 256 -> b2z (z2b x) = x.
Proof.
  intros Hx. unfold z2b, byte_of, b2z.
  rewrite Z.mod_small by lia.
  rewrite N_ascii_embedding by lia.
  apply Z2N.id. lia.
Qed.

Lemma b2z_inj (c d : ascii) : b2z c = b2z d -> c = d.
Proof.
  intros H. rewrite <- (z2b_b2z c), <- (z2b_b2z d). now rewrite H.
Qed.

Lemma Decode_ascii (c : ascii) (s : string) :
  b2z c < 128 ->
  utf8.DecodeRuneInString (String c s) = (b2z c, 1%nat).
Proof.
  intros Hc. pose proof (b2z_range c) as Hr.
  unfold utf8.DecodeRuneInString.
  change (String.length (String c s)) with (S (String.length s)).
  destruct (Z.ltb_spec (Z.of_nat (S (String.length s))) 1) as [H|_]; [lia|].
  change (at_ (String c s) 0) with (b2z c).
  unfold utf8.first.
  destruct (Z.ltb_spec (b2z c) 128) as [_|H]; [|lia].
  reflexivity.
Qed.


(** ** UTF-8: the decoder inverts the encoder

    The bit operations of the two functions are first turned into
    arithmetic ([lor] of disjoint bits is a sum, a mask is a remainder), so
    that the case analyses below end in linear arithmetic. *)

(** Goals with divisions and remainders by constants. *)
Ltac zdm := Z.div_mod_to_equations; lia.

(** Replace a closed term by its value. *)
Ltac calc t := let v := eval vm_compute in t in change t with v.

(** Case analysis on the comparison that guards the next [if]. *)
Ltac split_if :=
  match goal with
  | |- context [if ?a <? ?c then _ else _] => destruct (Z.ltb_spec a c)
  | |- context [if ?a <=? ?c then _ else _] => destruct (Z.leb_spec a c)
  | |- context [if (?a <? ?c) || _ then _ else _] =>
      destruct (Z.ltb_spec a c); cbn [orb]
  end.

(** Once the entry of [first] is known, the length of the sequence and the
    range of its second byte are constants. *)
Ltac calc_first :=
  repeat match goal with
       | |- context [?x >=? utf8.as_] => calc (x >=? utf8.as_)
       | |- context [?x =? utf8.xx] => calc (x =? utf8.xx)
       | |- context [Z.land ?x 7] => calc (Z.land x 7)
       | |- context [utf8.acceptRanges ?x] => calc (utf8.acceptRanges x)
       | |- context [utf8.lo ?x] => calc (utf8.lo x)
       | |- context [utf8.hi ?x] => calc (utf8.hi x)
       | |- context [2 <=? 2] => calc (2 <=? 2)
       | |- context [3 <=? 2] => calc (3 <=? 2)
       | |- context [3 <=? 3] => calc (3 <=? 3)
       | |- context [4 <=? 2] => calc (4 <=? 2)
       | |- context [4 <=? 3] => calc (4 <=? 3)
       end; cbv iota; unfold utf8.locb, utf8.hicb.

Lemma lor_disjoint_add (x y k : Z) :
  0 <= k -> x mod 2 ^ k = 0 -> 0 <= y < 2 ^ k -> Z.lor x y = x + y.
Proof.
  intros Hk Hx Hy.
  rewrite <- Z.add_lor_land.
  assert (Z.land x y = 0) as ->; [|lia].
  apply Z.bits_inj'. intros i Hi.
  rewrite Z.land_spec, Z.bits_0.
  destruct (Z.lt_ge_cases i k) as [Hlt|Hge].
  - assert (Z.testbit x i = false) as ->; [|reflexivity].
    rewrite <- (Z.mod_pow2_bits_low x k i) by lia.
    rewrite Hx. apply Z.bits_0.
  - assert (Z.testbit y i = false) as ->; [|apply andb_false_r].
    rewrite <- (Z.mod_small y (2 ^ k)) by lia.
    apply Z.mod_pow2_bits_high. lia.
Qed.

Lemma land_mask (x k : Z) : 0 <= k -> Z.land x (2 ^ k - 1) = x mod 2 ^ k.
Proof.
  intros Hk. rewrite <- Z.land_ones by assumption.
  f_equal. rewrite Z.ones_equiv. lia.
Qed.

Lemma land_63 x : Z.land x 63 = x mod 64.
Proof. exact (land_mask x 6 ltac:(lia)). Qed.
Lemma land_31 x : Z.land x 31 = x mod 32.
Proof. exact (land_mask x 5 ltac:(lia)). Qed.
Lemma land_15 x : Z.land x 15 = x mod 16.
Proof. exact (land_mask x 4 ltac:(lia)). Qed.
Lemma land_7 x : Z.land x 7 = x mod 8.
Proof. exact (land_mask x 3 ltac:(lia)). Qed.

(** The value of a sequence of two, three and four bytes. *)
Lemma val2 (s0 s1 : Z) :
  Z.lor (Z.shiftl (Z.land s0 utf8.mask2) 6) (Z.land s1 utf8.maskx)
  = (s0 mod 32) * 64 + s1 mod 64.
Proof.
  unfold utf8.mask2, utf8.maskx.
  rewrite land_31, land_63.
  rewrite Z.shiftl_mul_pow2 by lia.
  change (2 ^ 6) with 64.
  apply (lor_disjoint_add _ _ 6); [lia| |]; change (2 ^ 6) with 64; zdm.
Qed.

Lemma val3 (s0 s1 s2 : Z) :
  Z.lor (Z.lor (Z.shiftl (Z.land s0 utf8.mask3) 12)
               (Z.shiftl (Z.land s1 utf8.maskx) 6))
        (Z.land s2 utf8.maskx)
  = (s0 mod 16) * 4096 + (s1 mod 64) * 64 + s2 mod 64.
Proof.
  unfold utf8.mask3, utf8.maskx.
  rewrite land_15, !land_63.
  rewrite !Z.shiftl_mul_pow2 by lia.
  change (2 ^ 6) with 64. change (2 ^ 12) with 4096.
  rewrite (lor_disjoint_add (s0 mod 16 * 4096) (s1 mod 64 * 64) 12);
    [|lia|change (2 ^ 12) with 4096; zdm ..].
  apply (lor_disjoint_add _ _ 6); [lia| |]; change (2 ^ 6) with 64; zdm.
Qed.

Lemma val4 (s0 s1 s2 s3 : Z) :
  Z.lor (Z.lor (Z.lor (Z.shiftl (Z.land s0 utf8.mask4) 18)
                      (Z.shiftl (Z.land s1 utf8.maskx) 12))
               (Z.shiftl (Z.land s2 utf8.maskx) 6))
        (Z.land s3 utf8.maskx)
  = (s0 mod 8) * 262144 + (s1 mod 64) * 4096 + (s2 mod 64) * 64 + s3 mod 64.
Proof.
  unfold utf8.mask4, utf8.maskx.
  rewrite land_7, !land_63.
  rewrite !Z.shiftl_mul_pow2 by lia.
  change (2 ^ 6) with 64. change (2 ^ 12) with 4096.
  change (2 ^ 18) with 262144.
  rewrite (lor_disjoint_add (s0 mod 8 * 262144) (s1 mod 64 * 4096) 18);
    [|lia|change (2 ^ 18) with 262144; zdm ..].
  rewrite (lor_disjoint_add (s0 mod 8 * 262144 + s1 mod 64 * 4096)
             (s2 mod 64 * 64) 12);
    [|lia|change (2 ^ 12) with 4096; zdm ..].
  apply (lor_disjoint_add _ _ 6); [lia| |]; change (2 ^ 6) with 64; zdm.
Qed.

Lemma at_range s i : 0 <= at_ s i < 256.
Proof.
  unfold at_. destruct (String.get i s); [apply b2z_range | lia].
Qed.

(** The table [first], by ranges of the byte. *)
Lemma first_cases (b : Z) :
  0 <= b < 256 ->
  (b < 0x80 /\ utf8.first b = utf8.as_)
  \/ ((0x80 <= b < 0xC2 \/ 0xF5 <= b) /\ utf8.first b = utf8.xx)
  \/ (0xC2 <= b < 0xE0 /\ utf8.first b = utf8.s1)
  \/ (b = 0xE0 /\ utf8.first b = utf8.s2)
  \/ ((0xE1 <= b < 0xED \/ 0xEE <= b < 0xF0) /\ utf8.first b = utf8.s3)
  \/ (b = 0xED /\ utf8.first b = utf8.s4)
  \/ (b = 0xF0 /\ utf8.first b = utf8.s5)
  \/ (0xF1 <= b < 0xF4 /\ utf8.first b = utf8.s6)
  \/ (b = 0xF4 /\ utf8.first b = utf8.s7).
Proof.
  intros Hb. unfold utf8.first.
  repeat match goal with
  | |- context [?a <? ?c] => destruct (Z.ltb_spec a c)
  | |- context [?a =? ?c] => destruct (Z.eqb_spec a c)
  end; lia.
Qed.

(** Every rune the decoder returns is a valid rune. *)
Lemma Decode_valid (s : string) :
  utf8.ValidRune (fst (utf8.DecodeRuneInString s)) = true.
Proof.
  unfold utf8.DecodeRuneInString.
  pose proof (at_range s 0) as H0. pose proof (at_range s 1) as H1.
  pose proof (at_range s 2) as H2. pose proof (at_range s 3) as H3.
  generalize dependent (at_ s 3). generalize dependent (at_ s 2).
  generalize dependent (at_ s 1). generalize dependent (at_ s 0).
  generalize (Z.of_nat (String.length s)).
  intros n a0 H0 a1 H1 a2 H2 a3 H3.
  rewrite val2, val3, val4.
  destruct (Z.ltb_spec n 1); [reflexivity|].
  destruct (first_cases a0 H0) as
    [[Hr Hf]|[[Hr Hf]|[[Hr Hf]|[[Hr Hf]|[[Hr Hf]|[[Hr Hf]|[[Hr Hf]|[[Hr Hf]|[Hr Hf]]]]]]]]];
    rewrite Hf.
  all: calc_first.
  all: repeat split_if; try reflexivity.
  all: unfold utf8.ValidRune, utf8.surrogateMin, utf8.surrogateMax, utf8.MaxRune; cbn [fst].
  all: repeat match goal with
       | |- context [?a <? ?c] => destruct (Z.ltb_spec a c)
       | |- context [?a <=? ?c] => destruct (Z.leb_spec a c)
       end; cbn [orb andb]; try reflexivity; exfalso.
  all: try zdm.
Qed.

(** The decoder on a well-formed sequence of two, three and four bytes. *)
Lemma Decode_2 (c0 c1 : ascii) (rest : string) :
  0xC2 <= b2z c0 <= 0xDF -> 0x80 <= b2z c1 <= 0xBF ->
  utf8.DecodeRuneInString (String c0 (String c1 rest))
  = ((b2z c0 mod 32) * 64 + b2z c1 mod 64, 2%nat).
Proof.
  intros H0 H1. unfold utf8.DecodeRuneInString.
  change (at_ (String c0 (String c1 rest)) 0) with (b2z c0).
  change (at_ (String c0 (String c1 rest)) 1) with (b2z c1).
  assert (2 <= Z.of_nat (String.length (String c0 (String c1 rest)))) as Hn
    by (cbn [String.length]; lia).
  generalize dependent (Z.of_nat (String.length (String c0 (String c1 rest)))).
  intros n Hn.
  generalize (at_ (String c0 (String c1 rest)) 2).
  generalize (at_ (String c0 (String c1 rest)) 3).
  intros a3 a2.
  rewrite val2.
  destruct (Z.ltb_spec n 1); [lia|].
  destruct (first_cases (b2z c0) (b2z_range c0)) as
    [[Hr Hf]|[[Hr Hf]|[[Hr Hf]|[[Hr Hf]|[[Hr Hf]|[[Hr Hf]|[[Hr Hf]|[[Hr Hf]|[Hr Hf]]]]]]]]];
    try lia.
  rewrite Hf. calc_first.
  repeat split_if; try lia. reflexivity.
Qed.

Lemma Decode_3 (c0 c1 c2 : ascii) (rest : string) :
  0xE0 <= b2z c0 <= 0xEF -> 0x80 <= b2z c1 <= 0xBF -> 0x80 <= b2z c2 <= 0xBF ->
  (b2z c0 = 0xE0 -> 0xA0 <= b2z c1) ->
  (b2z c0 = 0xED -> b2z c1 <= 0x9F) ->
  utf8.DecodeRuneInString (String c0 (String c1 (String c2 rest)))
  = ((b2z c0 mod 16) * 4096 + (b2z c1 mod 64) * 64 + b2z c2 mod 64, 3%nat).
Proof.
  intros H0 H1 H2 HE0 HED. unfold utf8.DecodeRuneInString.
  set (s := String c0 (String c1 (String c2 rest))).
  change (at_ s 0) with (b2z c0).
  change (at_ s 1) with (b2z c1).
  change (at_ s 2) with (b2z c2).
  assert (3 <= Z.of_nat (String.length s)) as Hn
    by (subst s; cbn [String.length]; lia).
  generalize dependent (Z.of_nat (String.length s)).
  intros n Hn.
  generalize (at_ s 3). intros a3.
  rewrite val3.
  destruct (Z.ltb_spec n 1); [lia|].
  destruct (first_cases (b2z c0) (b2z_range c0)) as
    [[Hr Hf]|[[Hr Hf]|[[Hr Hf]|[[Hr Hf]|[[Hr Hf]|[[Hr Hf]|[[Hr Hf]|[[Hr Hf]|[Hr Hf]]]]]]]]];
    try lia.
  all: rewrite Hf; calc_first.
  all: repeat split_if; try lia; reflexivity.
Qed.

Lemma Decode_4 (c0 c1 c2 c3 : ascii) (rest : string) :
  0xF0 <= b2z c0 <= 0xF4 -> 0x80 <= b2z c1 <= 0xBF ->
  0x80 <= b2z c2 <= 0xBF -> 0x80 <= b2z c3 <= 0xBF ->
  (b2z c0 = 0xF0 -> 0x90 <= b2z c1) ->
  (b2z c0 = 0xF4 -> b2z c1 <= 0x8F) ->
  utf8.DecodeRuneInString (String c0 (String c1 (String c2 (String c3 rest))))
  = ((b2z c0 mod 8) * 262144 + (b2z c1 mod 64) * 4096
     + (b2z c2 mod 64) * 64 + b2z c3 mod 64, 4%nat).
Proof.
  intros H0 H1 H2 H3 HF0 HF4. unfold utf8.DecodeRuneInString.
  set (s := String c0 (String c1 (String c2 (String c3 rest)))).
  change (at_ s 0) with (b2z c0).
  change (at_ s 1) with (b2z c1).
  change (at_ s 2) with (b2z c2).
  change (at_ s 3) with (b2z c3).
  assert (4 <= Z.of_nat (String.length s)) as Hn
    by (subst s; cbn [String.length]; lia).
  generalize dependent (Z.of_nat (String.length s)).
  intros n Hn.
  rewrite val4.
  destruct (Z.ltb_spec n 1); [lia|].
  destruct (first_cases (b2z c0) (b2z_range c0)) as
    [[Hr Hf]|[[Hr Hf]|[[Hr Hf]|[[Hr Hf]|[[Hr Hf]|[[Hr Hf]|[[Hr Hf]|[[Hr Hf]|[Hr Hf]]]]]]]]];
    try lia.
  all: rewrite Hf; calc_first.
  all: repeat split_if; try lia; reflexivity.
Qed.

(** The bytes of the encoder, in arithmetic. *)
Lemma AppendRune_arith (r : rune) :
  utf8.ValidRune r = true ->
  utf8.AppendRune r =
    if r <? 0x80 then [r]
    else if r <? 0x800 then [192 + r / 64; 128 + r mod 64]
    else if r <? 0x10000 then
      [224 + r / 4096; 128 + (r / 64) mod 64; 128 + r mod 64]
    else
      [240 + r / 262144; 128 + (r / 4096) mod 64; 128 + (r / 64) mod 64;
       128 + r mod 64].
Proof.
  unfold utf8.ValidRune, utf8.surrogateMin, utf8.surrogateMax, utf8.MaxRune.
  intros Hv.
  assert (0 <= r < 0xD800 \/ 0xDFFF < r <= 0x10FFFF) as Hr.
  { apply orb_true_iff in Hv as [Hv|Hv]; apply andb_true_iff in Hv as [Ha Hb];
    [apply Z.leb_le in Ha; apply Z.ltb_lt in Hb
    |apply Z.ltb_lt in Ha; apply Z.leb_le in Hb]; lia. }
  clear Hv.
  unfold utf8.AppendRune, utf8.uint32.
  rewrite (Z.mod_small r (2 ^ 32)) by lia.
  unfold utf8.rune1Max, utf8.rune2Max, utf8.rune3Max, utf8.MaxRune,
    utf8.surrogateMin, utf8.surrogateMax, utf8.t2, utf8.t3, utf8.t4, utf8.tx,
    utf8.maskx, byte_of.
  rewrite !Z.shiftr_div_pow2 by lia. rewrite !land_63.
  change (2 ^ 6) with 64. change (2 ^ 12) with 4096. change (2 ^ 18) with 262144.
  repeat match goal with
  | |- context [?a <? ?c] => destruct (Z.ltb_spec a c)
  | |- context [?a <=? ?c] => destruct (Z.leb_spec a c)
  end; cbn [orb andb]; try lia.
  all: repeat match goal with
       | |- context [Z.lor 128 ?y] =>
           rewrite (lor_disjoint_add 128 y 7);
           [|lia|reflexivity|change (2 ^ 7) with 128; zdm]
       | |- context [Z.lor 192 ?y] =>
           rewrite (lor_disjoint_add 192 y 6);
           [|lia|reflexivity|change (2 ^ 6) with 64; zdm]
       | |- context [Z.lor 224 ?y] =>
           rewrite (lor_disjoint_add 224 y 5);
           [|lia|reflexivity|change (2 ^ 5) with 32; zdm]
       | |- context [Z.lor 240 ?y] =>
           rewrite (lor_disjoint_add 240 y 4);
           [|lia|reflexivity|change (2 ^ 4) with 16; zdm]
       end.
  all: repeat (f_equal; try zdm).
Qed.

Lemma ValidRune_range (r : rune) :
  utf8.ValidRune r = true <-> (0 <= r < 0xD800 \/ 0xDFFF < r <= 0x10FFFF).
Proof.
  unfold utf8.ValidRune, utf8.surrogateMin, utf8.surrogateMax, utf8.MaxRune.
  destruct (Z.leb_spec 0 r); destruct (Z.ltb_spec r 55296);
    destruct (Z.ltb_spec 57343 r); destruct (Z.leb_spec r 1114111);
    cbn [orb andb]; split; intros; try lia; try reflexivity; discriminate.
Qed.

(** A [range] loop over the encoding of a rune, followed by anything, visits
    the rune first and goes on with what follows. *)
Lemma range_from_AppendRune (r : rune) (rest : string) :
  utf8.ValidRune r = true ->
  range_from 0 (string_of_bytes (utf8.AppendRune r) ++ rest)
  = r :: range_from 0 rest.
Proof.
  intros Hv. rewrite AppendRune_arith by assumption.
  apply ValidRune_range in Hv.
  destruct (Z.ltb_spec r 128); [|destruct (Z.ltb_spec r 2048);
    [|destruct (Z.ltb_spec r 65536)]];
    cbn [string_of_bytes String.append range_from].
  - rewrite Decode_ascii by (rewrite b2z_z2b; lia).
    rewrite b2z_z2b by lia. reflexivity.
  - rewrite Decode_2 by (rewrite b2z_z2b; zdm).
    rewrite !b2z_z2b by zdm. cbn [Nat.pred]. f_equal. zdm.
  - rewrite Decode_3 by (rewrite ?b2z_z2b; zdm).
    rewrite !b2z_z2b by zdm. cbn [Nat.pred]. f_equal. zdm.
  - rewrite Decode_4 by (rewrite ?b2z_z2b; zdm).
    rewrite !b2z_z2b by zdm. cbn [Nat.pred]. f_equal. zdm.
Qed.

(** ** ASCII strings *)

Lemma scan_spec (s : string) (acc : bool) :
  strings.scan s acc =
    if allASCII s then (true, acc || anyLower s)
    else (false, snd (strings.scan s acc)).
Proof.
  revert acc. induction s as [|c s IH]; intros acc; simpl.
  - now rewrite orb_false_r.
  - unfold utf8.RuneSelf in *.
    destruct (Z.leb_spec 128 (b2z c)) as [Hc|Hc];
      destruct (Z.ltb_spec (b2z c) 128) as [Hc'|Hc']; try lia; simpl.
    + reflexivity.
    + rewrite IH. destruct (allASCII s); simpl.
      * now rewrite orb_assoc.
      * reflexivity.
Qed.

Lemma upperASCII_no_lower (s : string) :
  anyLower s = false -> strings.upperASCII s = s.
Proof.
  induction s as [|c s IH]; simpl; intros H; [reflexivity|].
  apply orb_false_iff in H as [Hc Hs].
  now rewrite Hc, IH.
Qed.

Lemma range_from_ascii (s : string) :
  allASCII s = true ->
  range_from 0 s = map b2z (list_ascii_of_string s).
Proof.
  induction s as [|c s IH]; simpl range_from; intros H; [reflexivity|].
  simpl in H. apply andb_true_iff in H as [Hc Hs].
  apply Z.ltb_lt in Hc. unfold utf8.RuneSelf in Hc.
  rewrite Decode_ascii by assumption.
  simpl. now rewrite IH.
Qed.

Section WithCaseRanges.

Context {tables : unicode.CaseRanges}.

Lemma ToUpper_ascii_rune (b : Z) :
  0 <= b < 128 ->
  unicode.ToUpper b = if strings.isLower b then b - 32 else b.
Proof.
  intros Hb. unfold unicode.ToUpper, unicode.MaxASCII, strings.isLower.
  destruct (Z.leb_spec b 127); [|lia]. reflexivity.
Qed.

Lemma AppendRune_ascii (v : Z) :
  0 <= v < 128 -> utf8.AppendRune v = [v].
Proof.
  intros Hv. unfold utf8.AppendRune, utf8.uint32, utf8.rune1Max, byte_of.
  rewrite (Z.mod_small v (2 ^ 32)) by lia.
  destruct (Z.leb_spec v 127); [|lia].
  now rewrite Z.mod_small by lia.
Qed.

Lemma Map_runes_ascii (s : string) :
  allASCII s = true ->
  strings.Map_runes unicode.ToUpper (map b2z (list_ascii_of_string s))
  = strings.upperASCII s.
Proof.
  induction s as [|c s IH]; simpl; intros H; [reflexivity|].
  apply andb_true_iff in H as [Hc Hs].
  apply Z.ltb_lt in Hc. unfold utf8.RuneSelf in Hc.
  pose proof (b2z_range c) as Hr.
  rewrite ToUpper_ascii_rune by lia.
  rewrite IH by assumption.
  unfold strings.isLower.
  destruct (Z.leb_spec 97 (b2z c)); destruct (Z.leb_spec (b2z c) 122); simpl;
    match goal with
    | |- context [0 <=? ?v] => destruct (Z.leb_spec 0 v); [|lia]
    end;
    rewrite AppendRune_ascii by lia; simpl;
    try rewrite z2b_b2z; reflexivity.
Qed.

(** [strings.ToUpper] is the rune-wise transform: its fast path for ASCII
    strings agrees with [strings.Map]. *)
Lemma ToUpper_is_transform (s : string) :
  strings.ToUpper s = uppercase_transform s.
Proof.
  unfold strings.ToUpper, uppercase_transform, strings.Map, range_string.
  rewrite scan_spec. destruct (allASCII s) eqn:Hs; [|reflexivity].
  rewrite range_from_ascii, Map_runes_ascii by assumption.
  simpl. destruct (anyLower s) eqn:Hl; simpl; [reflexivity|].
  symmetry. now apply upperASCII_no_lower.
Qed.

Lemma Uppercase_of_nonempty (x : stringService.t) (ctx : context.Context)
    (s : string) :
  s <> "" -> stringService.Uppercase x ctx s = (strings.ToUpper s, None).
Proof.
  intros Hs. unfold stringService.Uppercase.
  destruct (String.eqb s "") eqn:E; [|reflexivity].
  apply String.eqb_eq in E. contradiction.
Qed.

(** C1: for every non-empty string [s] and every context, [Uppercase]
    returns the uppercase transform of [s] (what [strings.ToUpper] computes,
    which is the rune-wise case mapping of the host) and a nil error. *)
Theorem Uppercase_nonempty (x : stringService.t) (ctx : context.Context)
    (s : string) :
  s <> "" ->
  stringService.Uppercase x ctx s = (strings.ToUpper s, None)
  /\ strings.ToUpper s = uppercase_transform s.
Proof.
  intros Hs. split; [now apply Uppercase_of_nonempty|].
  apply ToUpper_is_transform.
Qed.

(** C2: [Uppercase] returns a non-nil error exactly when [s] is the empty
    string; the error is then [ErrEmpty], whose message is "empty string",
    and the value returned with it is the empty string. *)
Theorem Uppercase_error_iff_empty (x : stringService.t)
    (ctx : context.Context) (s : string) :
  (snd (stringService.Uppercase x ctx s) <> None <-> s = "")
  /\ stringService.Uppercase x ctx "" = ("", Some ErrEmpty)
  /\ Error ErrEmpty = "empty string".
Proof.
  split; [|split; reflexivity].
  unfold stringService.Uppercase.
  destruct (String.eqb s "") eqn:E; simpl.
  - apply String.eqb_eq in E. split; [auto | discriminate].
  - apply String.eqb_neq in E. split; [congruence | contradiction].
Qed.

End WithCaseRanges.

(** C3: for every string and context, [Count] is the length of the string in
    bytes; it is [0] on the empty string, and its result is a plain integer:
    there is no error to return. *)
Theorem Count_is_length (x : stringService.t) (ctx : context.Context)
    (s : string) :
  stringService.Count x ctx s = Z.of_nat (String.length s)
  /\ stringService.Count x ctx "" = 0
  /\ 0 <= stringService.Count x ctx s.
Proof.
  unfold stringService.Count. repeat split. apply Nat2Z.is_nonneg.
Qed.

(** ** Applying [Uppercase] twice *)

Lemma range_from_valid (s : string) (k : nat) :
  Forall (fun r => utf8.ValidRune r = true) (range_from k s).
Proof.
  revert k. induction s as [|c s IH]; intros k; cbn [range_from].
  - constructor.
  - destruct k as [|k]; [|apply IH].
    pose proof (Decode_valid (String c s)) as Hv.
    destruct (utf8.DecodeRuneInString (String c s)) as [r w].
    constructor; [exact Hv | apply IH].
Qed.

Lemma range_from_nonempty (c : ascii) (s : string) :
  exists r rs, range_from 0 (String c s) = r :: rs.
Proof.
  cbn [range_from].
  destruct (utf8.DecodeRuneInString (String c s)) as [r w]. eauto.
Qed.

Lemma AppendRune_nonempty (r : rune) :
  utf8.ValidRune r = true -> exists b bs, utf8.AppendRune r = b :: bs.
Proof.
  intros Hv. rewrite AppendRune_arith by assumption.
  repeat match goal with
  | |- context [if ?a <? ?c then _ else _] => destruct (a <? c)
  end; eauto.
Qed.

Lemma ValidRune_nonneg (r : rune) : utf8.ValidRune r = true -> 0 <= r.
Proof. intros Hv. apply ValidRune_range in Hv. lia. Qed.

Lemma Map_runes_range (f : rune -> rune) (cs : list rune) :
  Forall (fun c => utf8.ValidRune (f c) = true) cs ->
  range_from 0 (strings.Map_runes f cs) = map f cs.
Proof.
  induction 1 as [|c cs Hc Hcs IH]; cbn [strings.Map_runes map]; [reflexivity|].
  pose proof (ValidRune_nonneg _ Hc) as Hn.
  apply Z.leb_le in Hn. rewrite Hn.
  rewrite range_from_AppendRune by assumption.
  now rewrite IH.
Qed.

Lemma Map_runes_map_ext (f g : rune -> rune) (cs : list rune) :
  Forall (fun c => f (g c) = g c) cs ->
  strings.Map_runes f (map g cs) = strings.Map_runes g cs.
Proof.
  induction 1 as [|c cs Hc Hcs IH]; cbn [strings.Map_runes map]; [reflexivity|].
  now rewrite Hc, IH.
Qed.

Section Idempotence.

Context {tables : unicode.CaseRanges}.

(** What the lemmas below ask of a case table, beyond ASCII:
    the upper-case form of a rune is a rune, and it is its own upper-case
    form. *)
Hypothesis To_UpperCase_valid :
  forall r, unicode.MaxASCII < r -> utf8.ValidRune r = true ->
    utf8.ValidRune (unicode.To_UpperCase r) = true.
Hypothesis To_UpperCase_upper :
  forall r, unicode.MaxASCII < r -> utf8.ValidRune r = true ->
    unicode.ToUpper (unicode.To_UpperCase r) = unicode.To_UpperCase r.

Lemma ToUpper_valid (r : rune) :
  utf8.ValidRune r = true -> utf8.ValidRune (unicode.ToUpper r) = true.
Proof.
  intros Hv. unfold unicode.ToUpper.
  destruct (Z.leb_spec r unicode.MaxASCII) as [Hr|Hr].
  - apply ValidRune_range in Hv. apply ValidRune_range.
    unfold unicode.MaxASCII in Hr.
    destruct (Z.leb_spec 97 r); destruct (Z.leb_spec r 122); cbn [andb]; lia.
  - now apply To_UpperCase_valid.
Qed.

Lemma ToUpper_idem (r : rune) :
  utf8.ValidRune r = true ->
  unicode.ToUpper (unicode.ToUpper r) = unicode.ToUpper r.
Proof.
  intros Hv. unfold unicode.ToUpper at 2 3.
  destruct (Z.leb_spec r unicode.MaxASCII) as [Hr|Hr].
  - unfold unicode.ToUpper, unicode.MaxASCII in *.
    destruct (Z.leb_spec 97 r); destruct (Z.leb_spec r 122); cbn [andb];
      repeat match goal with
      | |- context [?a <=? ?c] => destruct (Z.leb_spec a c)
      end; cbn [andb]; lia.
  - now apply To_UpperCase_upper.
Qed.

Lemma Map_ToUpper_range (s : string) :
  range_string (strings.Map unicode.ToUpper s)
  = map unicode.ToUpper (range_string s).
Proof.
  unfold strings.Map, range_string. apply Map_runes_range.
  eapply Forall_impl; [|apply range_from_valid].
  intros r Hr. now apply ToUpper_valid.
Qed.

Lemma ToUpper_idempotent (s : string) :
  strings.ToUpper (strings.ToUpper s) = strings.ToUpper s.
Proof.
  rewrite !ToUpper_is_transform. unfold uppercase_transform.
  unfold strings.Map at 1. rewrite Map_ToUpper_range.
  unfold strings.Map, range_string.
  apply Map_runes_map_ext.
  eapply Forall_impl; [|apply range_from_valid].
  intros r Hr. now apply ToUpper_idem.
Qed.

Lemma ToUpper_nonempty (s : string) :
  s <> "" -> strings.ToUpper s <> "".
Proof.
  intros Hs. rewrite ToUpper_is_transform.
  unfold uppercase_transform, strings.Map, range_string.
  destruct s as [|c s]; [contradiction|].
  pose proof (range_from_valid (String c s) 0) as Hv.
  destruct (range_from_nonempty c s) as (r & rs & E).
  rewrite E in *. inversion Hv as [|? ? Hr _]; subst.
  cbn [strings.Map_runes].
  pose proof (ToUpper_valid r Hr) as Hu.
  pose proof (ValidRune_nonneg _ Hu) as Hn. apply Z.leb_le in Hn. rewrite Hn.
  destruct (AppendRune_nonempty _ Hu) as (b & bs & Eb). rewrite Eb.
  discriminate.
Qed.

(** For every case table with the two properties of the section: on a
    non-empty string [s], the result [u] of [Uppercase] on [s] is non-empty,
    and [Uppercase] on [u] succeeds and returns [u] again. *)
Lemma Uppercase_idempotent_for_table (x : stringService.t)
    (ctx : context.Context) (s : string) :
  s <> "" ->
  exists u,
    stringService.Uppercase x ctx s = (u, None)
    /\ u <> ""
    /\ stringService.Uppercase x ctx u = (u, None).
Proof.
  intros Hs. exists (strings.ToUpper s).
  pose proof (ToUpper_nonempty s Hs) as Hu.
  pose proof (Uppercase_of_nonempty x ctx s Hs) as E.
  pose proof (Uppercase_of_nonempty x ctx _ Hu) as E'.
  rewrite ToUpper_idempotent in E'. auto.
Qed.

End Idempotence.

(** The Latin-1 case table meets the two hypotheses. *)
Lemma latin1_cases (r : rune) :
  (0xE0 <= r <= 0xFE /\ r <> 0xF7 /\ latin1_To_UpperCase r = r - 32)
  \/ (r = 0xFF /\ latin1_To_UpperCase r = 0x178)
  \/ (r = 0xB5 /\ latin1_To_UpperCase r = 0x39C)
  \/ ((r < 0xE0 \/ 0xFF < r \/ r = 0xF7) /\ r <> 0xB5
      /\ latin1_To_UpperCase r = r).
Proof.
  unfold latin1_To_UpperCase.
  destruct (Z.leb_spec 0xE0 r); destruct (Z.leb_spec r 0xFE);
    destruct (Z.eqb_spec r 0xF7); destruct (Z.eqb_spec r 0xFF);
    destruct (Z.eqb_spec r 0xB5); cbn [andb negb]; lia.
Qed.

Lemma latin1_valid (r : rune) :
  unicode.MaxASCII < r -> utf8.ValidRune r = true ->
  utf8.ValidRune (latin1_To_UpperCase r) = true.
Proof.
  intros _ Hv. apply ValidRune_range in Hv. apply ValidRune_range.
  destruct (latin1_cases r) as [H|[H|[H|H]]]; lia.
Qed.

Lemma latin1_upper (r : rune) :
  unicode.MaxASCII < r -> utf8.ValidRune r = true ->
  @unicode.ToUpper latin1 (latin1_To_UpperCase r) = latin1_To_UpperCase r.
Proof.
  unfold unicode.MaxASCII. intros Hr _.
  unfold unicode.ToUpper, unicode.MaxASCII.
  destruct (Z.leb_spec (latin1_To_UpperCase r) 127) as [Hle|Hgt].
  - destruct (latin1_cases r) as [H|[H|[H|H]]]; lia.
  - cbn [unicode.To_UpperCase latin1].
    destruct (latin1_cases (latin1_To_UpperCase r)) as [H|[H|[H|H]]];
      destruct (latin1_cases r) as [H'|[H'|[H'|H']]]; lia.
Qed.

(** C10: both operations ignore the context: with any two contexts the
    results are the same, and they are functions of the string alone. *)
Theorem context_is_ignored {tables : unicode.CaseRanges}
    (x : stringService.t) (ctx1 ctx2 : context.Context) (s : string) :
  stringService.Uppercase x ctx1 s = stringService.Uppercase x ctx2 s
  /\ stringService.Count x ctx1 s = stringService.Count x ctx2 s.
Proof. split; reflexivity. Qed.

(** ** The case table of package [unicode] *)

Lemma div2_between (lo hi : nat) :
  (lo < hi)%nat -> (lo <= Nat.div2 (lo + hi) < hi)%nat.
Proof.
  intros H. rewrite Nat.div2_div. split.
  - apply Nat.div_le_lower_bound; lia.
  - apply Nat.Div0.div_lt_upper_bound; lia.
Qed.

(** The search ends within the rounds it is given, and never indexes
    outside the table. *)
Lemma to_loop_returns (fuel : nat) :
  forall (_case : Z) (r : rune) (caseRange : list unicode_letter.CaseRange)
         (lo hi : nat),
    (hi <= List.length caseRange)%nat -> (hi - lo < fuel)%nat ->
    exists mappedRune foundMapping,
      unicode_letter.to_loop fuel _case r caseRange lo hi
      = Some (mappedRune, foundMapping).
Proof.
  induction fuel as [|fuel IH]; intros _case r caseRange lo hi Hhi Hf; [lia|].
  cbn [unicode_letter.to_loop].
  destruct (Nat.ltb_spec lo hi) as [Hlt|Hge]; [|eauto].
  pose proof (div2_between lo hi Hlt) as Hm.
  destruct (nth_error caseRange (Nat.div2 (lo + hi))) as [cr|] eqn:E.
  - destruct ((unicode_letter.Lo cr <=? r) && (r <=? unicode_letter.Hi cr)).
    + destruct (unicode_letter.MaxRune
                <? unicode_letter.index (unicode_letter.Delta cr) _case);
        eauto.
    + destruct (r <? unicode_letter.Lo cr); apply IH; lia.
  - apply nth_error_None in E. lia.
Qed.

Lemma to_returns (_case : Z) (r : rune)
    (caseRange : list unicode_letter.CaseRange) :
  exists mappedRune foundMapping,
    unicode_letter.to _case r caseRange = Some (mappedRune, foundMapping).
Proof.
  unfold unicode_letter.to.
  destruct ((_case <? 0) || (unicode_letter.MaxCase <=? _case)); [eauto|].
  apply to_loop_returns; lia.
Qed.

Lemma runes_from_In (n : nat) :
  forall lo r, lo <= r < lo + Z.of_nat n -> In r (runes_from lo n).
Proof.
  induction n as [|n IH]; intros lo r Hr; [lia|].
  cbn [runes_from]. destruct (Z.eq_dec lo r) as [->|Hne].
  - now left.
  - right. apply IH. lia.
Qed.

Lemma covered_In (caseRange : list unicode_letter.CaseRange)
    (cr : unicode_letter.CaseRange) (r : rune) :
  In cr caseRange ->
  unicode_letter.Lo cr <= r <= unicode_letter.Hi cr ->
  In r (covered caseRange).
Proof.
  intros Hin Hr. unfold covered. apply in_flat_map. exists cr.
  split; [assumption|]. apply runes_from_In. lia.
Qed.

(** A rune the search maps lies inside a range of the table; any other rune
    comes back as it is. *)
Lemma to_loop_found (fuel : nat) :
  forall (_case : Z) (r : rune) (caseRange : list unicode_letter.CaseRange)
         (lo hi : nat) (mappedRune : rune) (foundMapping : bool),
    unicode_letter.to_loop fuel _case r caseRange lo hi
    = Some (mappedRune, foundMapping) ->
    mappedRune = r \/ In r (covered caseRange).
Proof.
  induction fuel as [|fuel IH];
    intros _case r caseRange lo hi x b; cbn [unicode_letter.to_loop];
    [discriminate|].
  destruct (lo <? hi)%nat; [|intros [= <- _]; now left].
  destruct (nth_error caseRange (Nat.div2 (lo + hi))) as [cr|] eqn:E;
    [|discriminate].
  destruct (Z.leb_spec (unicode_letter.Lo cr) r) as [Hlo|Hlo];
    destruct (Z.leb_spec r (unicode_letter.Hi cr)) as [Hhi|Hhi];
    cbn [andb].
  - intros _. right. apply (covered_In _ cr); [|lia].
    eapply nth_error_In; eassumption.
  - destruct (r <? unicode_letter.Lo cr); apply IH.
  - destruct (r <? unicode_letter.Lo cr); apply IH.
  - destruct (r <? unicode_letter.Lo cr); apply IH.
Qed.

Lemma To_UpperCase_cases (r : rune) :
  unicode_letter.To unicode_letter.UpperCase r = r
  \/ In r (covered unicode_letter._CaseRanges).
Proof.
  unfold unicode_letter.To.
  destruct (unicode_letter.to unicode_letter.UpperCase r
              unicode_letter._CaseRanges) as [[x b]|] eqn:E; [|now left].
  unfold unicode_letter.to in E.
  change ((unicode_letter.UpperCase <? 0)
          || (unicode_letter.MaxCase <=? unicode_letter.UpperCase))
    with false in E.
  cbv iota in E. eapply to_loop_found; eassumption.
Qed.

(** Every code point inside a range of the table has an upper-case form
    that is a rune and is its own upper-case form: by evaluation of the
    search on each of them. *)
Lemma covered_settled :
  forallb upper_is_settled (covered unicode_letter._CaseRanges) = true.
Proof. vm_compute. reflexivity. Qed.

Lemma CaseRanges_valid (r : rune) :
  unicode.MaxASCII < r -> utf8.ValidRune r = true ->
  utf8.ValidRune (@unicode.To_UpperCase unicode_letter.CaseRanges r) = true.
Proof.
  intros Hr Hv. cbn [unicode.To_UpperCase unicode_letter.CaseRanges].
  destruct (To_UpperCase_cases r) as [E|Hin]; [now rewrite E|].
  pose proof (proj1 (forallb_forall _ _) covered_settled r Hin) as Hs.
  unfold upper_is_settled in Hs.
  apply Z.leb_gt in Hr. rewrite Hr in Hs. cbn [orb] in Hs.
  now apply andb_true_iff in Hs.
Qed.

Lemma CaseRanges_upper (r : rune) :
  unicode.MaxASCII < r -> utf8.ValidRune r = true ->
  @unicode.ToUpper unicode_letter.CaseRanges
    (@unicode.To_UpperCase unicode_letter.CaseRanges r)
  = @unicode.To_UpperCase unicode_letter.CaseRanges r.
Proof.
  intros Hr Hv. cbn [unicode.To_UpperCase unicode_letter.CaseRanges].
  destruct (To_UpperCase_cases r) as [E|Hin].
  - rewrite E. unfold unicode.ToUpper.
    apply Z.leb_gt in Hr. rewrite Hr.
    cbn [unicode.To_UpperCase unicode_letter.CaseRanges]. exact E.
  - pose proof (proj1 (forallb_forall _ _) covered_settled r Hin) as Hs.
    unfold upper_is_settled in Hs.
    apply Z.leb_gt in Hr. rewrite Hr in Hs. cbn [orb] in Hs.
    apply andb_true_iff in Hs. destruct Hs as [_ Hs].
    now apply Z.eqb_eq in Hs.
Qed.

(** C9: with the case table of package [unicode], for every non-empty
    string [s] the result [u] of [Uppercase] on [s] is non-empty, and
    [Uppercase] on [u] succeeds and returns [u] again:
    Uppercase(Uppercase(s)) = Uppercase(s). *)
Theorem Uppercase_idempotent (x : stringService.t) (ctx : context.Context)
    (s : string) :
  s <> "" ->
  exists u,
    @stringService.Uppercase unicode_letter.CaseRanges x ctx s = (u, None)
    /\ u <> ""
    /\ @stringService.Uppercase unicode_letter.CaseRanges x ctx u
       = (u, None).
Proof.
  apply (@Uppercase_idempotent_for_table unicode_letter.CaseRanges
           CaseRanges_valid CaseRanges_upper).
Qed.

(** ** The monad of the process state *)

Lemma bind_ret_l {A B} (a : A) (k : A -> M B) (w : World) :
  bind (ret a) k w = k a w.
Proof. reflexivity. Qed.

Lemma bind_run {A B} (m : M A) (k : A -> M B) (w w' : World) (a : A) :
  m w = (a, w') -> bind m k w = k a w'.
Proof. intros H. unfold bind. now rewrite H. Qed.

(** ** Endpoints *)

Lemma makeUppercaseEndpoint_run (svc : StringService) (ctx : context.Context)
    (req : uppercaseRequest) (w w' : World) (v : string) (err : error) :
  Uppercase svc ctx (uppercaseRequest_S req) w = ((v, err), w') ->
  makeUppercaseEndpoint svc ctx (any_uppercaseRequest req) w
  = (Returned
       (any_uppercaseResponse
          {| uppercaseResponse_V := v;
             uppercaseResponse_Err := businessError err |}, None), w').
Proof.
  intros H. unfold makeUppercaseEndpoint.
  rewrite (bind_run _ _ _ _ _ H).
  destruct err; reflexivity.
Qed.

Lemma makeCountEndpoint_run (svc : StringService) (ctx : context.Context)
    (req : countRequest) (w w' : World) (n : Z) :
  Count svc ctx (countRequest_S req) w = (n, w') ->
  makeCountEndpoint svc ctx (any_countRequest req) w
  = (Returned (any_countResponse {| countResponse_V := n |}, None), w').
Proof.
  intros H. unfold makeCountEndpoint.
  now rewrite (bind_run _ _ _ _ _ H).
Qed.

Lemma makeUppercaseEndpoint_main0 {tables : unicode.CaseRanges}
    (ctx : context.Context) (req : uppercaseRequest) (w : World) :
  makeUppercaseEndpoint main0.svc ctx (any_uppercaseRequest req) w
  = (Returned
       (any_uppercaseResponse
          (if String.eqb (uppercaseRequest_S req) ""
           then {| uppercaseResponse_V := "";
                   uppercaseResponse_Err := "empty string" |}
           else {| uppercaseResponse_V :=
                     strings.ToUpper (uppercaseRequest_S req);
                   uppercaseResponse_Err := "" |}), None), w).
Proof.
  unfold makeUppercaseEndpoint, main0.svc, StringService_of_stringService.
  cbn [Uppercase]. rewrite bind_ret_l.
  unfold stringService.Uppercase.
  destruct (String.eqb (uppercaseRequest_S req) ""); reflexivity.
Qed.

(** C4: the endpoint of [makeUppercaseEndpoint] returns a nil error on every
    [uppercaseRequest]: the error of the service, when there is one, is the
    text of the field [Err] of the response, beside the value the service
    returned, and [Err] is empty when the service succeeds.  With
    [stringService] the failing response has an empty [V] and the text
    "empty string".  The endpoint of [makeCountEndpoint] returns a nil
    error on every [countRequest]. *)
Theorem endpoints_return_nil_error {tables : unicode.CaseRanges}
    (svc : StringService) (ctx : context.Context)
    (req : uppercaseRequest) (creq : countRequest) (w : World) :
  (exists resp w',
      makeUppercaseEndpoint svc ctx (any_uppercaseRequest req) w
      = (Returned (any_uppercaseResponse resp, None), w')
      /\ (forall e, snd (fst (Uppercase svc ctx (uppercaseRequest_S req) w))
                    = Some e ->
                    uppercaseResponse_Err resp = Error e)
      /\ (snd (fst (Uppercase svc ctx (uppercaseRequest_S req) w)) = None ->
          uppercaseResponse_Err resp = "")
      /\ uppercaseResponse_V resp
         = fst (fst (Uppercase svc ctx (uppercaseRequest_S req) w)))
  /\ makeUppercaseEndpoint main0.svc ctx (any_uppercaseRequest req) w
     = (Returned
          (any_uppercaseResponse
             (if String.eqb (uppercaseRequest_S req) ""
              then {| uppercaseResponse_V := "";
                      uppercaseResponse_Err := "empty string" |}
              else {| uppercaseResponse_V :=
                        strings.ToUpper (uppercaseRequest_S req);
                      uppercaseResponse_Err := "" |}), None), w)
  /\ (exists n w',
        makeCountEndpoint svc ctx (any_countRequest creq) w
        = (Returned (any_countResponse {| countResponse_V := n |}, None), w')
        /\ Count svc ctx (countRequest_S creq) w = (n, w')).
Proof.
  split; [|split].
  - destruct (Uppercase svc ctx (uppercaseRequest_S req) w)
      as [[v err] w'] eqn:E.
    eexists; exists w'. split; [apply (makeUppercaseEndpoint_run _ _ _ _ _ _ _ E)|].
    cbn. repeat split.
    + intros e0 He. now subst err.
    + intros He. now subst err.
  - apply makeUppercaseEndpoint_main0.
  - destruct (Count svc ctx (countRequest_S creq) w) as [n w'] eqn:E.
    exists n, w'. split; [now apply makeCountEndpoint_run | reflexivity].
Qed.

(** ** The transport *)

Section WithDecoder.

Context {codec : json.Decoder}.

Lemma decodeUppercaseRequest_cases (ctx : context.Context) (r : http.Request) :
  decodeUppercaseRequest ctx r =
    let (v, err) :=
      json.Decode_uppercaseRequest (http.Body r) zero_uppercaseRequest in
    match err with
    | Some e => (any_nil, Some e)
    | None => (any_uppercaseRequest v, None)
    end.
Proof. reflexivity. Qed.

Lemma decodCountRequest_cases (ctx : context.Context) (r : http.Request) :
  decodCountRequest ctx r =
    let (v, err) :=
      json.Decode_countRequest (http.Body r) zero_countRequest in
    match err with
    | Some e => (any_nil, Some e)
    | None => (any_countRequest v, None)
    end.
Proof. reflexivity. Qed.

Lemma ServeHTTP_decode_error (e : Endpoint)
    (dec : httptransport.DecodeRequestFunc)
    (enc : httptransport.EncodeResponseFunc)
    (rw : http.ResponseWriter) (r : http.Request) (w : World)
    (x : any) (err : errorValue) :
  dec (http.Context r) r = (x, Some err) ->
  httptransport.ServeHTTP (httptransport.NewServer e dec enc) rw r w
  = (Returned (httptransport.DefaultErrorEncoder (http.Context r) err rw), w).
Proof.
  intros H. unfold httptransport.ServeHTTP, httptransport.NewServer.
  cbn [httptransport.dec]. now rewrite H.
Qed.

(** C7: when the body cannot be decoded into the request struct, the
    decoder returns the error with a nil request, and the server answers
    with the error without calling the endpoint: whatever the endpoint is,
    the response is the same and the state of the process is untouched.
    When the body is decoded, the decoder returns the request with a nil
    error.  This holds for both decoders. *)
Theorem decoders_report_failure (ctx : context.Context) (r : http.Request) :
  (forall v err,
      json.Decode_uppercaseRequest (http.Body r) zero_uppercaseRequest
      = (v, Some err) ->
      decodeUppercaseRequest ctx r = (any_nil, Some err)
      /\ forall e enc rw w,
          httptransport.ServeHTTP
            (httptransport.NewServer e decodeUppercaseRequest enc) rw r w
          = (Returned
               (httptransport.DefaultErrorEncoder (http.Context r) err rw), w))
  /\ (forall v,
      json.Decode_uppercaseRequest (http.Body r) zero_uppercaseRequest
      = (v, None) ->
      decodeUppercaseRequest ctx r = (any_uppercaseRequest v, None))
  /\ (forall v err,
      json.Decode_countRequest (http.Body r) zero_countRequest
      = (v, Some err) ->
      decodCountRequest ctx r = (any_nil, Some err)
      /\ forall e enc rw w,
          httptransport.ServeHTTP
            (httptransport.NewServer e decodCountRequest enc) rw r w
          = (Returned
               (httptransport.DefaultErrorEncoder (http.Context r) err rw), w))
  /\ (forall v,
      json.Decode_countRequest (http.Body r) zero_countRequest = (v, None) ->
      decodCountRequest ctx r = (any_countRequest v, None)).
Proof.
  repeat split.
  - rewrite decodeUppercaseRequest_cases, H. reflexivity.
  - intros e enc rw w. apply (ServeHTTP_decode_error _ _ _ _ _ _ any_nil).
    rewrite decodeUppercaseRequest_cases, H. reflexivity.
  - intros v H. rewrite decodeUppercaseRequest_cases, H. reflexivity.
  - rewrite decodCountRequest_cases, H. reflexivity.
  - intros e enc rw w. apply (ServeHTTP_decode_error _ _ _ _ _ _ any_nil).
    rewrite decodCountRequest_cases, H. reflexivity.
  - intros v H. rewrite decodCountRequest_cases, H. reflexivity.
Qed.

Lemma decodeUppercaseRequest_ok (ctx : context.Context) (r : http.Request)
    (request : any) :
  decodeUppercaseRequest ctx r = (request, None) ->
  exists req, request = any_uppercaseRequest req.
Proof.
  rewrite decodeUppercaseRequest_cases.
  destruct (json.Decode_uppercaseRequest _ _) as [v [e|]]; intros H;
    inversion H; subst; eauto.
Qed.

Lemma decodCountRequest_ok (ctx : context.Context) (r : http.Request)
    (request : any) :
  decodCountRequest ctx r = (request, None) ->
  exists req, request = any_countRequest req.
Proof.
  rewrite decodCountRequest_cases.
  destruct (json.Decode_countRequest _ _) as [v [e|]]; intros H;
    inversion H; subst; eauto.
Qed.

(** C8: a request that the paired decoder produced (with a nil error) has
    the dynamic type the endpoint asserts, so the endpoint returns and does
    not panic; and the server, which calls the endpoint on nothing else,
    never panics. *)
Theorem paired_request_never_panics (svc : StringService)
    (ctx ctx' : context.Context) (r : http.Request) (request : any)
    (w : World) :
  (decodeUppercaseRequest ctx r = (request, None) ->
   exists response w',
     makeUppercaseEndpoint svc ctx' request w
     = (Returned (response, None), w'))
  /\ (decodCountRequest ctx r = (request, None) ->
      exists response w',
        makeCountEndpoint svc ctx' request w
        = (Returned (response, None), w'))
  /\ (forall enc rw, exists rw' w',
        httptransport.ServeHTTP
          (httptransport.NewServer
             (makeUppercaseEndpoint svc) decodeUppercaseRequest enc) rw r w
        = (Returned rw', w'))
  /\ (forall enc rw, exists rw' w',
        httptransport.ServeHTTP
          (httptransport.NewServer
             (makeCountEndpoint svc) decodCountRequest enc) rw r w
        = (Returned rw', w')).
Proof.
  split; [|split; [|split]].
  - intros H. destruct (decodeUppercaseRequest_ok _ _ _ H) as [req ->].
    destruct (Uppercase svc ctx' (uppercaseRequest_S req) w)
      as [[v err] w'] eqn:E.
    rewrite (makeUppercaseEndpoint_run _ _ _ _ _ _ _ E). eauto.
  - intros H. destruct (decodCountRequest_ok _ _ _ H) as [req ->].
    destruct (Count svc ctx' (countRequest_S req) w) as [n w'] eqn:E.
    rewrite (makeCountEndpoint_run _ _ _ _ _ _ E). eauto.
  - intros enc rw.
    unfold httptransport.ServeHTTP, httptransport.NewServer.
    cbn [httptransport.dec httptransport.e httptransport.enc].
    destruct (decodeUppercaseRequest (http.Context r) r)
      as [x [err|]] eqn:D; [unfold ret; eauto|].
    destruct (decodeUppercaseRequest_ok _ _ _ D) as [req ->].
    destruct (Uppercase svc (http.Context r) (uppercaseRequest_S req) w)
      as [[v err] w'] eqn:E.
    rewrite (bind_run _ _ _ _ _ (makeUppercaseEndpoint_run _ _ _ _ _ _ _ E)).
    destruct (enc _ _ _) as [rw' [e|]]; unfold ret; eauto.
  - intros enc rw.
    unfold httptransport.ServeHTTP, httptransport.NewServer.
    cbn [httptransport.dec httptransport.e httptransport.enc].
    destruct (decodCountRequest (http.Context r) r)
      as [x [err|]] eqn:D; [unfold ret; eauto|].
    destruct (decodCountRequest_ok _ _ _ D) as [req ->].
    destruct (Count svc (http.Context r) (countRequest_S req) w)
      as [n w'] eqn:E.
    rewrite (bind_run _ _ _ _ _ (makeCountEndpoint_run _ _ _ _ _ _ E)).
    destruct (enc _ _ _) as [rw' [e|]]; unfold ret; eauto.
Qed.

End WithDecoder.

(** ** The JSON form of the responses *)

Lemma members_uppercaseResponse (v err : string) :
  json.members
    (any_uppercaseResponse
       {| uppercaseResponse_V := v; uppercaseResponse_Err := err |})
  = if String.eqb err ""
    then [("v", json.JString v)]
    else [("v", json.JString v); ("err", json.JString err)].
Proof.
  unfold json.members, json.structFields, json.encodedFields.
  cbn. destruct (String.eqb err ""); reflexivity.
Qed.

Lemma Marshal_members (x : any) (fs : list json.field) :
  json.structFields x = Some fs ->
  json.Marshal x = json.encodeObject (json.members x).
Proof.
  intros H. unfold json.Marshal, json.members. now rewrite H.
Qed.

(** C5: the JSON object of an [uppercaseResponse] has the one member [v]
    when [Err] is empty, and the members [v] and [err] otherwise; the
    response of the program to a request has no [err] member when the call
    succeeded, and the member [err] with the text "empty string" when it
    failed.  The three scenarios: the body with [s] = "hello" is answered
    on the uppercase route, with the status 200, by the JSON encoding of
    the object with [v] = "HELLO" alone; the body with an empty [s] by the
    encoding of the object with an empty [v] and [err] = "empty string";
    and the body with [s] = "hello" is answered on the count route by the
    encoding of the object with [V] = 5.  What is written is the encoding
    followed by the newline with which the encoder ends a value. *)
Theorem responses_as_json {tables : unicode.CaseRanges} :
  (forall v err,
      json.members
        (any_uppercaseResponse
           {| uppercaseResponse_V := v; uppercaseResponse_Err := err |})
      = (if String.eqb err ""
         then [("v", json.JString v)]
         else [("v", json.JString v); ("err", json.JString err)])
      /\ json.Marshal
           (any_uppercaseResponse
              {| uppercaseResponse_V := v; uppercaseResponse_Err := err |})
         = json.encodeObject
             (if String.eqb err ""
              then [("v", json.JString v)]
              else [("v", json.JString v); ("err", json.JString err)]))
  /\ (forall ctx req w, exists resp,
        makeUppercaseEndpoint main0.svc ctx (any_uppercaseRequest req) w
        = (Returned (resp, None), w)
        /\ json.members resp
           = if String.eqb (uppercaseRequest_S req) ""
             then [("v", json.JString "");
                   ("err", json.JString "empty string")]
             else [("v", json.JString
                           (strings.ToUpper (uppercaseRequest_S req)))])
  /\ (forall w, exists resp,
        json.Marshal resp = "{" ++ jstr "v" ++ ":" ++ jstr "HELLO" ++ "}"
        /\ httptransport.ServeHTTP
             (@main0.uppercaseHandler tables jsondec.decoder)
             http.NewResponseWriter (http.Post "/uppercase" body_hello) w
           = (Returned (ok_response (json.Marshal resp ++ json.newline)), w))
  /\ (forall w, exists resp,
        json.Marshal resp
        = "{" ++ jstr "v" ++ ":" ++ jstr "" ++ ","
              ++ jstr "err" ++ ":" ++ jstr "empty string" ++ "}"
        /\ httptransport.ServeHTTP
             (@main0.uppercaseHandler tables jsondec.decoder)
             http.NewResponseWriter (http.Post "/uppercase" body_empty) w
           = (Returned (ok_response (json.Marshal resp ++ json.newline)), w))
  /\ (forall w, exists resp,
        json.Marshal resp = "{" ++ jstr "V" ++ ":5}"
        /\ httptransport.ServeHTTP
             (@main0.countHandler tables jsondec.decoder)
             http.NewResponseWriter (http.Post "/count" body_hello) w
           = (Returned (ok_response (json.Marshal resp ++ json.newline)), w)).
Proof.
  split; [|split; [|split; [|split]]].
  - intros v err. split; [apply members_uppercaseResponse|].
    erewrite Marshal_members by reflexivity.
    now rewrite members_uppercaseResponse.
  - intros ctx req w.
    rewrite makeUppercaseEndpoint_main0. eexists. split; [reflexivity|].
    destruct (String.eqb (uppercaseRequest_S req) ""); reflexivity.
  - intros w.
    exists (any_uppercaseResponse
              {| uppercaseResponse_V := "HELLO"; uppercaseResponse_Err := "" |}).
    split; vm_compute; reflexivity.
  - intros w.
    exists (any_uppercaseResponse
              {| uppercaseResponse_V := "";
                 uppercaseResponse_Err := "empty string" |}).
    split; vm_compute; reflexivity.
  - intros w.
    exists (any_countResponse {| countResponse_V := 5 |}).
    split; vm_compute; reflexivity.
Qed.

(** ** The JSON scanner always answers *)

Lemma skipSpace_length (s : string) :
  (String.length (jsondec.skipSpace s) <= String.length s)%nat.
Proof.
  induction s as [|c s IH]; cbn [jsondec.skipSpace String.length]; [lia|].
  destruct (jsondec.isSpace c); cbn [String.length]; lia.
Qed.

Lemma emit_inr (bytes : string) (r : jsondec.result (string * string))
    (content rest : string) :
  jsondec.emit bytes r = inr (content, rest) ->
  exists content', r = inr (content', rest).
Proof.
  destruct r as [err|[c0 r0]]; cbn; intros H; inversion H; eauto.
Qed.

(** Case analysis on the first [match] of a hypothesis. *)
Ltac break_hyp H :=
  match type of H with
  | context [match ?x with _ => _ end] => destruct x eqn:?
  end.

Lemma stringLiteral_shorter (n : nat) :
  forall (k : nat) (s content rest : string),
    (String.length s <= n)%nat ->
    jsondec.stringLiteral k s = inr (content, rest) ->
    (String.length rest < String.length s)%nat.
Proof.
  induction n as [|n IH]; intros k s content rest Hn H.
  - destruct s; [discriminate | cbn [String.length] in Hn; lia].
  - destruct s as [|c s1]; [discriminate|].
    cbn [String.length] in Hn.
    assert (forall k' t content', (String.length t <= String.length s1)%nat ->
              jsondec.stringLiteral k' t = inr (content', rest) ->
              (String.length rest < String.length (String c s1))%nat) as Rec.
    { intros k' t content' Ht E. apply IH in E; [|lia].
      cbn [String.length]. lia. }
    cbn [jsondec.stringLiteral] in H.
    repeat (break_hyp H; subst; cbn [String.length] in *; try discriminate);
      try (apply emit_inr in H as [content' H]);
      try (eapply Rec; [|eassumption]; cbn [String.length]; lia);
      try (inversion H; subst; cbn [String.length]; lia).
Qed.

Lemma number_shorter (s : string) :
  forall st rest,
    jsondec.number st s = inr rest ->
    (String.length rest <= String.length s)%nat.
Proof.
  induction s as [|c s IH]; intros st rest H.
  - cbn in H. destruct st; inversion H; subst; cbn; lia.
  - cbn [jsondec.number] in H.
    repeat (break_hyp H; subst; try discriminate);
      try (apply IH in H; cbn [String.length]; lia);
      try (inversion H; subst; cbn [String.length]; lia).
Qed.

Lemma literal_shorter (expected : string) :
  forall s rest,
    jsondec.literal expected s = inr rest ->
    (String.length rest <= String.length s)%nat.
Proof.
  induction expected as [|x e IH]; intros s rest H; cbn in H.
  - inversion H; subst; lia.
  - destruct s as [|c s]; [discriminate|].
    destruct (Ascii.eqb c x); [|discriminate].
    apply IH in H. cbn [String.length]. lia.
Qed.

Lemma withValue_shrinks (v : jsondec.value) (c : ascii) (s' s : string)
    (r : jsondec.result string) :
  (forall rest, r = inr rest -> (String.length rest <= String.length s')%nat) ->
  (String.length s' < String.length s)%nat ->
  shrinks s (Some (jsondec.withValue v r)).
Proof.
  intros H Hs. destruct r as [err|rest]; cbn; [exact I|].
  specialize (H rest eq_refl). lia.
Qed.

Lemma skipSpace_cons (s : string) (c : ascii) (s' : string) :
  jsondec.skipSpace s = String c s' ->
  (String.length s' < String.length s)%nat.
Proof.
  intros H. pose proof (skipSpace_length s) as L. rewrite H in L.
  cbn [String.length] in L. lia.
Qed.

Lemma parse_total (fuel : nat) :
  (forall d s, (2 * String.length s < fuel)%nat ->
     shrinks s (jsondec.parseValue fuel d s))
  /\ (forall d s acc, (2 * String.length s + 1 < fuel)%nat ->
     shrinks s (jsondec.parseElements fuel d s acc))
  /\ (forall d s acc, (2 * String.length s + 1 < fuel)%nat ->
     shrinks s (jsondec.parseMembers fuel d s acc)).
Proof.
  induction fuel as [|fuel (IHv & IHe & IHm)].
  - repeat split; intros; lia.
  - split; [|split].
    + intros d s Hf. cbn [jsondec.parseValue].
      destruct (jsondec.skipSpace s) as [|c s'] eqn:Es; [exact I|].
      apply skipSpace_cons in Es.
      repeat match goal with
      | |- shrinks _ (if ?b then _ else _) => destruct b
      end; try exact I.
      * destruct (jsondec.skipSpace s') as [|c1 s1] eqn:Es'; [exact I|].
        apply skipSpace_cons in Es'.
        destruct (b2z c1 =? 125); [cbn; lia|].
        pose proof (IHm (d + 1) s' [] ltac:(lia)) as Hm.
        destruct (jsondec.parseMembers fuel (d + 1) s' []) as [[err|[ms rest]]|];
          cbn in *; try exact I; try lia.
      * destruct (jsondec.skipSpace s') as [|c1 s1] eqn:Es'; [exact I|].
        apply skipSpace_cons in Es'.
        destruct (b2z c1 =? 93); [cbn; lia|].
        pose proof (IHe (d + 1) s' [] ltac:(lia)) as He.
        destruct (jsondec.parseElements fuel (d + 1) s' []) as [[err|[vs rest]]|];
          cbn in *; try exact I; try lia.
      * destruct (jsondec.stringLiteral 0 s') as [err|[str rest]] eqn:El;
          [exact I|].
        apply (stringLiteral_shorter _ _ _ _ _ (le_n _)) in El. cbn. lia.
      * apply (withValue_shrinks _ c s'); [apply number_shorter | lia].
      * apply (withValue_shrinks _ c s'); [apply number_shorter | lia].
      * apply (withValue_shrinks _ c s'); [apply number_shorter | lia].
      * apply (withValue_shrinks _ c s'); [apply literal_shorter | lia].
      * apply (withValue_shrinks _ c s'); [apply literal_shorter | lia].
      * apply (withValue_shrinks _ c s'); [apply literal_shorter | lia].
    + intros d s acc Hf. cbn [jsondec.parseElements].
      pose proof (IHv d s ltac:(lia)) as Hv.
      destruct (jsondec.parseValue fuel d s) as [[err|[v rest]]|];
        cbn in Hv; try exact I; try contradiction.
      destruct (jsondec.skipSpace rest) as [|c rest'] eqn:Es; [exact I|].
      apply skipSpace_cons in Es.
      destruct (b2z c =? 44).
      * pose proof (IHe d rest' (v :: acc) ltac:(lia)) as He.
        destruct (jsondec.parseElements fuel d rest' (v :: acc))
          as [[err|[vs rest'']]|]; cbn in *; try exact I; try lia.
      * destruct (b2z c =? 93); cbn; try exact I; lia.
    + intros d s acc Hf. cbn [jsondec.parseMembers].
      destruct (jsondec.skipSpace s) as [|c s1] eqn:Es; [exact I|].
      apply skipSpace_cons in Es.
      destruct (b2z c =? 34); [|exact I].
      destruct (jsondec.stringLiteral 0 s1) as [err|[key rest]] eqn:El;
        [exact I|].
      apply (stringLiteral_shorter _ _ _ _ _ (le_n _)) in El.
      destruct (jsondec.skipSpace rest) as [|c2 rest2] eqn:Es2; [exact I|].
      apply skipSpace_cons in Es2.
      destruct (b2z c2 =? 58); [|exact I].
      pose proof (IHv d rest2 ltac:(lia)) as Hv.
      destruct (jsondec.parseValue fuel d rest2) as [[err|[v rest3]]|];
        cbn in Hv; try exact I; try contradiction.
      destruct (jsondec.skipSpace rest3) as [|c3 rest4] eqn:Es3; [exact I|].
      apply skipSpace_cons in Es3.
      destruct (b2z c3 =? 44).
      * pose proof (IHm d rest4 ((key, v) :: acc) ltac:(lia)) as Hm.
        destruct (jsondec.parseMembers fuel d rest4 ((key, v) :: acc))
          as [[err|[ms rest5]]|]; cbn in *; try exact I; try lia.
      * destruct (b2z c3 =? 125); cbn; try exact I; lia.
Qed.

(** The fuel [readValue] starts with is enough. *)
Lemma readValue_has_fuel (body : string) :
  jsondec.parseValue (2 * String.length (jsondec.skipSpace body) + 1) 0
    (jsondec.skipSpace body) <> None.
Proof.
  pose proof (proj1 (parse_total
                       (2 * String.length (jsondec.skipSpace body) + 1))
                0 (jsondec.skipSpace body) ltac:(lia)) as H.
  destruct (jsondec.parseValue _ 0 _); [discriminate | contradiction].
Qed.

(** ** The middlewares *)

(** Each middleware returns what the service it wraps returned when it was
    called, which is after the first reading of the clock; this holds
    whatever the logger does and whatever it answers. *)
Lemma loggingMiddleware_Uppercase_result (mw : loggingMiddleware.t)
    (ctx : context.Context) (s : string) (w : World) :
  fst (loggingMiddleware.Uppercase mw ctx s w)
  = fst (Uppercase (loggingMiddleware.next mw) ctx s (snd (time.Now w))).
Proof.
  unfold loggingMiddleware.Uppercase, bind.
  destruct (time.Now w) as [begin w1]. cbn [snd].
  destruct (Uppercase (loggingMiddleware.next mw) ctx s w1) as [[output err] w2].
  destruct (time.Since begin w2) as [took w3].
  destruct (log.Log (loggingMiddleware.logger mw) _ w3) as [e w4].
  reflexivity.
Qed.

Lemma loggingMiddleware_Count_result (mw : loggingMiddleware.t)
    (ctx : context.Context) (s : string) (w : World) :
  fst (loggingMiddleware.Count mw ctx s w)
  = fst (Count (loggingMiddleware.next mw) ctx s (snd (time.Now w))).
Proof.
  unfold loggingMiddleware.Count, bind.
  destruct (time.Now w) as [begin w1]. cbn [snd].
  destruct (Count (loggingMiddleware.next mw) ctx s w1) as [n w2].
  destruct (time.Since begin w2) as [took w3].
  destruct (log.Log (loggingMiddleware.logger mw) _ w3) as [e w4].
  reflexivity.
Qed.

Lemma instrumentingMiddleware_Uppercase_result (mw : instrumentingMiddleware.t)
    (ctx : context.Context) (s : string) (w : World) :
  fst (instrumentingMiddleware.Uppercase mw ctx s w)
  = fst (Uppercase (instrumentingMiddleware.next mw) ctx s
           (snd (time.Now w))).
Proof.
  unfold instrumentingMiddleware.Uppercase, bind.
  destruct (time.Now w) as [begin w1]. cbn [snd].
  destruct (Uppercase (instrumentingMiddleware.next mw) ctx s w1)
    as [[output err] w2].
  reflexivity.
Qed.

Lemma instrumentingMiddleware_Count_result (mw : instrumentingMiddleware.t)
    (ctx : context.Context) (s : string) (w : World) :
  fst (instrumentingMiddleware.Count mw ctx s w)
  = fst (Count (instrumentingMiddleware.next mw) ctx s (snd (time.Now w))).
Proof.
  unfold instrumentingMiddleware.Count, bind.
  destruct (time.Now w) as [begin w1]. cbn [snd].
  destruct (Count (instrumentingMiddleware.next mw) ctx s w1) as [n w2].
  reflexivity.
Qed.

(** C6: the service of [main], which is [stringService{}] inside the logging
    middleware inside the instrumenting middleware, returns on every input,
    in every state of the process (whether the log sink works or not), the
    value and the error of [stringService.Uppercase] and the integer of
    [stringService.Count]. *)
Theorem middlewares_are_transparent {tables : unicode.CaseRanges}
    (ctx : context.Context) (s : string) (w : World) :
  fst (Uppercase main.svc ctx s w)
  = stringService.Uppercase stringService.new ctx s
  /\ fst (Count main.svc ctx s w)
     = stringService.Count stringService.new ctx s
  /\ fst (Uppercase main.svc ctx s w) = fst (Uppercase main0.svc ctx s w)
  /\ fst (Count main.svc ctx s w) = fst (Count main0.svc ctx s w).
Proof.
  assert (fst (Uppercase main.svc ctx s w)
          = stringService.Uppercase stringService.new ctx s) as HU.
  { unfold main.svc. cbn [Uppercase StringService_of_instrumentingMiddleware].
    rewrite instrumentingMiddleware_Uppercase_result.
    cbn [instrumentingMiddleware.next Uppercase
         StringService_of_loggingMiddleware].
    rewrite loggingMiddleware_Uppercase_result. reflexivity. }
  assert (fst (Count main.svc ctx s w)
          = stringService.Count stringService.new ctx s) as HC.
  { unfold main.svc. cbn [Count StringService_of_instrumentingMiddleware].
    rewrite instrumentingMiddleware_Count_result.
    cbn [instrumentingMiddleware.next Count
         StringService_of_loggingMiddleware].
    rewrite loggingMiddleware_Count_result. reflexivity. }
  repeat split; assumption.
Qed.

(** ** The statements at concrete inputs *)

(** [Uppercase] on "hello", with the Latin-1 case table. *)
Lemma Uppercase_nonempty_hello :
  @stringService.Uppercase latin1 stringService.new context.Background "hello"
  = ("HELLO", None).
Proof.
  destruct (@Uppercase_nonempty latin1 stringService.new context.Background
              "hello") as [E _]; [discriminate|].
  exact E.
Defined.

(** [Uppercase] twice on a string with a letter outside ASCII, with the
    Latin-1 case table. *)
Example Uppercase_twice_latin1 :
  exists u,
    @stringService.Uppercase latin1 stringService.new context.Background
      "héllo" = (u, None)
    /\ u <> ""
    /\ @stringService.Uppercase latin1 stringService.new context.Background u
       = (u, None).
Proof.
  apply (@Uppercase_idempotent_for_table latin1 latin1_valid latin1_upper).
  discriminate.
Qed.

(** [Uppercase] twice on a string with a letter outside ASCII, with the
    case table of package [unicode]. *)
Lemma Uppercase_idempotent_unicode :
  exists u,
    @stringService.Uppercase unicode_letter.CaseRanges stringService.new
      context.Background "héllo" = (u, None)
    /\ u <> ""
    /\ @stringService.Uppercase unicode_letter.CaseRanges stringService.new
         context.Background u = (u, None).
Proof.
  apply (Uppercase_idempotent stringService.new context.Background "héllo").
  discriminate.
Defined.

(** The table maps letter by letter: the sharp s, which has no upper-case
    letter of its own, stays as it is. *)
Example Uppercase_unicode_letters :
  @stringService.Uppercase unicode_letter.CaseRanges stringService.new
    context.Background "héllo, straße"
  = ("HÉLLO, STRAßE", None).
Proof. vm_compute. reflexivity. Qed.

(** The decoders on a body that is cut short and on a well-formed body, with
    the decoder of [encoding/json]. *)
Lemma decoders_report_failure_malformed :
  (@decodeUppercaseRequest jsondec.decoder context.Background
     (http.Post "/uppercase" body_malformed)
   = (any_nil,
      Some (jsondec.syntaxError "looking for beginning of value"))
   /\ forall w,
       httptransport.ServeHTTP
         (httptransport.NewServer
            panickingEndpoint (@decodeUppercaseRequest jsondec.decoder)
            encodeResponse)
         http.NewResponseWriter (http.Post "/uppercase" body_malformed) w
       = (Returned
            (httptransport.DefaultErrorEncoder context.Background
               (jsondec.syntaxError "looking for beginning of value")
               http.NewResponseWriter), w))
  /\ @decodCountRequest jsondec.decoder context.Background
       (http.Post "/count" body_hello)
     = (any_countRequest {| countRequest_S := "hello" |}, None).
Proof.
  destruct (@decoders_report_failure jsondec.decoder context.Background
              (http.Post "/uppercase" body_malformed)) as (Hfail & _).
  destruct (@decoders_report_failure jsondec.decoder context.Background
              (http.Post "/count" body_hello)) as (_ & _ & _ & Hok).
  destruct (Hfail zero_uppercaseRequest
              (jsondec.syntaxError "looking for beginning of value"))
    as [Hd Hs]; [vm_compute; reflexivity|].
  split; [split|].
  - exact Hd.
  - intros w. apply Hs.
  - apply Hok. vm_compute. reflexivity.
Defined.

(** The endpoints on the requests their decoders produce from the body of
    the scenarios, with the decoder of [encoding/json]. *)
Lemma paired_request_never_panics_hello :
  (exists response w',
      makeUppercaseEndpoint (@main0.svc latin1) context.Background
        (any_uppercaseRequest {| uppercaseRequest_S := "hello" |}) world0
      = (Returned (response, None), w'))
  /\ (exists response w',
        makeCountEndpoint (@main0.svc latin1) context.Background
          (any_countRequest {| countRequest_S := "hello" |}) world0
        = (Returned (response, None), w')).
Proof.
  split.
  - destruct (@paired_request_never_panics jsondec.decoder (@main0.svc latin1)
                context.Background context.Background
                (http.Post "/uppercase" body_hello)
                (any_uppercaseRequest {| uppercaseRequest_S := "hello" |})
                world0) as (H & _).
    apply H. vm_compute. reflexivity.
  - destruct (@paired_request_never_panics jsondec.decoder (@main0.svc latin1)
                context.Background context.Background
                (http.Post "/count" body_hello)
                (any_countRequest {| countRequest_S := "hello" |})
                world0) as (_ & H & _).
    apply H. vm_compute. reflexivity.
Defined.

(** An endpoint given the request of the other route panics: the type
    assertion is a real check. *)
Example mismatched_request_panics :
  makeCountEndpoint (@main0.svc latin1) context.Background
    (any_uppercaseRequest {| uppercaseRequest_S := "hello" |}) world0
  = (Panicked
       "interface conversion: interface {} is main.uppercaseRequest, not main.countRequest",
     world0).
Proof. reflexivity. Qed.

(** Scenario 4 with the middlewares in place: a body that is not JSON is
    answered with the status 500, and nothing is logged or counted. *)
Example malformed_body_leaves_no_trace :
  httptransport.ServeHTTP (@main.uppercaseHandler latin1 jsondec.decoder)
    http.NewResponseWriter (http.Post "/uppercase" body_malformed) world0
  = (Returned
       {| http.Header := [("Content-Type", "text/plain; charset=utf-8")];
          http.Status := Some http.StatusInternalServerError;
          http.Written := "invalid character looking for beginning of value" |},
     world0).
Proof. reflexivity. Qed.

(** The same scenarios through the service of [main.go]: the bodies are
    those of the service without middleware. *)
Example decorated_scenarios :
  fst (httptransport.ServeHTTP (@main.uppercaseHandler latin1 jsondec.decoder)
         http.NewResponseWriter (http.Post "/uppercase" body_hello) world0)
  = Returned
      (ok_response ("{" ++ jstr "v" ++ ":" ++ jstr "HELLO" ++ "}" ++ json.newline))
  /\ fst (httptransport.ServeHTTP (@main.countHandler latin1 jsondec.decoder)
            http.NewResponseWriter (http.Post "/count" body_hello) world0)
     = Returned (ok_response ("{" ++ jstr "V" ++ ":5}" ++ json.newline)).
Proof. split; vm_compute; reflexivity. Qed.

(** * Further properties of the program *)

(** ** [Uppercase] and [Count] on ASCII strings *)

Lemma ToUpper_ascii {tables : unicode.CaseRanges} (s : string) :
  allASCII s = true -> strings.ToUpper s = strings.upperASCII s.
Proof.
  intros Hs. unfold strings.ToUpper. rewrite scan_spec, Hs. cbn [orb negb].
  destruct (anyLower s) eqn:Hl; cbn [negb]; [reflexivity|].
  symmetry. now apply upperASCII_no_lower.
Qed.

Lemma isLower_range (b : Z) :
  strings.isLower b = true <-> 97 <= b <= 122.
Proof.
  unfold strings.isLower.
  destruct (Z.leb_spec 97 b); destruct (Z.leb_spec b 122); cbn [andb];
    split; intros; try lia; try reflexivity; discriminate.
Qed.

(** The byte [upperASCII] writes for a byte of the input. *)
Lemma upper_byte_value (c : ascii) :
  b2z c < 128 ->
  b2z (if strings.isLower (b2z c) then z2b (b2z c - (97 - 65)) else c)
  = if strings.isLower (b2z c) then b2z c - 32 else b2z c.
Proof.
  intros Hc. pose proof (b2z_range c) as Hr.
  destruct (strings.isLower (b2z c)) eqn:E; [|reflexivity].
  apply isLower_range in E. rewrite b2z_z2b by lia. lia.
Qed.

Lemma upperASCII_length (s : string) :
  String.length (strings.upperASCII s) = String.length s.
Proof.
  induction s as [|c s IH]; cbn [strings.upperASCII String.length];
    [reflexivity | now rewrite IH].
Qed.

Lemma upperASCII_allASCII (s : string) :
  allASCII s = true -> allASCII (strings.upperASCII s) = true.
Proof.
  induction s as [|c s IH]; cbn [strings.upperASCII allASCII]; [reflexivity|].
  intros H. apply andb_true_iff in H as [Hc Hs].
  apply Z.ltb_lt in Hc. unfold utf8.RuneSelf in *.
  rewrite IH by assumption. rewrite andb_true_r.
  apply Z.ltb_lt. rewrite upper_byte_value by assumption.
  destruct (strings.isLower (b2z c)) eqn:E; [|assumption].
  apply isLower_range in E. lia.
Qed.

Lemma upperASCII_anyLower (s : string) :
  allASCII s = true -> anyLower (strings.upperASCII s) = false.
Proof.
  induction s as [|c s IH]; cbn [strings.upperASCII allASCII anyLower];
    [reflexivity|].
  intros H. apply andb_true_iff in H as [Hc Hs].
  apply Z.ltb_lt in Hc. unfold utf8.RuneSelf in *.
  rewrite IH by assumption. rewrite orb_false_r.
  rewrite upper_byte_value by assumption.
  destruct (strings.isLower (b2z c)) eqn:E; [|assumption].
  apply isLower_range in E.
  destruct (strings.isLower (b2z c - 32)) eqn:E'; [|reflexivity].
  apply isLower_range in E'. lia.
Qed.

Lemma upperASCII_app (s t : string) :
  strings.upperASCII (s ++ t) = strings.upperASCII s ++ strings.upperASCII t.
Proof.
  induction s as [|c s IH]; cbn [strings.upperASCII String.append];
    [reflexivity | now rewrite IH].
Qed.

Lemma allASCII_app (s t : string) :
  allASCII (s ++ t) = allASCII s && allASCII t.
Proof.
  induction s as [|c s IH]; cbn [allASCII String.append]; [reflexivity|].
  now rewrite IH, andb_assoc.
Qed.

Lemma upperASCII_idem (s : string) :
  allASCII s = true ->
  strings.upperASCII (strings.upperASCII s) = strings.upperASCII s.
Proof.
  intros Hs. apply upperASCII_no_lower. now apply upperASCII_anyLower.
Qed.

Lemma append_length (s t : string) :
  String.length (s ++ t) = (String.length s + String.length t)%nat.
Proof.
  induction s as [|c s IH]; cbn [String.append String.length];
    [reflexivity | now rewrite IH].
Qed.

Lemma length_zero_iff (s : string) : String.length s = 0%nat <-> s = "".
Proof. destruct s; cbn; split; intros H; try reflexivity; discriminate. Qed.

Lemma Uppercase_value {tables : unicode.CaseRanges} (x : stringService.t)
    (ctx : context.Context) (s : string) :
  fst (stringService.Uppercase x ctx s) = strings.ToUpper s.
Proof.
  unfold stringService.Uppercase.
  destruct (String.eqb s "") eqn:E; [|reflexivity].
  apply String.eqb_eq in E. subst s. reflexivity.
Qed.

(** On an ASCII string the result of [Uppercase] is the same under every case
    table: the letters [a] to [z] are moved to [A] to [Z], byte by byte, and
    the other bytes are kept. *)
Theorem Uppercase_ascii_any_host (tables1 tables2 : unicode.CaseRanges)
    (x : stringService.t) (ctx : context.Context) (s : string) :
  allASCII s = true ->
  @stringService.Uppercase tables1 x ctx s
  = @stringService.Uppercase tables2 x ctx s
  /\ fst (@stringService.Uppercase tables1 x ctx s) = strings.upperASCII s.
Proof.
  intros Hs. split.
  - unfold stringService.Uppercase.
    destruct (String.eqb s ""); [reflexivity|].
    now rewrite !ToUpper_ascii.
  - rewrite Uppercase_value. now apply ToUpper_ascii.
Qed.

(** On an ASCII string the value of [Uppercase] has the [Count] of its
    input, is ASCII, and has no lower-case letter left. *)
Theorem Uppercase_ascii_shape {tables : unicode.CaseRanges}
    (x : stringService.t) (ctx : context.Context) (s : string) :
  allASCII s = true ->
  stringService.Count x ctx (fst (stringService.Uppercase x ctx s))
  = stringService.Count x ctx s
  /\ allASCII (fst (stringService.Uppercase x ctx s)) = true
  /\ anyLower (fst (stringService.Uppercase x ctx s)) = false.
Proof.
  intros Hs. rewrite Uppercase_value, ToUpper_ascii by assumption.
  unfold stringService.Count. rewrite upperASCII_length.
  repeat split; [now apply upperASCII_allASCII | now apply upperASCII_anyLower].
Qed.

(** On ASCII strings the value of [Uppercase] goes through concatenation:
    the value for [s ++ t] is the value for [s] followed by the value for
    [t]; and the [Count] of [s ++ t] is the sum of the two counts. *)
Theorem Uppercase_ascii_concat {tables : unicode.CaseRanges}
    (x : stringService.t) (ctx : context.Context) (s t : string) :
  allASCII s = true -> allASCII t = true ->
  fst (stringService.Uppercase x ctx (s ++ t))
  = fst (stringService.Uppercase x ctx s)
    ++ fst (stringService.Uppercase x ctx t)
  /\ stringService.Count x ctx (s ++ t)
     = stringService.Count x ctx s + stringService.Count x ctx t.
Proof.
  intros Hs Ht. split.
  - rewrite !Uppercase_value.
    rewrite !ToUpper_ascii; try assumption.
    + apply upperASCII_app.
    + now rewrite allASCII_app, Hs, Ht.
  - unfold stringService.Count. rewrite append_length. lia.
Qed.

(** On an ASCII string [Uppercase] applied twice is [Uppercase] applied
    once, under every case table. *)
Theorem Uppercase_ascii_idempotent {tables : unicode.CaseRanges}
    (x : stringService.t) (ctx : context.Context) (s : string) :
  allASCII s = true ->
  stringService.Uppercase x ctx (fst (stringService.Uppercase x ctx s))
  = stringService.Uppercase x ctx s.
Proof.
  intros Hs. rewrite Uppercase_value, ToUpper_ascii by assumption.
  unfold stringService.Uppercase.
  destruct (String.eqb s "") eqn:E.
  - apply String.eqb_eq in E. subst s. reflexivity.
  - assert (String.eqb (strings.upperASCII s) "" = false) as ->.
    { apply String.eqb_neq. intros H. apply String.eqb_neq in E. apply E.
      apply length_zero_iff. rewrite <- upperASCII_length, H. reflexivity. }
    rewrite !ToUpper_ascii; try assumption.
    + now rewrite upperASCII_idem.
    + now apply upperASCII_allASCII.
Qed.

(** [Uppercase] fails on exactly the strings whose [Count] is zero. *)
Theorem Uppercase_fails_iff_Count_zero {tables : unicode.CaseRanges}
    (x : stringService.t) (ctx : context.Context) (s : string) :
  snd (stringService.Uppercase x ctx s) = Some ErrEmpty
  <-> stringService.Count x ctx s = 0.
Proof.
  unfold stringService.Uppercase, stringService.Count.
  destruct (String.eqb s "") eqn:E; cbn [snd].
  - apply String.eqb_eq in E. subst s. split; reflexivity.
  - apply String.eqb_neq in E. split; [discriminate|].
    intros H. exfalso. apply E. apply length_zero_iff. lia.
Qed.

(** ** The length of the result *)

Lemma AppendRune_length (r : rune) :
  (1 <= List.length (utf8.AppendRune r) <= 4)%nat.
Proof.
  unfold utf8.AppendRune.
  repeat match goal with
  | |- context [if ?b then _ else _] => destruct b
  end; cbn [List.length]; lia.
Qed.

Lemma string_of_bytes_length (l : list Z) :
  String.length (string_of_bytes l) = List.length l.
Proof.
  induction l as [|b l IH]; cbn [string_of_bytes String.length List.length];
    [reflexivity | now rewrite IH].
Qed.

Lemma range_from_length (s : string) (k : nat) :
  (List.length (range_from k s) <= String.length s)%nat.
Proof.
  revert k. induction s as [|c s IH]; intros k;
    cbn [range_from String.length List.length]; [lia|].
  destruct k as [|k]; [|specialize (IH k); lia].
  destruct (utf8.DecodeRuneInString (String c s)) as [r w].
  cbn [List.length]. specialize (IH (Nat.pred w)). lia.
Qed.

Lemma Map_runes_length (f : rune -> rune) (cs : list rune) :
  (String.length (strings.Map_runes f cs) <= 4 * List.length cs)%nat.
Proof.
  induction cs as [|c cs IH]; cbn [strings.Map_runes List.length String.length];
    [lia|].
  rewrite append_length.
  destruct (0 <=? f c).
  - rewrite string_of_bytes_length.
    pose proof (AppendRune_length (f c)). lia.
  - cbn [String.length]. lia.
Qed.

Lemma ToUpper_length {tables : unicode.CaseRanges} (s : string) :
  (String.length (strings.ToUpper s) <= 4 * String.length s)%nat.
Proof.
  rewrite ToUpper_is_transform.
  unfold uppercase_transform, strings.Map, range_string.
  pose proof (Map_runes_length unicode.ToUpper (range_from 0 s)).
  pose proof (range_from_length s 0). lia.
Qed.

(** Whatever the case table of the host, the value of [Uppercase] has at
    most four times the [Count] of its input. *)
Theorem Count_of_Uppercase_bound {tables : unicode.CaseRanges}
    (x : stringService.t) (ctx : context.Context) (s : string) :
  stringService.Count x ctx (fst (stringService.Uppercase x ctx s))
  <= 4 * stringService.Count x ctx s.
Proof.
  unfold stringService.Count, stringService.Uppercase.
  destruct (String.eqb s ""); cbn [fst String.length].
  - lia.
  - pose proof (ToUpper_length s). lia.
Qed.

(** ** UTF-8: the encoder inverts the decoder *)

(** What the decoder answers, read off the first bytes of the string. *)
Lemma Decode_spec (s : string) :
  let n := Z.of_nat (String.length s) in
  let a0 := at_ s 0 in let a1 := at_ s 1 in
  let a2 := at_ s 2 in let a3 := at_ s 3 in
  let d := utf8.DecodeRuneInString s in
  (n < 1 /\ d = (utf8.RuneError, 0%nat))
  \/ (1 <= n /\ a0 < 128 /\ d = (a0, 1%nat))
  \/ (1 <= n /\ 128 <= a0 /\ d = (utf8.RuneError, 1%nat))
  \/ (2 <= n /\ 0xC2 <= a0 <= 0xDF /\ 0x80 <= a1 <= 0xBF
      /\ d = ((a0 mod 32) * 64 + a1 mod 64, 2%nat))
  \/ (3 <= n /\ 0xE0 <= a0 <= 0xEF /\ 0x80 <= a1 <= 0xBF /\ 0x80 <= a2 <= 0xBF
      /\ (a0 = 0xE0 -> 0xA0 <= a1) /\ (a0 = 0xED -> a1 <= 0x9F)
      /\ d = ((a0 mod 16) * 4096 + (a1 mod 64) * 64 + a2 mod 64, 3%nat))
  \/ (4 <= n /\ 0xF0 <= a0 <= 0xF4 /\ 0x80 <= a1 <= 0xBF /\ 0x80 <= a2 <= 0xBF
      /\ 0x80 <= a3 <= 0xBF
      /\ (a0 = 0xF0 -> 0x90 <= a1) /\ (a0 = 0xF4 -> a1 <= 0x8F)
      /\ d = ((a0 mod 8) * 262144 + (a1 mod 64) * 4096
              + (a2 mod 64) * 64 + a3 mod 64, 4%nat)).
Proof.
  cbv zeta. unfold utf8.DecodeRuneInString.
  pose proof (at_range s 0) as H0. pose proof (at_range s 1) as H1.
  pose proof (at_range s 2) as H2. pose proof (at_range s 3) as H3.
  generalize dependent (at_ s 3). generalize dependent (at_ s 2).
  generalize dependent (at_ s 1). generalize dependent (at_ s 0).
  generalize (Z.of_nat (String.length s)).
  intros n a0 H0 a1 H1 a2 H2 a3 H3.
  rewrite val2, val3, val4.
  destruct (Z.ltb_spec n 1); [left; split; [lia|reflexivity]|].
  right.
  destruct (first_cases a0 H0) as
    [[Hr Hf]|[[Hr Hf]|[[Hr Hf]|[[Hr Hf]|[[Hr Hf]|[[Hr Hf]|[[Hr Hf]|[[Hr Hf]|[Hr Hf]]]]]]]]];
    rewrite Hf.
  all: calc_first.
  all: repeat split_if.
  all: try (left; repeat split; (lia || reflexivity)).
  all: try (right; left; repeat split; (lia || reflexivity)).
  all: try (right; right; left; repeat split; (lia || reflexivity)).
  all: try (right; right; right; left; repeat split; (lia || reflexivity)).
  all: try (right; right; right; right; repeat split; (lia || reflexivity)).
Qed.

Lemma take1 (s : string) :
  1 <= Z.of_nat (String.length s) ->
  exists c0 rest, s = String c0 rest.
Proof. destruct s as [|c0 rest]; cbn; [lia | eauto]. Qed.

Lemma take2 (s : string) :
  2 <= Z.of_nat (String.length s) ->
  exists c0 c1 rest, s = String c0 (String c1 rest).
Proof. destruct s as [|c0 [|c1 rest]]; cbn; try lia; eauto. Qed.

Lemma take3 (s : string) :
  3 <= Z.of_nat (String.length s) ->
  exists c0 c1 c2 rest, s = String c0 (String c1 (String c2 rest)).
Proof. destruct s as [|c0 [|c1 [|c2 rest]]]; cbn; try lia; eauto 6. Qed.

Lemma take4 (s : string) :
  4 <= Z.of_nat (String.length s) ->
  exists c0 c1 c2 c3 rest,
    s = String c0 (String c1 (String c2 (String c3 rest))).
Proof. destruct s as [|c0 [|c1 [|c2 [|c3 rest]]]]; cbn; try lia; eauto 7. Qed.

(** A string is empty, or starts with a byte that does not decode, or starts
    with the encoding of the valid rune the decoder returns. *)
Lemma Decode_cases (s : string) :
  s = ""
  \/ (exists c rest,
        s = String c rest /\ 128 <= b2z c
        /\ utf8.DecodeRuneInString s = (utf8.RuneError, 1%nat))
  \/ (exists r rest,
        utf8.ValidRune r = true
        /\ s = string_of_bytes (utf8.AppendRune r) ++ rest
        /\ utf8.DecodeRuneInString s
           = (r, List.length (utf8.AppendRune r))).
Proof.
  pose proof (Decode_valid s) as Hv.
  destruct (Decode_spec s) as [H|[H|[H|[H|[H|H]]]]]; cbv zeta in H.
  - left. destruct s; [reflexivity | cbn in H; lia].
  - right; right. destruct H as (Hn & Ha & Hd).
    destruct (take1 s Hn) as (c0 & rest & ->).
    change (at_ (String c0 rest) 0) with (b2z c0) in *.
    exists (b2z c0), rest. rewrite Hd in Hv. cbn [fst] in Hv.
    pose proof (b2z_range c0).
    rewrite AppendRune_arith by assumption.
    destruct (Z.ltb_spec (b2z c0) 128); [|lia].
    cbn [string_of_bytes String.append List.length].
    rewrite z2b_b2z. auto.
  - right; left. destruct H as (Hn & Ha & Hd).
    destruct (take1 s Hn) as (c0 & rest & ->).
    change (at_ (String c0 rest) 0) with (b2z c0) in *.
    exists c0, rest. auto.
  - right; right. destruct H as (Hn & Ha0 & Ha1 & Hd).
    destruct (take2 s Hn) as (c0 & c1 & rest & ->).
    change (at_ (String c0 (String c1 rest)) 0) with (b2z c0) in *.
    change (at_ (String c0 (String c1 rest)) 1) with (b2z c1) in *.
    rewrite Hd in Hv. cbn [fst] in Hv. rewrite Hd.
    set (r := b2z c0 mod 32 * 64 + b2z c1 mod 64) in *.
    exists r, rest. split; [assumption|].
    rewrite AppendRune_arith by assumption.
    destruct (Z.ltb_spec r 128); [subst r; zdm|].
    destruct (Z.ltb_spec r 2048); [|subst r; zdm].
    cbn [string_of_bytes String.append List.length].
    replace (192 + r / 64) with (b2z c0) by (subst r; zdm).
    replace (128 + r mod 64) with (b2z c1) by (subst r; zdm).
    rewrite !z2b_b2z. auto.
  - right; right. destruct H as (Hn & Ha0 & Ha1 & Ha2 & HE0 & HED & Hd).
    destruct (take3 s Hn) as (c0 & c1 & c2 & rest & ->).
    set (s := String c0 (String c1 (String c2 rest))) in *.
    change (at_ s 0) with (b2z c0) in *.
    change (at_ s 1) with (b2z c1) in *.
    change (at_ s 2) with (b2z c2) in *.
    rewrite Hd in Hv. cbn [fst] in Hv. rewrite Hd.
    set (r := b2z c0 mod 16 * 4096 + b2z c1 mod 64 * 64 + b2z c2 mod 64) in *.
    exists r, rest. split; [assumption|].
    rewrite AppendRune_arith by assumption.
    destruct (Z.ltb_spec r 128); [subst r; zdm|].
    destruct (Z.ltb_spec r 2048); [subst r; zdm|].
    destruct (Z.ltb_spec r 65536); [|subst r; zdm].
    cbn [string_of_bytes String.append List.length].
    replace (224 + r / 4096) with (b2z c0) by (subst r; zdm).
    replace (128 + r / 64 mod 64) with (b2z c1) by (subst r; zdm).
    replace (128 + r mod 64) with (b2z c2) by (subst r; zdm).
    rewrite !z2b_b2z. auto.
  - right; right.
    destruct H as (Hn & Ha0 & Ha1 & Ha2 & Ha3 & HF0 & HF4 & Hd).
    destruct (take4 s Hn) as (c0 & c1 & c2 & c3 & rest & ->).
    set (s := String c0 (String c1 (String c2 (String c3 rest)))) in *.
    change (at_ s 0) with (b2z c0) in *.
    change (at_ s 1) with (b2z c1) in *.
    change (at_ s 2) with (b2z c2) in *.
    change (at_ s 3) with (b2z c3) in *.
    rewrite Hd in Hv. cbn [fst] in Hv. rewrite Hd.
    set (r := b2z c0 mod 8 * 262144 + b2z c1 mod 64 * 4096
              + b2z c2 mod 64 * 64 + b2z c3 mod 64) in *.
    exists r, rest. split; [assumption|].
    rewrite AppendRune_arith by assumption.
    destruct (Z.ltb_spec r 128); [subst r; zdm|].
    destruct (Z.ltb_spec r 2048); [subst r; zdm|].
    destruct (Z.ltb_spec r 65536); [subst r; zdm|].
    cbn [string_of_bytes String.append List.length].
    replace (240 + r / 262144) with (b2z c0) by (subst r; zdm).
    replace (128 + r / 4096 mod 64) with (b2z c1) by (subst r; zdm).
    replace (128 + r / 64 mod 64) with (b2z c2) by (subst r; zdm).
    replace (128 + r mod 64) with (b2z c3) by (subst r; zdm).
    rewrite !z2b_b2z. auto.
Qed.

(** The decoder on the encoding of a valid rune, whatever follows. *)
Lemma Decode_AppendRune (r : rune) (rest : string) :
  utf8.ValidRune r = true ->
  utf8.DecodeRuneInString (string_of_bytes (utf8.AppendRune r) ++ rest)
  = (r, List.length (utf8.AppendRune r)).
Proof.
  intros Hv. rewrite AppendRune_arith by assumption.
  apply ValidRune_range in Hv.
  destruct (Z.ltb_spec r 128); [|destruct (Z.ltb_spec r 2048);
    [|destruct (Z.ltb_spec r 65536)]];
    cbn [string_of_bytes String.append List.length].
  - rewrite Decode_ascii by (rewrite b2z_z2b; lia).
    rewrite b2z_z2b by lia. reflexivity.
  - rewrite Decode_2 by (rewrite b2z_z2b; zdm).
    rewrite !b2z_z2b by zdm. f_equal. zdm.
  - rewrite Decode_3 by (rewrite ?b2z_z2b; zdm).
    rewrite !b2z_z2b by zdm. f_equal. zdm.
  - rewrite Decode_4 by (rewrite ?b2z_z2b; zdm).
    rewrite !b2z_z2b by zdm. f_equal. zdm.
Qed.

(** The encoding of a valid rune is one to four bytes, the first of which
    is an ASCII byte exactly when the rune is. *)
Lemma AppendRune_shape (r : rune) :
  utf8.ValidRune r = true ->
  (r < 128 /\ utf8.AppendRune r = [r])
  \/ (128 <= r /\
      ((exists b0 b1, utf8.AppendRune r = [b0; b1] /\ 128 <= b0 < 256)
       \/ (exists b0 b1 b2, utf8.AppendRune r = [b0; b1; b2] /\ 128 <= b0 < 256)
       \/ (exists b0 b1 b2 b3,
             utf8.AppendRune r = [b0; b1; b2; b3] /\ 128 <= b0 < 256))).
Proof.
  intros Hv. rewrite AppendRune_arith by assumption.
  apply ValidRune_range in Hv.
  destruct (Z.ltb_spec r 128); [left; auto|right; split; [lia|]].
  destruct (Z.ltb_spec r 2048); [|destruct (Z.ltb_spec r 65536)].
  - left. do 2 eexists. split; [reflexivity|zdm].
  - right; left. do 3 eexists. split; [reflexivity|zdm].
  - right; right. do 4 eexists. split; [reflexivity|zdm].
Qed.

(** Induction over a string rune by rune, as a [range] loop goes. *)
Lemma utf8_ind (P : string -> Prop) :
  P "" ->
  (forall c rest,
      128 <= b2z c ->
      utf8.DecodeRuneInString (String c rest) = (utf8.RuneError, 1%nat) ->
      P rest -> P (String c rest)) ->
  (forall r rest,
      utf8.ValidRune r = true ->
      P rest -> P (string_of_bytes (utf8.AppendRune r) ++ rest)) ->
  forall s, P s.
Proof.
  intros H0 Hbad Hgood s.
  remember (String.length s) as n eqn:Hn.
  revert s Hn. induction n as [n IH] using lt_wf_ind. intros s Hn.
  destruct (Decode_cases s) as [->|[(c & rest & -> & Hc & Hd)|(r & rest & Hv & Hs & Hd)]].
  - exact H0.
  - apply Hbad; try assumption.
    apply (IH (String.length rest)); [subst n; cbn; lia | reflexivity].
  - rewrite Hs. apply Hgood; [assumption|].
    apply (IH (String.length rest)); [|reflexivity].
    subst n. rewrite Hs.
    rewrite append_length.
    destruct (AppendRune_shape r Hv) as [[_ E]|[_ [(b0 & b1 & E & _)|[(b0 & b1 & b2 & E & _)|(b0 & b1 & b2 & b3 & E & _)]]]];
      rewrite E; cbn; lia.
Qed.

(** The encoding of a valid rune as a first byte and the bytes after it. *)
Lemma encoding_cons (r : rune) :
  utf8.ValidRune r = true ->
  exists c0 u,
    string_of_bytes (utf8.AppendRune r) = String c0 u
    /\ String.length u = Nat.pred (List.length (utf8.AppendRune r))
    /\ (r < 128 -> b2z c0 = r /\ u = "")
    /\ (128 <= r -> 128 <= b2z c0 /\ u <> "").
Proof.
  intros Hv.
  destruct (AppendRune_shape r Hv) as [[Hr E]|[Hr [(b0 & b1 & E & Hb)|[(b0 & b1 & b2 & E & Hb)|(b0 & b1 & b2 & b3 & E & Hb)]]]];
    rewrite E; cbn [string_of_bytes List.length Nat.pred];
    do 2 eexists; (split; [reflexivity|]); cbn [String.length];
    (split; [reflexivity|]).
  - apply ValidRune_range in Hv. split; [|lia].
    intros _. split; [apply b2z_z2b; lia | reflexivity].
  - split; [lia|]. intros _. rewrite b2z_z2b by lia. split; [lia|discriminate].
  - split; [lia|]. intros _. rewrite b2z_z2b by lia. split; [lia|discriminate].
  - split; [lia|]. intros _. rewrite b2z_z2b by lia. split; [lia|discriminate].
Qed.

Lemma range_from_skip (u rest : string) :
  range_from (String.length u) (u ++ rest) = range_from 0 rest.
Proof.
  induction u as [|c u IH]; [reflexivity|].
  cbn [String.length String.append range_from]. exact IH.
Qed.

Lemma validUTF8_from_skip (u rest : string) :
  validUTF8_from (String.length u) (u ++ rest) = validUTF8_from 0 rest.
Proof.
  induction u as [|c u IH]; [reflexivity|].
  cbn [String.length String.append validUTF8_from]. exact IH.
Qed.

Lemma RuneError_width (r : rune) :
  utf8.ValidRune r = true ->
  (r =? utf8.RuneError) && Nat.eqb (List.length (utf8.AppendRune r)) 1 = false.
Proof.
  intros Hv.
  destruct (AppendRune_shape r Hv) as [[Hr E]|[Hr [(b0 & b1 & E & Hb)|[(b0 & b1 & b2 & E & Hb)|(b0 & b1 & b2 & b3 & E & Hb)]]]];
    rewrite E; cbn [List.length Nat.eqb]; try apply andb_false_r.
  unfold utf8.RuneError.
  destruct (Z.eqb_spec r 65533); [lia | reflexivity].
Qed.

Lemma validUTF8_AppendRune (r : rune) (rest : string) :
  utf8.ValidRune r = true ->
  validUTF8_from 0 (string_of_bytes (utf8.AppendRune r) ++ rest)
  = validUTF8_from 0 rest.
Proof.
  intros Hv.
  pose proof (Decode_AppendRune r rest Hv) as Hd.
  destruct (encoding_cons r Hv) as (c0 & u & E & Hu & _).
  rewrite E in *. cbn [String.append] in *. cbn [validUTF8_from].
  rewrite Hd, RuneError_width by assumption.
  rewrite <- Hu. apply validUTF8_from_skip.
Qed.

Lemma validUTF8_invalid (c : ascii) (rest : string) :
  utf8.DecodeRuneInString (String c rest) = (utf8.RuneError, 1%nat) ->
  validUTF8 (String c rest) = false.
Proof.
  intros Hd. unfold validUTF8. cbn [validUTF8_from]. rewrite Hd. reflexivity.
Qed.

(** A string of ASCII bytes is valid UTF-8. *)
Lemma allASCII_valid (s : string) : allASCII s = true -> validUTF8 s = true.
Proof.
  unfold validUTF8.
  induction s as [|c s IH]; cbn [allASCII validUTF8_from]; [reflexivity|].
  intros H. apply andb_true_iff in H as [Hc Hs].
  apply Z.ltb_lt in Hc. unfold utf8.RuneSelf in Hc.
  rewrite Decode_ascii by assumption. pose proof (b2z_range c).
  unfold utf8.RuneError.
  destruct (Z.eqb_spec (b2z c) 65533); [lia|]. cbn. now apply IH.
Qed.

(** ** What the encoder writes for any rune *)

Lemma byte_of_uint32 (r : rune) (k : Z) :
  k = 0 \/ k = 6 \/ k = 12 \/ k = 18 ->
  byte_of (Z.shiftr (utf8.uint32 r) k) = byte_of (Z.shiftr r k).
Proof.
  unfold byte_of, utf8.uint32. change (2 ^ 32) with 4294967296.
  intros [-> | [-> | [-> | ->]]]; rewrite !Z.shiftr_div_pow2 by lia.
  - change (2 ^ 0) with 1. zdm.
  - change (2 ^ 6) with 64. zdm.
  - change (2 ^ 12) with 4096. zdm.
  - change (2 ^ 18) with 262144. zdm.
Qed.

Lemma uint32_idem (r : rune) : utf8.uint32 (utf8.uint32 r) = utf8.uint32 r.
Proof. unfold utf8.uint32. apply Z.mod_mod. lia. Qed.

Lemma AppendRune_uint32 (r : rune) :
  utf8.AppendRune r = utf8.AppendRune (utf8.uint32 r).
Proof.
  unfold utf8.AppendRune. rewrite uint32_idem.
  pose proof (byte_of_uint32 r 0 ltac:(lia)) as B0.
  pose proof (byte_of_uint32 r 6 ltac:(lia)) as B6.
  pose proof (byte_of_uint32 r 12 ltac:(lia)) as B12.
  pose proof (byte_of_uint32 r 18 ltac:(lia)) as B18.
  rewrite Z.shiftr_0_r in B0.
  repeat match goal with
  | |- context [if ?b then _ else _] => destruct b
  end; rewrite ?B0, ?B6, ?B12, ?B18; reflexivity.
Qed.

(** The bytes written for a rune are always the encoding of a valid rune:
    the rune itself, or [RuneError] in its place. *)
Lemma AppendRune_valid (r : rune) :
  exists r', utf8.ValidRune r' = true /\ utf8.AppendRune r = utf8.AppendRune r'.
Proof.
  rewrite AppendRune_uint32.
  assert (0 <= utf8.uint32 r < 4294967296) as Hi
    by (unfold utf8.uint32; apply Z.mod_pos_bound; lia).
  generalize dependent (utf8.uint32 r). intros i Hi.
  destruct (utf8.ValidRune i) eqn:Hv; [exists i; auto|].
  exists utf8.RuneError. split; [reflexivity|].
  assert (0xD800 <= i <= 0xDFFF \/ 0x10FFFF < i) as Hr.
  { destruct (Z_le_gt_dec 0xD800 i); destruct (Z_le_gt_dec i 0xDFFF);
      destruct (Z_le_gt_dec i 0x10FFFF); try lia;
      assert (utf8.ValidRune i = true) as Hc
        by (apply ValidRune_range; lia); congruence. }
  unfold utf8.AppendRune at 1. unfold utf8.uint32.
  rewrite (Z.mod_small i) by (change (2 ^ 32) with 4294967296; lia).
  unfold utf8.rune1Max, utf8.rune2Max, utf8.rune3Max, utf8.MaxRune,
    utf8.surrogateMin, utf8.surrogateMax.
  repeat match goal with
  | |- context [?a <? ?c] => destruct (Z.ltb_spec a c)
  | |- context [?a <=? ?c] => destruct (Z.leb_spec a c)
  end; cbn [orb andb]; try lia; reflexivity.
Qed.

Lemma Map_runes_valid (f : rune -> rune) (cs : list rune) :
  validUTF8 (strings.Map_runes f cs) = true.
Proof.
  unfold validUTF8.
  induction cs as [|c cs IH]; cbn [strings.Map_runes]; [reflexivity|].
  destruct (0 <=? f c); [|exact IH].
  destruct (AppendRune_valid (f c)) as (r' & Hv & ->).
  now rewrite validUTF8_AppendRune.
Qed.

(** ** Coercion to valid UTF-8 *)

Lemma coerceUTF8_AppendRune (r : rune) (rest : string) :
  utf8.ValidRune r = true ->
  coerceUTF8 (string_of_bytes (utf8.AppendRune r) ++ rest)
  = string_of_bytes (utf8.AppendRune r) ++ coerceUTF8 rest.
Proof.
  intros Hv. unfold coerceUTF8, strings.Map, range_string.
  rewrite range_from_AppendRune by assumption.
  cbn [strings.Map_runes].
  pose proof (ValidRune_nonneg r Hv) as Hn. apply Z.leb_le in Hn.
  now rewrite Hn.
Qed.

Lemma coerceUTF8_invalid (c : ascii) (rest : string) :
  utf8.DecodeRuneInString (String c rest) = (utf8.RuneError, 1%nat) ->
  coerceUTF8 (String c rest)
  = string_of_bytes (utf8.AppendRune utf8.RuneError) ++ coerceUTF8 rest.
Proof.
  intros Hd. unfold coerceUTF8, strings.Map, range_string.
  cbn [range_from]. rewrite Hd. reflexivity.
Qed.

(** Coercion keeps a valid string as it is. *)
Lemma coerceUTF8_of_valid (s : string) :
  validUTF8 s = true -> coerceUTF8 s = s.
Proof.
  induction s as [|c rest Hc Hd IH|r rest Hv IH] using utf8_ind.
  - reflexivity.
  - intros H. rewrite validUTF8_invalid in H by assumption. discriminate.
  - unfold validUTF8. rewrite validUTF8_AppendRune by assumption.
    intros H. rewrite coerceUTF8_AppendRune by assumption.
    now rewrite IH.
Qed.

(** Coercion gives a valid string with the runes of the input. *)
Lemma coerceUTF8_valid (s : string) : validUTF8 (coerceUTF8 s) = true.
Proof. apply Map_runes_valid. Qed.

Lemma coerceUTF8_range (s : string) :
  range_string (coerceUTF8 s) = range_string s.
Proof.
  unfold coerceUTF8, strings.Map, range_string.
  rewrite Map_runes_range; [apply map_id|].
  apply range_from_valid.
Qed.

Lemma coerceUTF8_length (s : string) :
  (String.length s <= String.length (coerceUTF8 s) <= 3 * String.length s)%nat.
Proof.
  induction s as [|c rest Hc Hd IH|r rest Hv IH] using utf8_ind.
  - cbn. lia.
  - rewrite coerceUTF8_invalid by assumption.
    rewrite append_length. cbn [String.length]. cbn. lia.
  - rewrite coerceUTF8_AppendRune by assumption.
    rewrite !append_length. lia.
Qed.

Lemma coerceUTF8_empty (s : string) : coerceUTF8 s = "" <-> s = "".
Proof.
  split; [|intros ->; reflexivity].
  intros H. pose proof (coerceUTF8_length s) as L. rewrite H in L.
  destruct s; [reflexivity | cbn in L; lia].
Qed.

Lemma ToUpper_coerceUTF8 {tables : unicode.CaseRanges} (s : string) :
  strings.ToUpper (coerceUTF8 s) = strings.ToUpper s.
Proof.
  rewrite !ToUpper_is_transform. unfold uppercase_transform, strings.Map.
  now rewrite coerceUTF8_range.
Qed.

(** Whatever the input and the case table of the host, the value of
    [Uppercase] is valid UTF-8. *)
Theorem Uppercase_value_is_valid_UTF8 {tables : unicode.CaseRanges}
    (x : stringService.t) (ctx : context.Context) (s : string) :
  validUTF8 (fst (stringService.Uppercase x ctx s)) = true.
Proof.
  unfold stringService.Uppercase.
  destruct (String.eqb s ""); cbn [fst]; [reflexivity|].
  rewrite ToUpper_is_transform. apply Map_runes_valid.
Qed.

(** When the case table of the host gives valid runes for valid runes, the
    runes of the value of [Uppercase] are the upper-case forms of the runes
    of the input, in order (a byte that does not decode counting as
    U+FFFD); so the value has as many runes as the input. *)
Theorem Uppercase_rune_by_rune {tables : unicode.CaseRanges}
    (x : stringService.t) (ctx : context.Context) (s : string) :
  (forall r, unicode.MaxASCII < r -> utf8.ValidRune r = true ->
     utf8.ValidRune (unicode.To_UpperCase r) = true) ->
  range_string (fst (stringService.Uppercase x ctx s))
  = map unicode.ToUpper (range_string s)
  /\ List.length (range_string (fst (stringService.Uppercase x ctx s)))
     = List.length (range_string s).
Proof.
  intros Hvalid.
  assert (range_string (fst (stringService.Uppercase x ctx s))
          = map unicode.ToUpper (range_string s)) as E.
  { rewrite Uppercase_value, ToUpper_is_transform.
    now apply Map_ToUpper_range. }
  split; [exact E|]. rewrite E. apply length_map.
Qed.

(** ** JSON strings: the decoder reads back what the encoder writes *)

Lemma append_assoc (s t u : string) : (s ++ t) ++ u = s ++ (t ++ u).
Proof.
  induction s as [|c s IH]; cbn [String.append]; [reflexivity | now rewrite IH].
Qed.

Lemma appendString_from_keep (keep : bool) (s : string) :
  json.appendString_from 0 keep s = json.appendString_from 0 true s.
Proof. destruct s; reflexivity. Qed.

Lemma appendString_from_skip (keep : bool) (u rest : string) :
  json.appendString_from (String.length u) keep (u ++ rest)
  = (if keep then u else "") ++ json.appendString_from 0 true rest.
Proof.
  induction u as [|c u IH].
  - cbn [String.length String.append]. rewrite appendString_from_keep.
    destruct keep; reflexivity.
  - cbn [String.length String.append json.appendString_from].
    rewrite IH. destruct keep; reflexivity.
Qed.

Lemma stringLiteral_skip (u rest : string) :
  jsondec.stringLiteral (String.length u) (u ++ rest)
  = jsondec.stringLiteral 0 rest.
Proof.
  induction u as [|c u IH]; [reflexivity|].
  cbn [String.length String.append jsondec.stringLiteral]. exact IH.
Qed.

(** One ASCII byte: written as it is or as an escape, and read back. *)
Lemma ascii_byte_roundtrip (c : ascii) (text : string) :
  (b2z c <? 128) = true ->
  jsondec.stringLiteral 0
    ((if json.htmlSafeSet (b2z c) then String c "" else json.escapeByte (b2z c))
       ++ text)
  = jsondec.emit (String c "") (jsondec.stringLiteral 0 text).
Proof.
  intros H.
  destruct c as [[] [] [] [] [] [] [] []]; vm_compute in H;
    try discriminate H; reflexivity.
Qed.

Lemma emit_inr_eq (bytes content rest : string) :
  jsondec.emit bytes (inr (content, rest)) = inr (bytes ++ content, rest).
Proof. reflexivity. Qed.

Lemma separator_escape (r : rune) (text : string) :
  r = 8232 \/ r = 8233 ->
  jsondec.stringLiteral 0
    (String "\" (String "u" (String "2" (String "0" (String "2"
       (String (json.hex (Z.land r 15)) text))))))
  = jsondec.emit (jsondec.encodeRune r) (jsondec.stringLiteral 0 text).
Proof. intros [-> | ->]; reflexivity. Qed.

(** The contents of a string literal written by the encoder are read back
    as the string coerced to valid UTF-8, and the reading stops after the
    closing quote. *)
Lemma stringLiteral_appendString (s tail : string) :
  jsondec.stringLiteral 0
    (json.appendString_from 0 true s ++ String json.dquote tail)
  = inr (coerceUTF8 s, tail).
Proof.
  induction s as [|c rest Hc Hd IH|r rest Hv IH] using utf8_ind.
  - reflexivity.
  - (* a byte that does not decode is written as the escape of U+FFFD *)
    rewrite coerceUTF8_invalid by assumption.
    cbn [json.appendString_from].
    destruct (Z.ltb_spec (b2z c) utf8.RuneSelf) as [H|_];
      [unfold utf8.RuneSelf in H; lia|].
    rewrite Hd. cbn [andb Nat.eqb Z.eqb utf8.RuneError Pos.eqb].
    change (utf8.RuneError =? utf8.RuneError) with true. cbn [andb].
    rewrite append_assoc.
    match goal with
    | |- context [jsondec.stringLiteral 0 (?e ++ ?t)] =>
        change (jsondec.stringLiteral 0 (e ++ t))
          with (jsondec.emit (jsondec.encodeRune utf8.RuneError)
                  (jsondec.stringLiteral 0 t))
    end.
    rewrite IH. reflexivity.
  - rewrite coerceUTF8_AppendRune by assumption.
    pose proof (Decode_AppendRune r rest Hv) as Hd.
    destruct (encoding_cons r Hv) as (c0 & u & E & Hu & Hlow & Hhigh).
    rewrite E in *. cbn [String.append] in *.
    destruct (Z.ltb_spec r 128) as [Hr|Hr].
    + (* an ASCII byte *)
      destruct (Hlow Hr) as [Hb ->]. cbn [String.append] in *.
      cbn [json.appendString_from].
      destruct (Z.ltb_spec (b2z c0) utf8.RuneSelf) as [_|H];
        [|unfold utf8.RuneSelf in H; lia].
      rewrite append_assoc, ascii_byte_roundtrip by (apply Z.ltb_lt; lia).
      rewrite IH. reflexivity.
    + (* a rune of several bytes *)
      destruct (Hhigh Hr) as [Hb Hne].
      cbn [json.appendString_from].
      destruct (Z.ltb_spec (b2z c0) utf8.RuneSelf) as [H|_];
        [unfold utf8.RuneSelf in H; lia|].
      rewrite Hd, RuneError_width by assumption.
      rewrite <- Hu.
      destruct ((r =? 8232) || (r =? 8233)) eqn:Esep.
      * (* U+2028 and U+2029 are written as escapes *)
        rewrite appendString_from_skip. cbn [String.append].
        rewrite separator_escape
          by (apply orb_true_iff in Esep as [H|H]; apply Z.eqb_eq in H; lia).
        rewrite IH, emit_inr_eq. unfold jsondec.encodeRune.
        rewrite E. reflexivity.
      * (* the bytes of the rune are copied *)
        rewrite appendString_from_skip.
        cbn [String.append jsondec.stringLiteral].
        pose proof (b2z_range c0) as Hc0.
        destruct (Z.eqb_spec (b2z c0) 34) as [H|_]; [lia|].
        destruct (Z.eqb_spec (b2z c0) 92) as [H|_]; [lia|].
        destruct (Z.ltb_spec (b2z c0) 32) as [H|_]; [lia|].
        destruct (Z.ltb_spec (b2z c0) utf8.RuneSelf) as [H|_];
          [unfold utf8.RuneSelf in H; lia|].
        rewrite append_assoc.
        pose proof (Decode_AppendRune r
                      (json.appendString_from 0 true rest
                         ++ String json.dquote tail) Hv) as Hd'.
        rewrite E in Hd'. cbn [String.append] in Hd'. rewrite Hd'.
        rewrite <- Hu, stringLiteral_skip, IH.
        rewrite emit_inr_eq. unfold jsondec.encodeRune. rewrite E.
        reflexivity.
Qed.

Lemma Marshal_uppercaseRequest (r : uppercaseRequest) :
  json.Marshal (any_uppercaseRequest r) = request_text (uppercaseRequest_S r).
Proof.
  unfold json.Marshal, json.structFields, json.encodedFields, json.encodeObject.
  cbn [filter map json.omitEmpty json.name json.value andb negb
       json.encodeMembers json.encodeValue].
  unfold json.appendString at 2. unfold request_text.
  cbn. rewrite !append_assoc. reflexivity.
Qed.

Lemma Marshal_countRequest (r : countRequest) :
  json.Marshal (any_countRequest r) = request_text (countRequest_S r).
Proof.
  unfold json.Marshal, json.structFields, json.encodedFields, json.encodeObject.
  cbn [filter map json.omitEmpty json.name json.value andb negb
       json.encodeMembers json.encodeValue].
  unfold json.appendString at 2. unfold request_text.
  cbn. rewrite !append_assoc. reflexivity.
Qed.

Lemma parse_request_text (fuel : nat) (S0 trailing : string) :
  (3 <= fuel)%nat ->
  jsondec.parseValue fuel 0 (request_text S0 ++ trailing)
  = Some (inr (jsondec.Object [("s", jsondec.Str (coerceUTF8 S0))], trailing)).
Proof.
  intros Hf. destruct fuel as [|[|[|fuel]]]; try lia.
  unfold request_text. cbn [String.append]. rewrite append_assoc.
  cbn [String.append].
  cbn.
  rewrite stringLiteral_appendString. reflexivity.
Qed.

Lemma request_text_length (S0 trailing : string) :
  (3 <= 2 * String.length (request_text S0 ++ trailing) + 1)%nat.
Proof. unfold request_text. cbn [String.append String.length]. lia. Qed.

Lemma readValue_request_text (S0 trailing : string) :
  jsondec.readValue (request_text S0 ++ trailing)
  = inr (jsondec.Object [("s", jsondec.Str (coerceUTF8 S0))]).
Proof.
  pose proof (parse_request_text _ S0 trailing
                (request_text_length S0 trailing)) as Hp.
  unfold jsondec.readValue.
  remember (request_text S0 ++ trailing) as body eqn:Hb.
  assert (exists b', body = String "{" b') as [b' ->]
    by (subst body; eexists; reflexivity).
  change (jsondec.skipSpace (String "{" b')) with (String "{" b').
  cbv iota. rewrite Hp. reflexivity.
Qed.

(** A struct with the one member ["s"], marshalled and followed by
    anything, is decoded to the string coerced to valid UTF-8, with no
    error, whatever the struct held before. *)
Lemma Decode_struct_request_text (typ S0 trailing before : string) :
  jsondec.Decode_struct typ (request_text S0 ++ trailing) before
  = (coerceUTF8 S0, None).
Proof.
  unfold jsondec.Decode_struct. rewrite readValue_request_text. reflexivity.
Qed.

(** ** Endpoints and handlers on every input *)

Lemma encodeResponse_fresh (ctx : context.Context) (response : any) :
  encodeResponse ctx http.NewResponseWriter response
  = (ok_response (json.Encode response), None).
Proof. reflexivity. Qed.

(** The answer of a handler of the program, for every service, decoder and
    request: when the decoder fails, the status 500 with the text of its
    error, and the service is not called; when it succeeds, the status 200
    with the JSON of the response of the endpoint, whether the service
    failed or not. *)
Theorem handlers_answer {codec : json.Decoder} (svc : StringService)
    (r : http.Request) (w : World) :
  match decodeUppercaseRequest (http.Context r) r with
  | (_, Some err) =>
      httptransport.ServeHTTP
        (httptransport.NewServer
           (makeUppercaseEndpoint svc) decodeUppercaseRequest encodeResponse)
        http.NewResponseWriter r w
      = (Returned
           (httptransport.DefaultErrorEncoder (http.Context r) err
              http.NewResponseWriter), w)
  | (request, None) =>
      exists req v err w',
        request = any_uppercaseRequest req
        /\ Uppercase svc (http.Context r) (uppercaseRequest_S req) w
           = ((v, err), w')
        /\ httptransport.ServeHTTP
             (httptransport.NewServer
                (makeUppercaseEndpoint svc) decodeUppercaseRequest
                encodeResponse)
             http.NewResponseWriter r w
           = (Returned
                (ok_response
                   (json.Encode
                      (any_uppercaseResponse
                         {| uppercaseResponse_V := v;
                            uppercaseResponse_Err := businessError err |}))),
              w')
  end
  /\ match decodCountRequest (http.Context r) r with
     | (_, Some err) =>
         httptransport.ServeHTTP
           (httptransport.NewServer
              (makeCountEndpoint svc) decodCountRequest encodeResponse)
           http.NewResponseWriter r w
         = (Returned
              (httptransport.DefaultErrorEncoder (http.Context r) err
                 http.NewResponseWriter), w)
     | (request, None) =>
         exists req n w',
           request = any_countRequest req
           /\ Count svc (http.Context r) (countRequest_S req) w = (n, w')
           /\ httptransport.ServeHTTP
                (httptransport.NewServer
                   (makeCountEndpoint svc) decodCountRequest encodeResponse)
                http.NewResponseWriter r w
              = (Returned
                   (ok_response
                      (json.Encode
                         (any_countResponse {| countResponse_V := n |}))),
                 w')
     end.
Proof.
  split.
  - destruct (decodeUppercaseRequest (http.Context r) r)
      as [request [err|]] eqn:D.
    + now apply (ServeHTTP_decode_error _ _ _ _ _ _ request).
    + destruct (decodeUppercaseRequest_ok _ _ _ D) as [req ->].
      destruct (Uppercase svc (http.Context r) (uppercaseRequest_S req) w)
        as [[v err] w'] eqn:E.
      exists req, v, err, w'. split; [reflexivity|split; [exact E|]].
      unfold httptransport.ServeHTTP, httptransport.NewServer.
      cbn [httptransport.dec httptransport.e httptransport.enc].
      rewrite D.
      rewrite (bind_run _ _ _ _ _ (makeUppercaseEndpoint_run _ _ _ _ _ _ _ E)).
      rewrite encodeResponse_fresh. reflexivity.
  - destruct (decodCountRequest (http.Context r) r)
      as [request [err|]] eqn:D.
    + now apply (ServeHTTP_decode_error _ _ _ _ _ _ request).
    + destruct (decodCountRequest_ok _ _ _ D) as [req ->].
      destruct (Count svc (http.Context r) (countRequest_S req) w)
        as [n w'] eqn:E.
      exists req, n, w'. split; [reflexivity|split; [exact E|]].
      unfold httptransport.ServeHTTP, httptransport.NewServer.
      cbn [httptransport.dec httptransport.e httptransport.enc].
      rewrite D.
      rewrite (bind_run _ _ _ _ _ (makeCountEndpoint_run _ _ _ _ _ _ E)).
      rewrite encodeResponse_fresh. reflexivity.
Qed.

(** When the service fails with an error whose message is empty, the
    response of the endpoint is the response of a success: [Err] is empty,
    and the JSON object has no [err] member. *)
Theorem empty_message_error_is_lost (svc : StringService)
    (ctx : context.Context) (req : uppercaseRequest) (w w' : World)
    (v : string) (e : errorValue) :
  Uppercase svc ctx (uppercaseRequest_S req) w = ((v, Some e), w') ->
  Error e = "" ->
  makeUppercaseEndpoint svc ctx (any_uppercaseRequest req) w
  = (Returned
       (any_uppercaseResponse
          {| uppercaseResponse_V := v; uppercaseResponse_Err := "" |}, None),
     w')
  /\ json.members
       (any_uppercaseResponse
          {| uppercaseResponse_V := v; uppercaseResponse_Err := Error e |})
     = [("v", json.JString v)].
Proof.
  intros HU He. split.
  - rewrite (makeUppercaseEndpoint_run _ _ _ _ _ _ _ HU).
    cbn [businessError]. now rewrite He.
  - rewrite members_uppercaseResponse, He. reflexivity.
Qed.

Lemma empty_message_error_is_lost_silentService :
  makeUppercaseEndpoint silentService context.Background
    (any_uppercaseRequest {| uppercaseRequest_S := "hello" |}) world0
  = (Returned
       (any_uppercaseResponse
          {| uppercaseResponse_V := "hello"; uppercaseResponse_Err := "" |},
        None), world0)
  /\ json.members
       (any_uppercaseResponse
          {| uppercaseResponse_V := "hello";
             uppercaseResponse_Err := Error (errorString "") |})
     = [("v", json.JString "hello")].
Proof.
  apply (empty_message_error_is_lost silentService context.Background
           {| uppercaseRequest_S := "hello" |} world0 world0 "hello"
           (errorString "")); reflexivity.
Defined.

(** ** Requests written by the encoder *)

Lemma Encode_uppercaseRequest (r : uppercaseRequest) :
  json.Encode (any_uppercaseRequest r)
  = request_text (uppercaseRequest_S r) ++ json.newline.
Proof. unfold json.Encode. now rewrite Marshal_uppercaseRequest. Qed.

Lemma Encode_countRequest (r : countRequest) :
  json.Encode (any_countRequest r)
  = request_text (countRequest_S r) ++ json.newline.
Proof. unfold json.Encode. now rewrite Marshal_countRequest. Qed.

Lemma decodeUppercaseRequest_request_text (ctx : context.Context)
    (url S0 trailing : string) :
  @decodeUppercaseRequest jsondec.decoder ctx
    (http.Post url (request_text S0 ++ trailing))
  = (any_uppercaseRequest {| uppercaseRequest_S := coerceUTF8 S0 |}, None).
Proof.
  unfold decodeUppercaseRequest, json.Decode_uppercaseRequest, jsondec.decoder.
  cbn [http.Body http.Post uppercaseRequest_S].
  rewrite Decode_struct_request_text. reflexivity.
Qed.

Lemma decodCountRequest_request_text (ctx : context.Context)
    (url S0 trailing : string) :
  @decodCountRequest jsondec.decoder ctx
    (http.Post url (request_text S0 ++ trailing))
  = (any_countRequest {| countRequest_S := coerceUTF8 S0 |}, None).
Proof.
  unfold decodCountRequest, json.Decode_countRequest, jsondec.decoder.
  cbn [http.Body http.Post countRequest_S].
  rewrite Decode_struct_request_text. reflexivity.
Qed.

Lemma append_empty_r (s : string) : s ++ "" = s.
Proof.
  induction s as [|c s IH]; cbn [String.append]; [reflexivity | now rewrite IH].
Qed.

(** The decoders read back what [encodeResponse] writes for a request
    struct: the request with its string coerced to valid UTF-8 (each byte
    that does not decode replaced by U+FFFD), which is the request itself
    when its string is valid UTF-8. *)
Theorem decoders_read_back_encodeResponse (ctx ctx' : context.Context)
    (url : string) (r : uppercaseRequest) (cr : countRequest) :
  @decodeUppercaseRequest jsondec.decoder ctx'
    (http.Post url
       (http.Written
          (fst (encodeResponse ctx http.NewResponseWriter
                  (any_uppercaseRequest r)))))
  = (any_uppercaseRequest
       {| uppercaseRequest_S := coerceUTF8 (uppercaseRequest_S r) |}, None)
  /\ @decodCountRequest jsondec.decoder ctx'
       (http.Post url
          (http.Written
             (fst (encodeResponse ctx http.NewResponseWriter
                     (any_countRequest cr)))))
     = (any_countRequest
          {| countRequest_S := coerceUTF8 (countRequest_S cr) |}, None)
  /\ (validUTF8 (uppercaseRequest_S r) = true ->
      coerceUTF8 (uppercaseRequest_S r) = uppercaseRequest_S r)
  /\ (validUTF8 (countRequest_S cr) = true ->
      coerceUTF8 (countRequest_S cr) = countRequest_S cr).
Proof.
  rewrite !encodeResponse_fresh. cbn [fst http.Written ok_response].
  rewrite Encode_uppercaseRequest, Encode_countRequest.
  rewrite decodeUppercaseRequest_request_text, decodCountRequest_request_text.
  repeat split; apply coerceUTF8_of_valid.
Qed.

(** The uppercase route on the marshalled request of any string [s]: the
    status 200 and the JSON of the response, which holds the error text
    when [s] is empty and the upper-case form of [s] otherwise; the state
    of the process is untouched. *)
Theorem uppercase_route_on_any_string {tables : unicode.CaseRanges}
    (s : string) (w : World) :
  httptransport.ServeHTTP (@main0.uppercaseHandler tables jsondec.decoder)
    http.NewResponseWriter
    (http.Post "/uppercase"
       (json.Marshal (any_uppercaseRequest {| uppercaseRequest_S := s |}))) w
  = (Returned
       (ok_response
          (json.Encode
             (any_uppercaseResponse
                (if String.eqb s ""
                 then {| uppercaseResponse_V := "";
                         uppercaseResponse_Err := "empty string" |}
                 else {| uppercaseResponse_V := strings.ToUpper s;
                         uppercaseResponse_Err := "" |})))), w).
Proof.
  unfold httptransport.ServeHTTP, main0.uppercaseHandler,
    httptransport.NewServer.
  cbn [httptransport.dec httptransport.e httptransport.enc http.Context
       http.Post].
  rewrite Marshal_uppercaseRequest. cbn [uppercaseRequest_S].
  rewrite <- (append_empty_r (request_text s)).
  rewrite decodeUppercaseRequest_request_text.
  rewrite (bind_run _ _ _ _ _ (makeUppercaseEndpoint_main0 _ _ _)).
  cbn [uppercaseRequest_S]. rewrite encodeResponse_fresh.
  rewrite ToUpper_coerceUTF8.
  destruct (String.eqb s "") eqn:E.
  - apply String.eqb_eq in E. subst s. reflexivity.
  - assert (String.eqb (coerceUTF8 s) "" = false) as ->; [|reflexivity].
    apply String.eqb_neq. intros H. apply (proj1 (coerceUTF8_empty s)) in H.
    apply String.eqb_neq in E. contradiction.
Qed.

(** The count route on the marshalled request of any string [s]: the status
    200 and the JSON of the count of [s] coerced to valid UTF-8.  The count
    is that of [s] when [s] is valid UTF-8, and in general between the
    count of [s] and three times it (a byte that does not decode counts
    for three). *)
Theorem count_route_on_any_string {tables : unicode.CaseRanges}
    (s : string) (w : World) :
  httptransport.ServeHTTP (@main0.countHandler tables jsondec.decoder)
    http.NewResponseWriter
    (http.Post "/count"
       (json.Marshal (any_countRequest {| countRequest_S := s |}))) w
  = (Returned
       (ok_response
          (json.Encode
             (any_countResponse
                {| countResponse_V :=
                     stringService.Count stringService.new context.Background
                       (coerceUTF8 s) |}))), w)
  /\ (validUTF8 s = true ->
      stringService.Count stringService.new context.Background (coerceUTF8 s)
      = stringService.Count stringService.new context.Background s)
  /\ stringService.Count stringService.new context.Background s
     <= stringService.Count stringService.new context.Background (coerceUTF8 s)
     <= 3 * stringService.Count stringService.new context.Background s.
Proof.
  split; [|split].
  - unfold httptransport.ServeHTTP, main0.countHandler, httptransport.NewServer.
    cbn [httptransport.dec httptransport.e httptransport.enc http.Context
         http.Post].
    rewrite Marshal_countRequest. cbn [countRequest_S].
    rewrite <- (append_empty_r (request_text s)).
    rewrite decodCountRequest_request_text.
    reflexivity.
  - intros Hv. now rewrite coerceUTF8_of_valid.
  - unfold stringService.Count. pose proof (coerceUTF8_length s). lia.
Qed.

(** ** A body without the member [s] *)

Lemma storeMembers_no_key (typ : string)
    (ms : list (string * jsondec.value)) (S0 : string) (err : error) :
  forallb (fun kv => negb (jsondec.selects_s (fst kv))) ms = true ->
  jsondec.storeMembers typ ms S0 err = (S0, err).
Proof.
  revert S0 err. induction ms as [|[key v] ms IH]; intros S0 err H;
    cbn [jsondec.storeMembers]; [reflexivity|].
  cbn [forallb fst] in H. apply andb_true_iff in H as [Hk Hms].
  apply negb_true_iff in Hk. rewrite Hk. now apply IH.
Qed.

Lemma Decode_struct_no_key (typ body : string)
    (ms : list (string * jsondec.value)) (S0 : string) :
  jsondec.readValue body = inr (jsondec.Object ms) ->
  forallb (fun kv => negb (jsondec.selects_s (fst kv))) ms = true ->
  jsondec.Decode_struct typ body S0 = (S0, None).
Proof.
  intros Hr Hms. unfold jsondec.Decode_struct. rewrite Hr.
  cbn [jsondec.store]. now apply storeMembers_no_key.
Qed.

(** When the body is a JSON object none of whose keys selects the field
    [S] (the empty object included), the request keeps its zero value: the
    uppercase route answers, with the status 200, the error "empty string",
    and the count route answers 0. *)
Theorem missing_key_is_the_empty_string {tables : unicode.CaseRanges}
    (body : string) (ms : list (string * jsondec.value)) (w : World) :
  jsondec.readValue body = inr (jsondec.Object ms) ->
  forallb (fun kv => negb (jsondec.selects_s (fst kv))) ms = true ->
  httptransport.ServeHTTP (@main0.uppercaseHandler tables jsondec.decoder)
    http.NewResponseWriter (http.Post "/uppercase" body) w
  = (Returned
       (ok_response
          (json.Encode
             (any_uppercaseResponse
                {| uppercaseResponse_V := "";
                   uppercaseResponse_Err := "empty string" |}))), w)
  /\ httptransport.ServeHTTP (@main0.countHandler tables jsondec.decoder)
       http.NewResponseWriter (http.Post "/count" body) w
     = (Returned
          (ok_response
             (json.Encode (any_countResponse {| countResponse_V := 0 |}))), w).
Proof.
  intros Hr Hms. split.
  - unfold httptransport.ServeHTTP, main0.uppercaseHandler,
      httptransport.NewServer.
    cbn [httptransport.dec httptransport.e httptransport.enc http.Context
         http.Post].
    unfold decodeUppercaseRequest, json.Decode_uppercaseRequest,
      jsondec.decoder.
    cbn [http.Body uppercaseRequest_S].
    rewrite (Decode_struct_no_key _ _ ms) by assumption.
    reflexivity.
  - unfold httptransport.ServeHTTP, main0.countHandler,
      httptransport.NewServer.
    cbn [httptransport.dec httptransport.e httptransport.enc http.Context
         http.Post].
    unfold decodCountRequest, json.Decode_countRequest, jsondec.decoder.
    cbn [http.Body countRequest_S].
    rewrite (Decode_struct_no_key _ _ ms) by assumption.
    reflexivity.
Qed.

(** ** The further statements at concrete inputs *)

Lemma Uppercase_ascii_any_host_hello :
  @stringService.Uppercase latin1 stringService.new context.Background
    "hello, world"
  = @stringService.Uppercase asciiOnly stringService.new context.Background
      "hello, world"
  /\ fst (@stringService.Uppercase latin1 stringService.new context.Background
            "hello, world")
     = "HELLO, WORLD".
Proof.
  apply (Uppercase_ascii_any_host latin1 asciiOnly stringService.new
           context.Background "hello, world").
  reflexivity.
Defined.

Lemma Uppercase_ascii_shape_hello :
  stringService.Count stringService.new context.Background
    (fst (@stringService.Uppercase latin1 stringService.new
            context.Background "hello, world"))
  = 12
  /\ allASCII (fst (@stringService.Uppercase latin1 stringService.new
                      context.Background "hello, world")) = true
  /\ anyLower (fst (@stringService.Uppercase latin1 stringService.new
                      context.Background "hello, world")) = false.
Proof.
  apply (@Uppercase_ascii_shape latin1 stringService.new context.Background
           "hello, world").
  reflexivity.
Defined.

Lemma Uppercase_ascii_concat_hello :
  fst (@stringService.Uppercase latin1 stringService.new context.Background
         ("hello, " ++ "world"))
  = fst (@stringService.Uppercase latin1 stringService.new context.Background
           "hello, ")
    ++ fst (@stringService.Uppercase latin1 stringService.new
              context.Background "world")
  /\ stringService.Count stringService.new context.Background
       ("hello, " ++ "world")
     = 7 + 5.
Proof.
  apply (@Uppercase_ascii_concat latin1 stringService.new context.Background
           "hello, " "world"); reflexivity.
Defined.

Lemma Uppercase_ascii_idempotent_hello :
  @stringService.Uppercase latin1 stringService.new context.Background
    (fst (@stringService.Uppercase latin1 stringService.new
            context.Background "hello, world"))
  = ("HELLO, WORLD", None).
Proof.
  apply (@Uppercase_ascii_idempotent latin1 stringService.new
           context.Background "hello, world").
  reflexivity.
Defined.

Lemma Uppercase_rune_by_rune_latin1 :
  range_string (fst (@stringService.Uppercase latin1 stringService.new
                       context.Background "héllo"))
  = [72; 201; 76; 76; 79]
  /\ List.length
       (range_string (fst (@stringService.Uppercase latin1 stringService.new
                             context.Background "héllo")))
     = 5%nat.
Proof.
  apply (@Uppercase_rune_by_rune latin1 stringService.new context.Background
           "héllo" latin1_valid).
Defined.

Lemma missing_key_is_the_empty_string_t :
  httptransport.ServeHTTP (@main0.uppercaseHandler latin1 jsondec.decoder)
    http.NewResponseWriter
    (http.Post "/uppercase" ("{" ++ jstr "t" ++ ":" ++ jstr "hello" ++ "}"))
    world0
  = (Returned
       (ok_response
          (json.Encode
             (any_uppercaseResponse
                {| uppercaseResponse_V := "";
                   uppercaseResponse_Err := "empty string" |}))), world0)
  /\ httptransport.ServeHTTP (@main0.countHandler latin1 jsondec.decoder)
       http.NewResponseWriter
       (http.Post "/count" ("{" ++ jstr "t" ++ ":" ++ jstr "hello" ++ "}"))
       world0
     = (Returned
          (ok_response
             (json.Encode (any_countResponse {| countResponse_V := 0 |}))),
        world0).
Proof.
  apply (@missing_key_is_the_empty_string latin1 _
           [("t", jsondec.Str "hello")] world0); reflexivity.
Defined.
